(** * Freescale eDMA engine driver (drivers/dma/fsl-edma.c): a shallow embedding

    The driver is embedded function by function.  C integers are [Z] with
    the wrap-around of their C type written out, the in-memory TCD is a
    record of byte strings (its fields are [__le32]/[__le16]), register
    writes are collected in a trace, register reads come from an oracle, and
    code that can trap in the kernel (a NULL dereference, a division by
    zero, an index past an array) returns [Fault]. *)

From Stdlib Require Import ZArith List Lia Bool.
From stdpp Require Import base list.
From coqutil Require Import Byte Word.LittleEndianList Z.bitblast.
Import ListNotations.
Local Open Scope Z_scope.

(** ** C integer types

    The S32 targets of the driver are arm64 (the device trees shipped with
    it), so [size_t], [unsigned long] and [dma_addr_t] are 64 bits wide. *)

Definition u8 (x : Z) : Z := x mod 2 ^ 8.
Definition u16 (x : Z) : Z := x mod 2 ^ 16.
Definition u32 (x : Z) : Z := x mod 2 ^ 32.
Definition size_t (x : Z) : Z := x mod 2 ^ 64.
Definition dma_addr_t (x : Z) : Z := x mod 2 ^ 64.

(** Conversion to [int] (two's complement, 32 bits). *)
Definition int (x : Z) : Z := (x + 2 ^ 31) mod 2 ^ 32 - 2 ^ 31.

Definition INT_MAX : Z := 2 ^ 31 - 1.

Definition BIT (n : Z) : Z := Z.shiftl 1 n.

Definition EINVAL : Z := 22.

(** ** Traps

    [Fault] stands for behaviour the kernel does not survive: dereferencing
    a NULL pointer, dividing by zero, indexing past the end of an array. *)

Inductive result (A : Type) : Type :=
| Ok (a : A)
| Fault.

Arguments Ok {A} a.
Arguments Fault {A}.

#[export] Instance result_ret : MRet result := fun A a => Ok a.

#[export] Instance result_bind : MBind result := fun A B k r =>
  match r with
  | Ok a => k a
  | Fault => Fault
  end.

(** A pointer that must not be NULL when it is dereferenced. *)
Definition deref {A : Type} (p : option A) : result A :=
  match p with
  | Some a => Ok a
  | None => Fault
  end.

(** C division and remainder of unsigned operands. *)
Definition udiv (a b : Z) : result Z :=
  if b =? 0 then Fault else Ok (a / b).

Definition umod (a b : Z) : result Z :=
  if b =? 0 then Fault else Ok (a mod b).

(** ** Enumerations *)

(** Modelled from the spec: [enum dma_transfer_direction] is declared in
    include/linux/dmaengine.h, outside the driver; the two slave directions
    are memory-to-device and device-to-memory. *)
Inductive dma_transfer_direction : Type :=
| DMA_MEM_TO_MEM
| DMA_MEM_TO_DEV
| DMA_DEV_TO_MEM
| DMA_DEV_TO_DEV
| DMA_TRANS_NONE.

(** Modelled from the spec: [enum dma_status] is declared in
    include/linux/dmaengine.h; a zeroed channel reads [DMA_COMPLETE]. *)
Inductive dma_status : Type :=
| DMA_COMPLETE
| DMA_IN_PROGRESS
| DMA_PAUSED
| DMA_ERROR.

Inductive fsl_edma_pm_state : Type :=
| RUNNING
| SUSPENDED.

Inductive irqreturn_t : Type :=
| IRQ_NONE
| IRQ_HANDLED.

Definition dir_eqb (a b : dma_transfer_direction) : bool :=
  match a, b with
  | DMA_MEM_TO_MEM, DMA_MEM_TO_MEM
  | DMA_MEM_TO_DEV, DMA_MEM_TO_DEV
  | DMA_DEV_TO_MEM, DMA_DEV_TO_MEM
  | DMA_DEV_TO_DEV, DMA_DEV_TO_DEV
  | DMA_TRANS_NONE, DMA_TRANS_NONE => true
  | _, _ => false
  end.

(** Modelled from the spec: [is_slave_direction] of dmaengine.h; a
    submission fails unless the configured direction is device-to-memory or
    memory-to-device. *)
Definition is_slave_direction (d : dma_transfer_direction) : bool :=
  dir_eqb d DMA_MEM_TO_DEV || dir_eqb d DMA_DEV_TO_MEM.

(** ** Register and field constants *)

Definition EDMA_CR : Z := 0x00.
Definition EDMA_ES : Z := 0x04.
Definition EDMA_ERQ : Z := 0x0C.
Definition EDMA_EEI : Z := 0x14.
Definition EDMA_SERQ : Z := 0x1B.
Definition EDMA_CERQ : Z := 0x1A.
Definition EDMA_SEEI : Z := 0x19.
Definition EDMA_CEEI : Z := 0x18.
Definition EDMA_CINT : Z := 0x1F.
Definition EDMA_CERR : Z := 0x1E.
Definition EDMA_INTR : Z := 0x24.
Definition EDMA_ERR : Z := 0x2C.

Definition EDMA_TCD (ch : Z) : Z := 0x1000 + 32 * ch.

Definition EDMA3_MP_CSR : Z := 0x00.
Definition EDMA3_MP_ES : Z := 0x04.
Definition EDMA3_CHn_CSR (ch : Z) : Z := 0x4000 + ch * 0x1000.
Definition EDMA3_CHn_ES (ch : Z) : Z := 0x4004 + ch * 0x1000.
Definition EDMA3_CHn_INT (ch : Z) : Z := 0x4008 + ch * 0x1000.
Definition EDMA3_TCD (ch : Z) : Z := 0x4020 + 0x1000 * ch.

Definition EDMA_CR_ERCA : Z := BIT 2.
Definition EDMA_CR_ERGA : Z := BIT 3.

Definition EDMA_SEEI_SEEI (x : Z) : Z := Z.land x 0x1F.
Definition EDMA_CEEI_CEEI (x : Z) : Z := Z.land x 0x1F.
Definition EDMA_CINT_CINT (x : Z) : Z := Z.land x 0x1F.
Definition EDMA_CERR_CERR (x : Z) : Z := Z.land x 0x1F.

Definition EDMA3_MP_CSR_ERCA : Z := BIT 2.
Definition EDMA3_MP_ES_VLD (x : Z) : Z := Z.land x 0x80000000.
Definition EDMA3_CHn_CSR_ERQ : Z := BIT 0.
Definition EDMA3_CHn_CSR_EEI : Z := BIT 2.
Definition EDMA3_CHn_ES_ERR : Z := BIT 31.
Definition EDMA3_CHn_INT_INT : Z := BIT 0.

Definition EDMA_TCD_ATTR_SSIZE_8BIT : Z := 0x0000.
Definition EDMA_TCD_ATTR_SSIZE_16BIT : Z := 0x0100.
Definition EDMA_TCD_ATTR_SSIZE_32BIT : Z := 0x0200.
Definition EDMA_TCD_ATTR_SSIZE_64BIT : Z := 0x0300.
Definition EDMA_TCD_ATTR_DSIZE_8BIT : Z := 0x0000.
Definition EDMA_TCD_ATTR_DSIZE_16BIT : Z := 0x0001.
Definition EDMA_TCD_ATTR_DSIZE_32BIT : Z := 0x0002.
Definition EDMA_TCD_ATTR_DSIZE_64BIT : Z := 0x0003.

Definition EDMA_TCD_SOFF_SOFF (x : Z) : Z := x.
Definition EDMA_TCD_NBYTES_NBYTES (x : Z) : Z := x.
Definition EDMA_TCD_SLAST_SLAST (x : Z) : Z := x.
Definition EDMA_TCD_CITER_CITER (x : Z) : Z := Z.land x 0x7FFF.
Definition EDMA_TCD_DOFF_DOFF (x : Z) : Z := x.
Definition EDMA_TCD_DLAST_SGA_DLAST_SGA (x : Z) : Z := x.
Definition EDMA_TCD_BITER_BITER (x : Z) : Z := Z.land x 0x7FFF.

Definition EDMA_TCD_CSR_INT_MAJOR : Z := BIT 1.
Definition EDMA_TCD_CSR_D_REQ : Z := BIT 3.
Definition EDMA_TCD_CSR_E_SG : Z := BIT 4.

Definition EDMAMUX_CHCFG_DIS : Z := 0x0.
Definition EDMAMUX_CHCFG_ENBL : Z := 0x80.
Definition EDMAMUX_CHCFG_SOURCE (n : Z) : Z := Z.land n 0x3F.

Definition DMAMUX_NR : Z := 2.

(** ** Host byte order

    [cpu_be] says whether the CPU is big-endian.  A C object of [n] bytes
    holding the value [v] occupies [cpu_store cpu_be n v] in memory, and
    the CPU reads the bytes [bs] as [cpu_load cpu_be bs]. *)

Definition cpu_store (cpu_be : bool) (n : nat) (v : Z) : list byte :=
  if cpu_be then rev (le_split n v) else le_split n v.

Definition cpu_load (cpu_be : bool) (bs : list byte) : Z :=
  if cpu_be then le_combine (rev bs) else le_combine bs.

(** Modelled from the spec: the byte-order helpers of
    include/linux/byteorder are outside the driver; TCD fields are kept in
    little-endian whatever the host, so on a big-endian CPU
    [cpu_to_le32] and [le32_to_cpu] swap the bytes of the word and on a
    little-endian CPU they leave it alone.  [swab16] exchanges the two
    bytes of a half-word. *)
Definition swab16 (x : Z) : Z :=
  Z.lor (Z.shiftl (Z.land x 0x00ff) 8) (Z.shiftr (Z.land x 0xff00) 8).

(** Modelled from the spec: [swab32] of the byte-order helpers reverses
    the four bytes of a word. *)
Definition swab32 (x : Z) : Z :=
  Z.lor (Z.lor (Z.shiftl (Z.land x 0x000000ff) 24)
               (Z.shiftl (Z.land x 0x0000ff00) 8))
        (Z.lor (Z.shiftr (Z.land x 0x00ff0000) 8)
               (Z.shiftr (Z.land x 0xff000000) 24)).

(** Modelled from the spec: [cpu_to_le16] of the byte-order helpers. *)
Definition cpu_to_le16 (cpu_be : bool) (x : Z) : Z :=
  if cpu_be then swab16 x else x.

(** Modelled from the spec: [cpu_to_le32] of the byte-order helpers. *)
Definition cpu_to_le32 (cpu_be : bool) (x : Z) : Z :=
  if cpu_be then swab32 x else x.

(** Modelled from the spec: [le16_to_cpu] of the byte-order helpers. *)
Definition le16_to_cpu (cpu_be : bool) (x : Z) : Z :=
  if cpu_be then swab16 x else x.

(** Modelled from the spec: [le32_to_cpu] of the byte-order helpers. *)
Definition le32_to_cpu (cpu_be : bool) (x : Z) : Z :=
  if cpu_be then swab32 x else x.

(** ** The TCD in memory

    [struct fsl_edma_tcd]: every field is the byte string it occupies.
    [tcd_wire] is the 32-byte block the controller fetches when it follows
    a scatter-gather link. *)

Record fsl_edma_tcd : Type := mk_tcd {
  saddr : list byte;
  soff : list byte;
  attr : list byte;
  nbytes : list byte;
  slast : list byte;
  daddr : list byte;
  doff : list byte;
  citer : list byte;
  dlast_sga : list byte;
  csr : list byte;
  biter : list byte
}.

Definition tcd_wire (t : fsl_edma_tcd) : list byte :=
  saddr t ++ soff t ++ attr t ++ nbytes t ++ slast t ++ daddr t ++
  doff t ++ citer t ++ dlast_sga t ++ csr t ++ biter t.

(** [fsl_edma_fill_tcd]: an assignment [tcd->f = cpu_to_le32(x)] stores the
    converted word the way the CPU stores a [u32]. *)
Definition fsl_edma_fill_tcd (cpu_be : bool)
    (src dst attr_ soff_ nbytes_ slast_ citer_ biter_ doff_ dlast_sga_ : Z)
    (major_int disable_req enable_sg : bool) : fsl_edma_tcd :=
  let csr0 := 0 in
  let csr1 := if major_int then Z.lor csr0 EDMA_TCD_CSR_INT_MAJOR else csr0 in
  let csr2 := if disable_req then Z.lor csr1 EDMA_TCD_CSR_D_REQ else csr1 in
  let csr3 := if enable_sg then Z.lor csr2 EDMA_TCD_CSR_E_SG else csr2 in
  {| saddr := cpu_store cpu_be 4 (cpu_to_le32 cpu_be src);
     daddr := cpu_store cpu_be 4 (cpu_to_le32 cpu_be dst);
     attr := cpu_store cpu_be 2 (cpu_to_le16 cpu_be attr_);
     soff := cpu_store cpu_be 2 (cpu_to_le16 cpu_be (EDMA_TCD_SOFF_SOFF soff_));
     nbytes := cpu_store cpu_be 4
                 (cpu_to_le32 cpu_be (EDMA_TCD_NBYTES_NBYTES nbytes_));
     slast := cpu_store cpu_be 4
                (cpu_to_le32 cpu_be (EDMA_TCD_SLAST_SLAST slast_));
     citer := cpu_store cpu_be 2
                (cpu_to_le16 cpu_be (EDMA_TCD_CITER_CITER citer_));
     doff := cpu_store cpu_be 2 (cpu_to_le16 cpu_be (EDMA_TCD_DOFF_DOFF doff_));
     dlast_sga := cpu_store cpu_be 4
                    (cpu_to_le32 cpu_be
                       (EDMA_TCD_DLAST_SGA_DLAST_SGA dlast_sga_));
     biter := cpu_store cpu_be 2
                (cpu_to_le16 cpu_be (EDMA_TCD_BITER_BITER biter_));
     csr := cpu_store cpu_be 2 (cpu_to_le16 cpu_be csr3) |}.

(** Reading a field back, as [fsl_edma_set_tcd_regs] and
    [fsl_edma_desc_residue] do: [le32_to_cpu(tcd->f)]. *)
Definition rd_le32 (cpu_be : bool) (f : list byte) : Z :=
  le32_to_cpu cpu_be (cpu_load cpu_be f).

Definition rd_le16 (cpu_be : bool) (f : list byte) : Z :=
  le16_to_cpu cpu_be (cpu_load cpu_be f).

(** The logical fields of a TCD: the arguments of [fsl_edma_fill_tcd]. *)
Record tcd_fields : Type := mk_fields {
  f_src : Z;
  f_dst : Z;
  f_attr : Z;
  f_soff : Z;
  f_nbytes : Z;
  f_slast : Z;
  f_citer : Z;
  f_biter : Z;
  f_doff : Z;
  f_dlast_sga : Z;
  f_major_int : bool;
  f_disable_req : bool;
  f_enable_sg : bool
}.

Definition tcd_encode (cpu_be : bool) (f : tcd_fields) : fsl_edma_tcd :=
  fsl_edma_fill_tcd cpu_be (f_src f) (f_dst f) (f_attr f) (f_soff f)
    (f_nbytes f) (f_slast f) (f_citer f) (f_biter f) (f_doff f)
    (f_dlast_sga f) (f_major_int f) (f_disable_req f) (f_enable_sg f).

Definition csr_flag (cpu_be : bool) (t : fsl_edma_tcd) (mask : Z) : bool :=
  negb (Z.land (rd_le16 cpu_be (csr t)) mask =? 0).

(** Decoding reads every field with the [le*_to_cpu] accessor and tests the
    three CSR bits that [fsl_edma_fill_tcd] sets. *)
Definition tcd_decode (cpu_be : bool) (t : fsl_edma_tcd) : tcd_fields :=
  {| f_src := rd_le32 cpu_be (saddr t);
     f_dst := rd_le32 cpu_be (daddr t);
     f_attr := rd_le16 cpu_be (attr t);
     f_soff := rd_le16 cpu_be (soff t);
     f_nbytes := rd_le32 cpu_be (nbytes t);
     f_slast := rd_le32 cpu_be (slast t);
     f_citer := rd_le16 cpu_be (citer t);
     f_biter := rd_le16 cpu_be (biter t);
     f_doff := rd_le16 cpu_be (doff t);
     f_dlast_sga := rd_le32 cpu_be (dlast_sga t);
     f_major_int := csr_flag cpu_be t EDMA_TCD_CSR_INT_MAJOR;
     f_disable_req := csr_flag cpu_be t EDMA_TCD_CSR_D_REQ;
     f_enable_sg := csr_flag cpu_be t EDMA_TCD_CSR_E_SG |}.

(** Field values within the range of their C types, [u32] or [u16]. *)
Definition tcd_fields_ok (f : tcd_fields) : Prop :=
  0 <= f_src f < 2 ^ 32 /\ 0 <= f_dst f < 2 ^ 32 /\
  0 <= f_attr f < 2 ^ 16 /\ 0 <= f_soff f < 2 ^ 16 /\
  0 <= f_nbytes f < 2 ^ 32 /\ 0 <= f_slast f < 2 ^ 32 /\
  0 <= f_citer f < 2 ^ 16 /\ 0 <= f_biter f < 2 ^ 16 /\
  0 <= f_doff f < 2 ^ 16 /\ 0 <= f_dlast_sga f < 2 ^ 32.

(** ** Memory-mapped I/O

    The I/O accessors ([iowrite8], [ioread32], ...) belong to the kernel's
    register access layer.  A write is recorded in a trace; what a read
    returns is decided by the hardware, given here as an oracle from
    addresses to values. *)

(** Modelled from the spec: the write accessors [iowrite8], [iowrite16],
    [iowrite16be], [iowrite32] and [iowrite32be] of the register access
    layer, each with the value written and the address. *)
Inductive io_event : Type :=
| Iowrite8 (val addr : Z)
| Iowrite16 (val addr : Z)
| Iowrite16be (val addr : Z)
| Iowrite32 (val addr : Z)
| Iowrite32be (val addr : Z).

(** Modelled from the spec: the read accessors [ioread32] and
    [ioread32be] of the register access layer. *)
Record mmio : Type := mk_mmio {
  ioread32 : Z -> Z;
  ioread32be : Z -> Z
}.

(** Offsets of the fields of [struct fsl_edma_hw_tcd]. *)
Definition hw_tcd_saddr : Z := 0x00.
Definition hw_tcd_soff : Z := 0x04.
Definition hw_tcd_attr : Z := 0x06.
Definition hw_tcd_nbytes : Z := 0x08.
Definition hw_tcd_slast : Z := 0x0C.
Definition hw_tcd_daddr : Z := 0x10.
Definition hw_tcd_doff : Z := 0x14.
Definition hw_tcd_citer : Z := 0x16.
Definition hw_tcd_dlast_sga : Z := 0x18.
Definition hw_tcd_csr : Z := 0x1C.
Definition hw_tcd_biter : Z := 0x1E.

(** ** Descriptors, channels, engine *)

(** [struct fsl_edma_sw_tcd]: a block of the TCD pool, its bus address and
    its contents. *)
Record fsl_edma_sw_tcd : Type := mk_sw_tcd {
  ptcd : Z;
  vtcd : fsl_edma_tcd
}.

(** [struct fsl_edma_desc]; [cookie] is [vdesc.tx.cookie].  A descriptor is
    never written after it has been prepared, so the channel's [edesc]
    pointer and the queue entry it points to are the same value. *)
Record fsl_edma_desc : Type := mk_desc {
  cookie : Z;
  iscyclic : bool;
  cyclic_len : Z;
  n_tcds : Z;
  tcd : list fsl_edma_sw_tcd
}.

(** [struct fsl_edma_slave_config]; the record is named [fsl_edma_slave_cfg]
    because the driver has a function of the same name as the struct. *)
Record fsl_edma_slave_cfg : Type := mk_fsc {
  dir : dma_transfer_direction;
  addr_width : Z;
  dev_addr : Z;
  burst : Z;
  fsc_attr : Z
}.

(** Modelled from the spec: [struct virt_dma_chan] of drivers/dma/virt-dma.h,
    the per-channel FIFO of pending requests ([desc_submitted], then
    [desc_issued], then [desc_completed]) and the completion token;
    [chan_id], [last_cookie] and [completed_cookie] are the members of its
    [struct dma_chan]. *)
Record virt_dma_chan : Type := mk_vchan {
  chan_id : Z;
  last_cookie : Z;
  completed_cookie : Z;
  desc_submitted : list fsl_edma_desc;
  desc_issued : list fsl_edma_desc;
  desc_completed : list fsl_edma_desc
}.

Record fsl_edma_chan : Type := mk_chan {
  vchan : virt_dma_chan;
  status : dma_status;
  pm_state : fsl_edma_pm_state;
  idle : bool;
  slave_id : Z;
  edesc : option fsl_edma_desc;
  fsc : fsl_edma_slave_cfg;
  tcd_pool : list fsl_edma_sw_tcd
}.

(** The three [struct fsl_edma_soc_data] objects; [socdata] points to one
    of them. *)
Inductive fsl_edma_soc_data : Type :=
| fsl_edma_s32gen1_data
| fsl_edma_s32v234_data
| fsl_edma_vf610_data.

(** [struct fsl_edma_engine]; [mmio_trace] is the sequence of register
    writes issued so far. *)
Record fsl_edma_engine : Type := mk_engine {
  membase : Z;
  muxbase : list Z;
  n_chans : Z;
  big_endian : bool;
  socdata : fsl_edma_soc_data;
  chans : list fsl_edma_chan;
  mmio_trace : list io_event
}.

(** Modelled from the spec: an entry of a [struct scatterlist], a segment
    with its bus address and its length. *)
Record scatterlist : Type := mk_sg {
  sg_dma_address : Z;
  sg_dma_len : Z
}.

(** Modelled from the spec: the members of [struct dma_slave_config] of
    dmaengine.h that the driver reads. *)
Record dma_slave_config : Type := mk_cfg {
  direction : dma_transfer_direction;
  src_addr : Z;
  dst_addr : Z;
  src_addr_width : Z;
  dst_addr_width : Z;
  src_maxburst : Z;
  dst_maxburst : Z
}.

(** Field updates. *)
Definition set_vchan (c : fsl_edma_chan) (v : virt_dma_chan) : fsl_edma_chan :=
  mk_chan v (status c) (pm_state c) (idle c) (slave_id c) (edesc c) (fsc c)
    (tcd_pool c).

Definition set_status (c : fsl_edma_chan) (s : dma_status) : fsl_edma_chan :=
  mk_chan (vchan c) s (pm_state c) (idle c) (slave_id c) (edesc c) (fsc c)
    (tcd_pool c).

Definition set_pm_state (c : fsl_edma_chan) (p : fsl_edma_pm_state)
  : fsl_edma_chan :=
  mk_chan (vchan c) (status c) p (idle c) (slave_id c) (edesc c) (fsc c)
    (tcd_pool c).

Definition set_idle (c : fsl_edma_chan) (b : bool) : fsl_edma_chan :=
  mk_chan (vchan c) (status c) (pm_state c) b (slave_id c) (edesc c) (fsc c)
    (tcd_pool c).

Definition set_slave_id (c : fsl_edma_chan) (s : Z) : fsl_edma_chan :=
  mk_chan (vchan c) (status c) (pm_state c) (idle c) s (edesc c) (fsc c)
    (tcd_pool c).

Definition set_edesc (c : fsl_edma_chan) (d : option fsl_edma_desc)
  : fsl_edma_chan :=
  mk_chan (vchan c) (status c) (pm_state c) (idle c) (slave_id c) d (fsc c)
    (tcd_pool c).

Definition set_fsc (c : fsl_edma_chan) (f : fsl_edma_slave_cfg)
  : fsl_edma_chan :=
  mk_chan (vchan c) (status c) (pm_state c) (idle c) (slave_id c) (edesc c) f
    (tcd_pool c).

Definition set_tcd_pool (c : fsl_edma_chan) (p : list fsl_edma_sw_tcd)
  : fsl_edma_chan :=
  mk_chan (vchan c) (status c) (pm_state c) (idle c) (slave_id c) (edesc c)
    (fsc c) p.

Definition set_chan (e : fsl_edma_engine) (ch : nat) (c : fsl_edma_chan)
  : fsl_edma_engine :=
  mk_engine (membase e) (muxbase e) (n_chans e) (big_endian e) (socdata e)
    (<[ch := c]> (chans e)) (mmio_trace e).

Definition emit (e : fsl_edma_engine) (evs : list io_event) : fsl_edma_engine :=
  mk_engine (membase e) (muxbase e) (n_chans e) (big_endian e) (socdata e)
    (chans e) (mmio_trace e ++ evs).

(** ** Register access: big- or little-endian controller *)

Definition edma_readl (hw : mmio) (e : fsl_edma_engine) (addr : Z) : Z :=
  if big_endian e then u32 (ioread32be hw addr) else u32 (ioread32 hw addr).

Definition edma_writeb (e : fsl_edma_engine) (val addr : Z) : list io_event :=
  if big_endian e then [Iowrite8 (u8 val) (Z.lxor addr 0x3)]
  else [Iowrite8 (u8 val) addr].

Definition edma_writew (e : fsl_edma_engine) (val addr : Z) : list io_event :=
  if big_endian e then [Iowrite16be (u16 val) (Z.lxor addr 0x2)]
  else [Iowrite16 (u16 val) addr].

Definition edma_writel (e : fsl_edma_engine) (val addr : Z) : list io_event :=
  if big_endian e then [Iowrite32be (u32 val) addr]
  else [Iowrite32 (u32 val) addr].

(** ** Request enable and disable, per generation *)

Definition fsl_edma_enable_request (e : fsl_edma_engine) (c : fsl_edma_chan)
  : list io_event :=
  let addr := membase e in
  let ch := chan_id (vchan c) in
  edma_writeb e (EDMA_SEEI_SEEI ch) (addr + EDMA_SEEI) ++
  edma_writeb e ch (addr + EDMA_SERQ).

Definition fsl_edma_disable_request (e : fsl_edma_engine) (c : fsl_edma_chan)
  : list io_event :=
  let addr := membase e in
  let ch := chan_id (vchan c) in
  edma_writeb e ch (addr + EDMA_CERQ) ++
  edma_writeb e (EDMA_CEEI_CEEI ch) (addr + EDMA_CEEI).

Definition fsl_edma3_enable_request (e : fsl_edma_engine) (c : fsl_edma_chan)
  : list io_event :=
  let addr := membase e in
  let ch := chan_id (vchan c) in
  edma_writel e (Z.lor EDMA3_CHn_CSR_ERQ EDMA3_CHn_CSR_EEI)
    (addr + EDMA3_CHn_CSR ch).

Definition fsl_edma3_disable_request (e : fsl_edma_engine) (c : fsl_edma_chan)
  : list io_event :=
  let addr := membase e in
  let ch := chan_id (vchan c) in
  edma_writel e 0 (addr + EDMA3_CHn_CSR ch).

Definition fsl_edma_enable_arbitration (e : fsl_edma_engine) : list io_event :=
  edma_writel e (Z.lor EDMA_CR_ERGA EDMA_CR_ERCA) (membase e + EDMA_CR).

Definition fsl_edma3_enable_arbitration (e : fsl_edma_engine) : list io_event :=
  edma_writel e EDMA3_MP_CSR_ERCA (membase e + EDMA3_MP_CSR).

Definition fsl_edma_get_tcd_addr (e : fsl_edma_engine) (c : fsl_edma_chan) : Z :=
  EDMA_TCD (chan_id (vchan c)) + membase e.

Definition fsl_edma3_get_tcd_addr (e : fsl_edma_engine) (c : fsl_edma_chan) : Z :=
  EDMA3_TCD (chan_id (vchan c)) + membase e.

(** [struct fsl_edma_ops]: the table of generation-specific operations. *)
Record fsl_edma_ops : Type := mk_ops {
  edma_enable_request : fsl_edma_engine -> fsl_edma_chan -> list io_event;
  edma_disable_request : fsl_edma_engine -> fsl_edma_chan -> list io_event;
  edma_enable_arbitration : fsl_edma_engine -> list io_event;
  edma_get_tcd_addr : fsl_edma_engine -> fsl_edma_chan -> Z
}.

Definition fsl_edma_ops_v2 : fsl_edma_ops :=
  {| edma_enable_request := fsl_edma_enable_request;
     edma_disable_request := fsl_edma_disable_request;
     edma_enable_arbitration := fsl_edma_enable_arbitration;
     edma_get_tcd_addr := fsl_edma_get_tcd_addr |}.

Definition fsl_edma3_ops : fsl_edma_ops :=
  {| edma_enable_request := fsl_edma3_enable_request;
     edma_disable_request := fsl_edma3_disable_request;
     edma_enable_arbitration := fsl_edma3_enable_arbitration;
     edma_get_tcd_addr := fsl_edma3_get_tcd_addr |}.

Definition s32v234_mux_channel_mapping (channel_id : Z) : Z :=
  u32 (u32 (4 * (channel_id / 4)) + u32 (u32 (4 - channel_id mod 4) - 1)).

Definition vf610_mux_channel_mapping (channel_id : Z) : Z :=
  channel_id.

(** The [.ops] and [.mux_channel_mapping] members of the three
    [fsl_edma_soc_data] objects. *)
Definition ops (s : fsl_edma_soc_data) : fsl_edma_ops :=
  match s with
  | fsl_edma_s32gen1_data => fsl_edma3_ops
  | fsl_edma_s32v234_data => fsl_edma_ops_v2
  | fsl_edma_vf610_data => fsl_edma_ops_v2
  end.

Definition mux_channel_mapping (s : fsl_edma_soc_data) : Z -> Z :=
  match s with
  | fsl_edma_s32gen1_data => s32v234_mux_channel_mapping
  | fsl_edma_s32v234_data => s32v234_mux_channel_mapping
  | fsl_edma_vf610_data => vf610_mux_channel_mapping
  end.

(** ** Mux routing *)

Definition fsl_edma_chan_mux (e : fsl_edma_engine) (c : fsl_edma_chan)
    (slot : Z) (enable : bool) : result (list io_event) :=
  let ch := chan_id (vchan c) in
  let chans_per_mux := n_chans e / DMAMUX_NR in
  r ← umod ch chans_per_mux;
  let ch_off := mux_channel_mapping (socdata e) r in
  bank ← udiv ch chans_per_mux;
  muxaddr ← deref (muxbase e !! Z.to_nat bank);
  let slot := EDMAMUX_CHCFG_SOURCE slot in
  if enable then
    mret [Iowrite8 (u8 (Z.lor EDMAMUX_CHCFG_ENBL slot)) (muxaddr + ch_off)]
  else
    mret [Iowrite8 (u8 EDMAMUX_CHCFG_DIS) (muxaddr + ch_off)].

Definition fsl_edma_get_tcd_attr (addr_width : Z) : Z :=
  if addr_width =? 1 then
    Z.lor EDMA_TCD_ATTR_SSIZE_8BIT EDMA_TCD_ATTR_DSIZE_8BIT
  else if addr_width =? 2 then
    Z.lor EDMA_TCD_ATTR_SSIZE_16BIT EDMA_TCD_ATTR_DSIZE_16BIT
  else if addr_width =? 4 then
    Z.lor EDMA_TCD_ATTR_SSIZE_32BIT EDMA_TCD_ATTR_DSIZE_32BIT
  else if addr_width =? 8 then
    Z.lor EDMA_TCD_ATTR_SSIZE_64BIT EDMA_TCD_ATTR_DSIZE_64BIT
  else
    Z.lor EDMA_TCD_ATTR_SSIZE_32BIT EDMA_TCD_ATTR_DSIZE_32BIT.

(** ** The TCD pool

    The kernel's DMA pool hands out fixed-size blocks, each with its bus
    address, and fails when it has none left. *)

(** Modelled from the spec: [dma_pool_alloc], a block of the pool or
    NULL. *)
Definition dma_pool_alloc (pool : list fsl_edma_sw_tcd)
  : option (fsl_edma_sw_tcd * list fsl_edma_sw_tcd) :=
  match pool with
  | [] => None
  | b :: rest => Some (b, rest)
  end.

(** Modelled from the spec: [dma_pool_free], the block goes back to the
    pool. *)
Definition dma_pool_free (pool : list fsl_edma_sw_tcd) (b : fsl_edma_sw_tcd)
  : list fsl_edma_sw_tcd :=
  b :: pool.

(** [for (i = 0; i < fsl_desc->n_tcds; i++) dma_pool_free(...)] *)
Fixpoint free_tcds (d : fsl_edma_desc) (n i : nat) (pool : list fsl_edma_sw_tcd)
  : result (list fsl_edma_sw_tcd) :=
  match n with
  | O => mret pool
  | S n' =>
      b ← deref (tcd d !! i);
      free_tcds d n' (S i) (dma_pool_free pool b)
  end.

Definition fsl_edma_free_desc (pool : list fsl_edma_sw_tcd) (d : fsl_edma_desc)
  : result (list fsl_edma_sw_tcd) :=
  free_tcds d (Z.to_nat (n_tcds d)) 0 pool.

(** ** The virtual-channel helper

    The functions of drivers/dma/virt-dma.[ch] and the cookie helpers of
    drivers/dma/dmaengine.h are outside the driver.  They keep a FIFO of
    pending requests per channel (enqueue on submit, peek on promotion, take
    all on termination) and a monotonically increasing completion token. *)

Definition set_desc_issued (v : virt_dma_chan) (l : list fsl_edma_desc)
  : virt_dma_chan :=
  mk_vchan (chan_id v) (last_cookie v) (completed_cookie v)
    (desc_submitted v) l (desc_completed v).

Definition set_cookie (d : fsl_edma_desc) (k : Z) : fsl_edma_desc :=
  mk_desc k (iscyclic d) (cyclic_len d) (n_tcds d) (tcd d).

(** Modelled from the spec: [vchan_init], empty queues, the cookies at their
    first value; the channel number is still the zero of the zeroed engine. *)
Definition vchan_init : virt_dma_chan :=
  mk_vchan 0 1 1 [] [] [].

(** The assignment to [chan_id]. *)
Definition set_chan_id (v : virt_dma_chan) (id : Z) : virt_dma_chan :=
  mk_vchan id (last_cookie v) (completed_cookie v) (desc_submitted v)
    (desc_issued v) (desc_completed v).

(** Modelled from the spec: [vchan_tx_submit], the submission gets the next
    token and joins the submitted queue. *)
Definition vchan_tx_submit (v : virt_dma_chan) (d : fsl_edma_desc)
  : virt_dma_chan * Z :=
  let k := last_cookie v + 1 in
  (mk_vchan (chan_id v) k (completed_cookie v)
     (desc_submitted v ++ [set_cookie d k]) (desc_issued v)
     (desc_completed v), k).

(** Modelled from the spec: [vchan_issue_pending], everything submitted
    becomes issued; tells whether anything is issued. *)
Definition vchan_issue_pending (v : virt_dma_chan) : virt_dma_chan * bool :=
  let issued := desc_issued v ++ desc_submitted v in
  (mk_vchan (chan_id v) (last_cookie v) (completed_cookie v) [] issued
     (desc_completed v),
   match issued with [] => false | _ :: _ => true end).

(** Modelled from the spec: [vchan_next_desc], the first issued request, left
    in the queue. *)
Definition vchan_next_desc (v : virt_dma_chan) : option fsl_edma_desc :=
  head (desc_issued v).

(** Modelled from the spec: [vchan_find_desc], the issued request with the
    given token. *)
Definition vchan_find_desc (v : virt_dma_chan) (k : Z) : option fsl_edma_desc :=
  find (fun d => cookie d =? k) (desc_issued v).

Fixpoint remove_first (k : Z) (l : list fsl_edma_desc) : list fsl_edma_desc :=
  match l with
  | [] => []
  | d :: l' => if cookie d =? k then l' else d :: remove_first k l'
  end.

(** Modelled from the spec: [list_del(&edesc->vdesc.node)], unlink the request
    from the issued queue. *)
Definition list_del (v : virt_dma_chan) (d : fsl_edma_desc) : virt_dma_chan :=
  set_desc_issued v (remove_first (cookie d) (desc_issued v)).

(** Modelled from the spec: [vchan_cookie_complete], record the token as
    completed and queue the request for the completion tasklet. *)
Definition vchan_cookie_complete (v : virt_dma_chan) (d : fsl_edma_desc)
  : virt_dma_chan :=
  mk_vchan (chan_id v) (last_cookie v) (cookie d) (desc_submitted v)
    (desc_issued v) (desc_completed v ++ [d]).

(** Modelled from the spec: [vchan_cyclic_callback] only schedules the
    client's callback. *)
Definition vchan_cyclic_callback (v : virt_dma_chan) (d : fsl_edma_desc)
  : virt_dma_chan :=
  v.

(** Modelled from the spec: [vchan_get_all_descriptors], take every queued
    request. *)
Definition vchan_get_all_descriptors (v : virt_dma_chan)
  : virt_dma_chan * list fsl_edma_desc :=
  (mk_vchan (chan_id v) (last_cookie v) (completed_cookie v) [] [] [],
   desc_submitted v ++ desc_issued v ++ desc_completed v).

(** Modelled from the spec: [vchan_dma_desc_free_list], call [desc_free],
    which is [fsl_edma_free_desc], on each request of the list. *)
Fixpoint vchan_dma_desc_free_list (pool : list fsl_edma_sw_tcd)
    (head : list fsl_edma_desc) : result (list fsl_edma_sw_tcd) :=
  match head with
  | [] => mret pool
  | d :: rest =>
      pool' ← fsl_edma_free_desc pool d;
      vchan_dma_desc_free_list pool' rest
  end.

(** Modelled from the spec: [dma_cookie_status], a token is complete once the
    completed token has reached it. *)
Definition dma_cookie_status (v : virt_dma_chan) (k : Z) : dma_status :=
  if k <=? completed_cookie v then DMA_COMPLETE else DMA_IN_PROGRESS.

(** Modelled from the spec: [vchan_complete], the completion tasklet of
    the virtual channel, frees what has completed. *)
Definition vchan_complete (c : fsl_edma_chan) : result fsl_edma_chan :=
  let v := vchan c in
  pool ← vchan_dma_desc_free_list (tcd_pool c) (desc_completed v);
  mret (set_tcd_pool
          (set_vchan c (mk_vchan (chan_id v) (last_cookie v)
                          (completed_cookie v) (desc_submitted v)
                          (desc_issued v) []))
          pool).

(** ** Channel control *)

(** [fsl_edma_terminate_all]: the request is disabled, the active
    descriptor dropped, the channel marked idle and every queued descriptor
    freed; [status] is not assigned. *)
Definition fsl_edma_terminate_all (e : fsl_edma_engine) (c : fsl_edma_chan)
  : result (fsl_edma_chan * list io_event) :=
  let evs := edma_disable_request (ops (socdata e)) e c in
  let c1 := set_idle (set_edesc c None) true in
  let '(v, head) := vchan_get_all_descriptors (vchan c1) in
  let c2 := set_vchan c1 v in
  pool ← vchan_dma_desc_free_list (tcd_pool c2) head;
  mret (set_tcd_pool c2 pool, evs).

Definition fsl_edma_pause (e : fsl_edma_engine) (c : fsl_edma_chan)
  : fsl_edma_chan * list io_event :=
  match edesc c with
  | Some _ =>
      (set_idle (set_status c DMA_PAUSED) true,
       edma_disable_request (ops (socdata e)) e c)
  | None => (c, [])
  end.

Definition fsl_edma_resume (e : fsl_edma_engine) (c : fsl_edma_chan)
  : fsl_edma_chan * list io_event :=
  match edesc c with
  | Some _ =>
      (set_idle (set_status c DMA_IN_PROGRESS) false,
       edma_enable_request (ops (socdata e)) e c)
  | None => (c, [])
  end.

(** [fsl_edma_slave_config]: the new channel and the return value. *)
Definition fsl_edma_slave_config (c : fsl_edma_chan) (cfg : dma_slave_config)
  : fsl_edma_chan * Z :=
  let f := fsc c in
  let f0 := mk_fsc (direction cfg) (addr_width f) (dev_addr f) (burst f)
              (fsc_attr f) in
  if dir_eqb (direction cfg) DMA_DEV_TO_MEM then
    (set_fsc c (mk_fsc (direction cfg) (src_addr_width cfg)
                  (u32 (src_addr cfg)) (u32 (src_maxburst cfg))
                  (fsl_edma_get_tcd_attr (src_addr_width cfg))), 0)
  else if dir_eqb (direction cfg) DMA_MEM_TO_DEV then
    (set_fsc c (mk_fsc (direction cfg) (dst_addr_width cfg)
                  (u32 (dst_addr cfg)) (u32 (dst_maxburst cfg))
                  (fsl_edma_get_tcd_attr (dst_addr_width cfg))), 0)
  else
    (set_fsc c f0, - EINVAL).

(** ** Residue *)

Section Residue.

Context (cpu_be : bool) (hw : mmio).

(** [for (len = i = 0; i < fsl_chan->edesc->n_tcds; i++) len += nbytes * biter]:
    the product is an [unsigned int], the sum a [size_t]. *)
Fixpoint residue_total (d : fsl_edma_desc) (n i : nat) (len : Z) : result Z :=
  match n with
  | O => mret len
  | S n' =>
      t ← deref (tcd d !! i);
      residue_total d n' (S i)
        (size_t (len + u32 (rd_le32 cpu_be (nbytes (vtcd t)) *
                            rd_le16 cpu_be (biter (vtcd t)))))
  end.

(** The second loop, which stops at the entry holding the live address. *)
Fixpoint residue_scan (d : fsl_edma_desc) (dir_ : dma_transfer_direction)
    (cur_addr : Z) (n i : nat) (len : Z) : result Z :=
  match n with
  | O => mret len
  | S n' =>
      t ← deref (tcd d !! i);
      let size := u32 (rd_le32 cpu_be (nbytes (vtcd t)) *
                       rd_le16 cpu_be (biter (vtcd t))) in
      let dma_addr :=
        if dir_eqb dir_ DMA_MEM_TO_DEV then rd_le32 cpu_be (saddr (vtcd t))
        else rd_le32 cpu_be (daddr (vtcd t)) in
      let len := size_t (len - size) in
      if (dma_addr <=? cur_addr) && (cur_addr <? dma_addr_t (dma_addr + size))
      then mret (size_t (len + dma_addr_t (dma_addr_t (dma_addr + size) - cur_addr)))
      else residue_scan d dir_ cur_addr n' (S i) len
  end.

(** [fsl_edma_desc_residue]: the descriptor walked is [fsl_chan->edesc];
    the [vdesc] argument is not used. *)
Definition fsl_edma_desc_residue (e : fsl_edma_engine) (c : fsl_edma_chan)
    (vdesc : option fsl_edma_desc) (in_progress : bool) : result Z :=
  let hw_tcd := edma_get_tcd_addr (ops (socdata e)) e c in
  let dir_ := dir (fsc c) in
  d ← deref (edesc c);
  len ← (if iscyclic d then mret (cyclic_len d)
         else residue_total d (Z.to_nat (n_tcds d)) 0 0);
  if negb in_progress then mret len
  else
    let cur_addr :=
      if dir_eqb dir_ DMA_MEM_TO_DEV then edma_readl hw e (hw_tcd + hw_tcd_saddr)
      else edma_readl hw e (hw_tcd + hw_tcd_daddr) in
    if iscyclic d then
      t0 ← deref (tcd d !! 0%nat);
      mret (size_t (len - dma_addr_t (cur_addr - cpu_load cpu_be (saddr (vtcd t0)))))
    else residue_scan d dir_ cur_addr (Z.to_nat (n_tcds d)) 0 len.

(** [fsl_edma_tx_status]: the status and, when [txstate] is given, the
    residue stored in it; [txstate->residue] is a [u32], so the [size_t]
    that [fsl_edma_desc_residue] returns is cut to 32 bits. *)
Definition fsl_edma_tx_status (e : fsl_edma_engine) (c : fsl_edma_chan)
    (cookie_ : Z) (txstate : bool) : result (dma_status * option Z) :=
  match dma_cookie_status (vchan c) cookie_ with
  | DMA_COMPLETE => mret (DMA_COMPLETE, if txstate then Some 0 else None)
  | _ =>
      if negb txstate then mret (status c, None)
      else
        let vdesc := vchan_find_desc (vchan c) cookie_ in
        residue ←
          (if match edesc c with
              | Some d => cookie_ =? cookie d
              | None => false
              end
           then fsl_edma_desc_residue e c vdesc true
           else match vdesc with
                | Some _ => fsl_edma_desc_residue e c vdesc false
                | None => mret 0
                end);
        mret (status c, Some (u32 residue))
  end.

End Residue.

(** ** Loading a TCD into the channel's registers *)

Definition fsl_edma_set_tcd_regs (cpu_be : bool) (e : fsl_edma_engine)
    (c : fsl_edma_chan) (t : fsl_edma_tcd) : list io_event :=
  let hw_tcd := edma_get_tcd_addr (ops (socdata e)) e c in
  edma_writew e 0 (hw_tcd + hw_tcd_csr) ++
  edma_writel e (rd_le32 cpu_be (saddr t)) (hw_tcd + hw_tcd_saddr) ++
  edma_writel e (rd_le32 cpu_be (daddr t)) (hw_tcd + hw_tcd_daddr) ++
  edma_writew e (rd_le16 cpu_be (attr t)) (hw_tcd + hw_tcd_attr) ++
  edma_writew e (rd_le16 cpu_be (soff t)) (hw_tcd + hw_tcd_soff) ++
  edma_writel e (rd_le32 cpu_be (nbytes t)) (hw_tcd + hw_tcd_nbytes) ++
  edma_writel e (rd_le32 cpu_be (slast t)) (hw_tcd + hw_tcd_slast) ++
  edma_writew e (rd_le16 cpu_be (citer t)) (hw_tcd + hw_tcd_citer) ++
  edma_writew e (rd_le16 cpu_be (biter t)) (hw_tcd + hw_tcd_biter) ++
  edma_writew e (rd_le16 cpu_be (doff t)) (hw_tcd + hw_tcd_doff) ++
  edma_writel e (rd_le32 cpu_be (dlast_sga t)) (hw_tcd + hw_tcd_dlast_sga) ++
  edma_writew e (rd_le16 cpu_be (csr t)) (hw_tcd + hw_tcd_csr).

(** ** Building descriptors *)

(** The allocation loop of [fsl_edma_alloc_desc]; on failure
    [while (--i >= 0)] gives the blocks taken so far back, last first. *)
Fixpoint alloc_tcds (n : nat) (pool got : list fsl_edma_sw_tcd)
  : option (list fsl_edma_sw_tcd) * list fsl_edma_sw_tcd :=
  match n with
  | O => (Some got, pool)
  | S n' =>
      match dma_pool_alloc pool with
      | None => (None, fold_left dma_pool_free (rev got) pool)
      | Some (b, pool') => alloc_tcds n' pool' (got ++ [b])
      end
  end.

(** [fsl_edma_alloc_desc]; [kzalloc_ok] tells whether [kzalloc] finds
    memory.  [sg_len] is an [int]: the loop does not run when it is
    negative, and [n_tcds] is its conversion to [unsigned int]. *)
Definition fsl_edma_alloc_desc (kzalloc_ok : bool) (c : fsl_edma_chan)
    (sg_len : Z) : option fsl_edma_desc * fsl_edma_chan :=
  if negb kzalloc_ok then (None, c)
  else
    match alloc_tcds (Z.to_nat sg_len) (tcd_pool c) [] with
    | (Some tcds, pool) =>
        (Some (mk_desc 0 false 0 (u32 sg_len) tcds), set_tcd_pool c pool)
    | (None, pool) => (None, set_tcd_pool c pool)
    end.

(** A counted loop [for (i = i0; i < i0 + n; i++) body] over a state that
    the body may trap on. *)
Fixpoint for_loop {St : Type} (body : nat -> St -> result St) (n i : nat)
    (s : St) : result St :=
  match n with
  | O => mret s
  | S n' =>
      s' ← body i s;
      for_loop body n' (S i) s'
  end.

Section Prep.

Context (cpu_be : bool).

(** The body of the loop of [fsl_edma_prep_dma_cyclic], on the pair of
    [dma_buf_next] and the TCD array; [i] and [sg_len] are [int]. *)
Definition cyclic_loop_body (c : fsl_edma_chan)
    (dma_addr buf_len period_len sg_len nbytes_ iter : Z) (i : nat)
    (st : Z * list fsl_edma_sw_tcd) : result (Z * list fsl_edma_sw_tcd) :=
  let '(dma_buf_next, tcds) := st in
  let dma_buf_next :=
    if dma_addr_t (dma_addr + buf_len) <=? dma_buf_next then dma_addr
    else dma_buf_next in
  m ← umod (int (Z.of_nat i + 1)) sg_len;
  nxt ← deref (tcds !! Z.to_nat m);
  let last_sg := u32 (ptcd nxt) in
  let '(src_addr_, dst_addr_, soff_, doff_) :=
    if dir_eqb (dir (fsc c)) DMA_MEM_TO_DEV then
      (u32 dma_buf_next, dev_addr (fsc c), u16 (addr_width (fsc c)), 0)
    else
      (dev_addr (fsc c), u32 dma_buf_next, 0, u16 (addr_width (fsc c))) in
  cur ← deref (tcds !! i);
  let t := fsl_edma_fill_tcd cpu_be src_addr_ dst_addr_
             (u16 (fsc_attr (fsc c))) soff_ nbytes_ 0 iter iter doff_
             last_sg true false true in
  mret (dma_addr_t (dma_buf_next + period_len),
        <[i := mk_sw_tcd (ptcd cur) t]> tcds).

(** [fsl_edma_prep_dma_cyclic]: the descriptor handed to [vchan_tx_prep],
    or [None] for a NULL return, and the channel with its pool. *)
Definition fsl_edma_prep_dma_cyclic (kzalloc_ok : bool) (c : fsl_edma_chan)
    (dma_addr buf_len period_len : Z)
  : result (option fsl_edma_desc * fsl_edma_chan) :=
  if negb (is_slave_direction (dir (fsc c))) then mret (None, c)
  else
    q ← udiv buf_len period_len;
    let sg_len := int q in
    match fsl_edma_alloc_desc kzalloc_ok c sg_len with
    | (None, c1) => mret (None, c1)
    | (Some d, c1) =>
        let nbytes_ := u32 (addr_width (fsc c) * burst (fsc c)) in
        it ← udiv period_len nbytes_;
        let iter := u16 it in
        st ← for_loop
                (cyclic_loop_body c dma_addr buf_len period_len sg_len nbytes_
                   iter)
                (Z.to_nat sg_len) 0 (dma_addr, tcd d);
        mret (Some (mk_desc (cookie d) true (u32 buf_len) (n_tcds d) (snd st)),
              c1)
    end.

(** The body of the loop of [fsl_edma_prep_slave_sg]; [sg_len] is an
    [unsigned int], [for_each_sg] walks the first [sg_len] entries of the
    list. *)
Definition sg_loop_body (c : fsl_edma_chan) (sgl : list scatterlist)
    (sg_len nbytes_ : Z) (i : nat) (tcds : list fsl_edma_sw_tcd)
  : result (list fsl_edma_sw_tcd) :=
  sg ← deref (sgl !! i);
  m ← umod (u32 (Z.of_nat i + 1)) sg_len;
  nxt ← deref (tcds !! Z.to_nat m);
  let last_sg := u32 (ptcd nxt) in
  let '(src_addr_, dst_addr_, soff_, doff_) :=
    if dir_eqb (dir (fsc c)) DMA_MEM_TO_DEV then
      (u32 (sg_dma_address sg), dev_addr (fsc c), u16 (addr_width (fsc c)), 0)
    else
      (dev_addr (fsc c), u32 (sg_dma_address sg), 0, u16 (addr_width (fsc c))) in
  it ← udiv (sg_dma_len sg) nbytes_;
  let iter := u16 it in
  cur ← deref (tcds !! i);
  t ← (if u32 (Z.of_nat i) <? u32 (sg_len - 1) then
         nxt1 ← deref (tcds !! S i);
         let last_sg := u32 (ptcd nxt1) in
         mret (fsl_edma_fill_tcd cpu_be src_addr_ dst_addr_
                 (u16 (fsc_attr (fsc c))) soff_ nbytes_ 0 iter iter doff_
                 last_sg false false true)
       else
         let last_sg := 0 in
         mret (fsl_edma_fill_tcd cpu_be src_addr_ dst_addr_
                 (u16 (fsc_attr (fsc c))) soff_ nbytes_ 0 iter iter doff_
                 last_sg true true false));
  mret (<[i := mk_sw_tcd (ptcd cur) t]> tcds).

Definition fsl_edma_prep_slave_sg (kzalloc_ok : bool) (c : fsl_edma_chan)
    (sgl : list scatterlist) (sg_len : Z)
  : result (option fsl_edma_desc * fsl_edma_chan) :=
  if negb (is_slave_direction (dir (fsc c))) then mret (None, c)
  else
    match fsl_edma_alloc_desc kzalloc_ok c (int sg_len) with
    | (None, c1) => mret (None, c1)
    | (Some d, c1) =>
        let nbytes_ := u32 (addr_width (fsc c) * burst (fsc c)) in
        tcds ← for_loop (sg_loop_body c sgl sg_len nbytes_) (Z.to_nat sg_len)
                 0 (tcd d);
        mret (Some (mk_desc (cookie d) false (cyclic_len d) (n_tcds d) tcds),
              c1)
    end.

(** ** Starting a transfer *)

(** [fsl_edma_xfer_desc]: the first issued request becomes the active
    descriptor and its first TCD is loaded. *)
Definition fsl_edma_xfer_desc (e : fsl_edma_engine) (c : fsl_edma_chan)
  : result (fsl_edma_chan * list io_event) :=
  match vchan_next_desc (vchan c) with
  | None => mret (c, [])
  | Some vdesc =>
      let c1 := set_edesc c (Some vdesc) in
      t0 ← deref (tcd vdesc !! 0%nat);
      let evs := fsl_edma_set_tcd_regs cpu_be e c1 (vtcd t0) ++
                 edma_enable_request (ops (socdata e)) e c1 in
      mret (set_idle (set_status c1 DMA_IN_PROGRESS) false, evs)
  end.

(** [fsl_edma_issue_pending]: nothing is done unless [pm_state] is
    [RUNNING]; [vchan_issue_pending] is evaluated before [edesc] is
    tested. *)
Definition fsl_edma_issue_pending (e : fsl_edma_engine) (c : fsl_edma_chan)
  : result (fsl_edma_chan * list io_event) :=
  match pm_state c with
  | SUSPENDED => mret (c, [])
  | RUNNING =>
      let '(v, pending) := vchan_issue_pending (vchan c) in
      let c1 := set_vchan c v in
      if pending && match edesc c1 with None => true | Some _ => false end
      then fsl_edma_xfer_desc e c1
      else mret (c1, [])
  end.

(** ** Interrupt handlers *)

(** What both completion handlers do for a channel whose interrupt is
    asserted, from [spin_lock] to [spin_unlock]; [set_idle_] is true for
    the eDMA2 handler, which also marks the channel idle. *)
Definition tx_complete (set_idle_ : bool) (e : fsl_edma_engine)
    (c : fsl_edma_chan) : result (fsl_edma_chan * list io_event) :=
  d ← deref (edesc c);
  let c1 :=
    if negb (iscyclic d) then
      let v := vchan_cookie_complete (list_del (vchan c) d) d in
      let c' := set_status (set_edesc (set_vchan c v) None) DMA_COMPLETE in
      if set_idle_ then set_idle c' true else c'
    else set_vchan c (vchan_cyclic_callback (vchan c) d) in
  match edesc c1 with
  | None => fsl_edma_xfer_desc e c1
  | Some _ => mret (c1, [])
  end.

(** The body of the loop of [fsl_edma_tx_handler].  [0x1 << ch] is an
    [int] converted to the [unsigned int] of [intr].  [n_chans] is not
    checked against the 32 bits of the register, and C leaves a shift by 32
    or more undefined: the count is taken modulo 32 here, as the shift
    instructions of arm64 and of x86 take it (a 32-bit ARM core gives 0 for
    such a count), so that channel [ch + 32] is served on the bit of channel
    [ch].  On an engine of at most 32 channels the count is the channel
    number. *)
Definition tx_handler_body (intr : Z) (ch : nat) (e : fsl_edma_engine)
  : result fsl_edma_engine :=
  if Z.land intr (u32 (Z.shiftl 0x1 (Z.of_nat ch mod 32))) =? 0 then mret e
  else
    let e1 := emit e (edma_writeb e (EDMA_CINT_CINT (Z.of_nat ch))
                        (membase e + EDMA_CINT)) in
    c ← deref (chans e1 !! ch);
    '(c', evs) ← tx_complete true e1 c;
    mret (set_chan (emit e1 evs) ch c').

Definition fsl_edma_tx_handler (hw : mmio) (e : fsl_edma_engine)
  : result (irqreturn_t * fsl_edma_engine) :=
  let base_addr := membase e in
  let intr := edma_readl hw e (base_addr + EDMA_INTR) in
  if intr =? 0 then mret (IRQ_NONE, e)
  else
    e' ← for_loop (tx_handler_body intr) (Z.to_nat (n_chans e)) 0 e;
    mret (IRQ_HANDLED, e').

(** The body of the loop of [fsl_edma3_tx_handler]: whether the channel's
    interrupt was asserted, and the engine. *)
Definition tx3_handler_body (hw : mmio) (ch : nat) (e : fsl_edma_engine)
  : result (bool * fsl_edma_engine) :=
  let base_addr := membase e in
  let ch_int := edma_readl hw e (membase e + EDMA3_CHn_INT (Z.of_nat ch)) in
  if Z.land ch_int EDMA3_CHn_INT_INT =? 0 then mret (false, e)
  else
    let e1 := emit e (edma_writel e EDMA3_CHn_INT_INT
                        (base_addr + EDMA3_CHn_INT (Z.of_nat ch))) in
    c ← deref (chans e1 !! ch);
    '(c', evs) ← tx_complete false e1 c;
    mret (true, set_chan (emit e1 evs) ch c').

(** The loop of [fsl_edma3_tx_handler], which also carries [handled]. *)
Fixpoint tx3_loop (hw : mmio) (n ch : nat) (handled : bool)
    (e : fsl_edma_engine) : result (bool * fsl_edma_engine) :=
  match n with
  | O => mret (handled, e)
  | S n' =>
      '(h, e') ← tx3_handler_body hw ch e;
      tx3_loop hw n' (S ch) (h || handled) e'
  end.

Definition fsl_edma3_tx_handler (hw : mmio) (e : fsl_edma_engine)
  : result (irqreturn_t * fsl_edma_engine) :=
  '(handled, e') ← tx3_loop hw (Z.to_nat (n_chans e)) 0 false e;
  let r : irqreturn_t := if (handled : bool) then IRQ_HANDLED else IRQ_NONE in
  mret (r, e').

(** The body of the loop of [fsl_edma_err_handler]; [0x1 << ch] as in
    [tx_handler_body], the count taken modulo 32. *)
Definition err_handler_body (err : Z) (ch : nat) (e : fsl_edma_engine)
  : result fsl_edma_engine :=
  if Z.land err (u32 (Z.shiftl 0x1 (Z.of_nat ch mod 32))) =? 0 then mret e
  else
    c ← deref (chans e !! ch);
    let evs := fsl_edma_disable_request e c ++
               edma_writeb e (EDMA_CERR_CERR (Z.of_nat ch))
                 (membase e + EDMA_CERR) in
    mret (set_chan (emit e evs) ch (set_idle (set_status c DMA_ERROR) true)).

Definition fsl_edma_err_handler (hw : mmio) (e : fsl_edma_engine)
  : result (irqreturn_t * fsl_edma_engine) :=
  let err := edma_readl hw e (membase e + EDMA_ERR) in
  if err =? 0 then mret (IRQ_NONE, e)
  else
    e' ← for_loop (err_handler_body err) (Z.to_nat (n_chans e)) 0 e;
    mret (IRQ_HANDLED, e').

(** The body of the loop of [fsl_edma3_err_handler]. *)
Definition err3_handler_body (hw : mmio) (ch : nat) (e : fsl_edma_engine)
  : result fsl_edma_engine :=
  let ch_es := edma_readl hw e (membase e + EDMA3_CHn_ES (Z.of_nat ch)) in
  if Z.land ch_es EDMA3_CHn_ES_ERR =? 0 then mret e
  else
    c ← deref (chans e !! ch);
    let evs := fsl_edma3_disable_request e c ++
               edma_writel e EDMA3_CHn_ES_ERR
                 (membase e + EDMA3_CHn_ES (Z.of_nat ch)) in
    mret (set_chan (emit e evs) ch (set_status c DMA_ERROR)).

Definition fsl_edma3_err_handler (hw : mmio) (e : fsl_edma_engine)
  : result (irqreturn_t * fsl_edma_engine) :=
  let err := edma_readl hw e (membase e + EDMA3_MP_ES) in
  if EDMA3_MP_ES_VLD err =? 0 then mret (IRQ_NONE, e)
  else
    e' ← for_loop (err3_handler_body hw) (Z.to_nat (n_chans e)) 0 e;
    mret (IRQ_HANDLED, e').

Definition fsl_edma_irq_handler (hw : mmio) (e : fsl_edma_engine)
  : result (irqreturn_t * fsl_edma_engine) :=
  '(r, e') ← fsl_edma_tx_handler hw e;
  match r with
  | IRQ_HANDLED => mret (IRQ_HANDLED, e')
  | IRQ_NONE => fsl_edma_err_handler hw e'
  end.

Definition fsl_edma3_irq_handler (hw : mmio) (e : fsl_edma_engine)
  : result (irqreturn_t * fsl_edma_engine) :=
  '(r, e') ← fsl_edma3_tx_handler hw e;
  match r with
  | IRQ_HANDLED => mret (IRQ_HANDLED, e')
  | IRQ_NONE => fsl_edma3_err_handler hw e'
  end.

End Prep.

(** ** Channel resources, power management, probe *)

(** [fsl_edma_alloc_chan_resources]; [pool] is what [dma_pool_create]
    provides. *)
Definition fsl_edma_alloc_chan_resources (pool : list fsl_edma_sw_tcd)
    (c : fsl_edma_chan) : fsl_edma_chan :=
  set_tcd_pool c pool.

(** [fsl_edma_free_chan_resources]; [dma_pool_destroy] leaves no pool. *)
Definition fsl_edma_free_chan_resources (e : fsl_edma_engine)
    (c : fsl_edma_chan) : result (fsl_edma_chan * list io_event) :=
  let evs := edma_disable_request (ops (socdata e)) e c in
  mux ← fsl_edma_chan_mux e c 0 false;
  let c1 := set_edesc c None in
  let '(v, head) := vchan_get_all_descriptors (vchan c1) in
  let c2 := set_vchan c1 v in
  _ ← vchan_dma_desc_free_list (tcd_pool c2) head;
  mret (set_tcd_pool c2 [], evs ++ mux).

(** The body of the loop of [fsl_edma_suspend_late]. *)
Definition suspend_late_body (ch : nat) (e : fsl_edma_engine)
  : result fsl_edma_engine :=
  c ← deref (chans e !! ch);
  evs ← (if negb (idle c) then
           mux ← fsl_edma_chan_mux e c 0 false;
           mret (fsl_edma_disable_request e c ++ mux)
         else mret []);
  mret (set_chan (emit e evs) ch (set_pm_state c SUSPENDED)).

Definition fsl_edma_suspend_late (e : fsl_edma_engine) : result fsl_edma_engine :=
  for_loop suspend_late_body (Z.to_nat (n_chans e)) 0 e.

(** The body of the loop of [fsl_edma_resume_early]. *)
Definition resume_early_body (ch : nat) (e : fsl_edma_engine)
  : result fsl_edma_engine :=
  c ← deref (chans e !! ch);
  let c1 := set_pm_state c RUNNING in
  let hw_tcd := edma_get_tcd_addr (ops (socdata e)) e c1 in
  mux ← (if negb (slave_id c1 =? 0) then fsl_edma_chan_mux e c1 (slave_id c1) true
         else mret []);
  mret (set_chan (emit e (edma_writew e 0x0 (hw_tcd + hw_tcd_csr) ++ mux)) ch c1).

Definition fsl_edma_resume_early (e : fsl_edma_engine) : result fsl_edma_engine :=
  e' ← for_loop resume_early_body (Z.to_nat (n_chans e)) 0 e;
  mret (emit e' (fsl_edma_enable_arbitration e')).

(** A channel as the loop of [fsl_edma_probe] leaves it: the engine is
    zeroed by [devm_kzalloc], then the loop sets [pm_state], [slave_id] and
    [idle] and calls [vchan_init]. *)
Definition probe_chan0 : fsl_edma_chan :=
  mk_chan vchan_init DMA_COMPLETE RUNNING true 0 None
    (mk_fsc DMA_MEM_TO_MEM 0 0 0 0) [].

(** The same channel once the engine is registered and it has its
    number. *)
Definition probe_chan (id : Z) : fsl_edma_chan :=
  set_vchan probe_chan0 (set_chan_id vchan_init id).

(** The body of the channel loop of [fsl_edma_probe]. *)
Definition probe_body (ch : nat) (e : fsl_edma_engine) : result fsl_edma_engine :=
  let c := probe_chan0 in
  let hw_tcd := edma_get_tcd_addr (ops (socdata e)) e c in
  mux ← fsl_edma_chan_mux e c 0 false;
  mret (mk_engine (membase e) (muxbase e) (n_chans e) (big_endian e)
          (socdata e) (chans e ++ [c])
          (mmio_trace e ++ edma_writew e 0x0 (hw_tcd + hw_tcd_csr) ++ mux)).

(** The body of the loop that clears the eDMA3 channel interrupts. *)
Definition clear_int_body (ch : nat) (e : fsl_edma_engine) : result fsl_edma_engine :=
  mret (emit e (edma_writel e (-1) (membase e + EDMA3_CHn_INT (Z.of_nat ch)))).

(** Modelled from the spec: [dma_async_device_register] is outside the
    driver; channels are identified by their index, 0 to [n_chans - 1]. *)
Definition dma_async_device_register (e : fsl_edma_engine) : fsl_edma_engine :=
  mk_engine (membase e) (muxbase e) (n_chans e) (big_endian e) (socdata e)
    (imap (fun i c => set_vchan c (set_chan_id (vchan c) (Z.of_nat i)))
       (chans e))
    (mmio_trace e).

(** [fsl_edma_probe], from the channel loop on; the register windows, the
    channel count, the endianness and the SoC data come from the platform.
    In the loop every channel still has number 0, so the writes of the loop
    all go to the TCD and the mux slot of channel 0. *)
Definition fsl_edma_probe (membase_ : Z) (muxbase_ : list Z) (chans_ : Z)
    (big_endian_ : bool) (socdata_ : fsl_edma_soc_data) : result fsl_edma_engine :=
  let e0 := mk_engine membase_ muxbase_ (u32 chans_) big_endian_ socdata_ [] [] in
  e1 ← for_loop probe_body (Z.to_nat (n_chans e0)) 0 e0;
  e2 ← (match socdata_ with
        | fsl_edma_s32gen1_data =>
            for_loop clear_int_body (Z.to_nat (n_chans e1)) 0 e1
        | _ => mret (emit e1 (edma_writel e1 (-1) (membase e1 + EDMA_INTR)))
        end);
  let e3 := dma_async_device_register e2 in
  mret (emit e3 (edma_enable_arbitration (ops (socdata e3)) e3)).

(** ** The driver as a transition system

    A call made by a client of the DMA engine, by the interrupt
    controller or by the power management core.  [struct dma_chan *chan]
    is the index of the channel in [chans]. *)

Inductive edma_call : Type :=
| call_alloc_chan_resources (ch : nat) (pool : list fsl_edma_sw_tcd)
| call_free_chan_resources (ch : nat)
| call_slave_config (ch : nat) (cfg : dma_slave_config)
| call_submit_sg (ch : nat) (kzalloc_ok : bool) (sgl : list scatterlist)
    (sg_len : Z)
| call_submit_cyclic (ch : nat) (kzalloc_ok : bool)
    (dma_addr buf_len period_len : Z)
| call_issue_pending (ch : nat)
| call_pause (ch : nat)
| call_resume (ch : nat)
| call_terminate_all (ch : nat)
| call_vchan_complete (ch : nat)
| irq_tx (hw : mmio)
| irq_err (hw : mmio)
| irq_both (hw : mmio)
| irq_tx3 (hw : mmio)
| irq_err3 (hw : mmio)
| irq_both3 (hw : mmio)
| call_suspend_late
| call_resume_early.

(** Run a function of the channel on [chans[ch]] and store the result. *)
Definition on_chan (e : fsl_edma_engine) (ch : nat)
    (f : fsl_edma_chan -> result (fsl_edma_chan * list io_event))
  : result fsl_edma_engine :=
  c ← deref (chans e !! ch);
  '(c', evs) ← f c;
  mret (set_chan (emit e evs) ch c').

(** A prepared descriptor is submitted with [tx_submit], which is
    [vchan_tx_submit]. *)
Definition submit (r : result (option fsl_edma_desc * fsl_edma_chan))
  : result (fsl_edma_chan * list io_event) :=
  '(od, c) ← r;
  match od with
  | None => mret (c, [])
  | Some d => mret (set_vchan c (fst (vchan_tx_submit (vchan c) d)), [])
  end.

Definition step (cpu_be : bool) (e : fsl_edma_engine) (a : edma_call)
  : result fsl_edma_engine :=
  match a with
  | call_alloc_chan_resources ch pool =>
      on_chan e ch (fun c => mret (fsl_edma_alloc_chan_resources pool c, []))
  | call_free_chan_resources ch =>
      on_chan e ch (fsl_edma_free_chan_resources e)
  | call_slave_config ch cfg =>
      on_chan e ch (fun c => mret (fst (fsl_edma_slave_config c cfg), []))
  | call_submit_sg ch kz sgl sg_len =>
      on_chan e ch (fun c =>
        submit (fsl_edma_prep_slave_sg cpu_be kz c sgl sg_len))
  | call_submit_cyclic ch kz dma_addr buf_len period_len =>
      on_chan e ch (fun c =>
        submit (fsl_edma_prep_dma_cyclic cpu_be kz c dma_addr buf_len
                  period_len))
  | call_issue_pending ch => on_chan e ch (fsl_edma_issue_pending cpu_be e)
  | call_pause ch => on_chan e ch (fun c => mret (fsl_edma_pause e c))
  | call_resume ch => on_chan e ch (fun c => mret (fsl_edma_resume e c))
  | call_terminate_all ch => on_chan e ch (fsl_edma_terminate_all e)
  | call_vchan_complete ch =>
      on_chan e ch (fun c => c' ← vchan_complete c; mret (c', []))
  | irq_tx hw => p ← fsl_edma_tx_handler cpu_be hw e; mret (snd p)
  | irq_err hw => p ← fsl_edma_err_handler hw e; mret (snd p)
  | irq_both hw => p ← fsl_edma_irq_handler cpu_be hw e; mret (snd p)
  | irq_tx3 hw => p ← fsl_edma3_tx_handler cpu_be hw e; mret (snd p)
  | irq_err3 hw => p ← fsl_edma3_err_handler hw e; mret (snd p)
  | irq_both3 hw => p ← fsl_edma3_irq_handler cpu_be hw e; mret (snd p)
  | call_suspend_late => fsl_edma_suspend_late e
  | call_resume_early => fsl_edma_resume_early e
  end.

(** The engine after a sequence of calls. *)
Fixpoint run (cpu_be : bool) (e : fsl_edma_engine) (l : list edma_call)
  : result fsl_edma_engine :=
  match l with
  | [] => mret e
  | a :: l' =>
      e' ← step cpu_be e a;
      run cpu_be e' l'
  end.

(** The states the driver can be in: those reached from a probed engine. *)
Inductive reachable (cpu_be : bool) : fsl_edma_engine -> Prop :=
| reachable_probe membase_ muxbase_ chans_ big_endian_ socdata_ e :
    fsl_edma_probe membase_ muxbase_ chans_ big_endian_ socdata_ = Ok e ->
    reachable cpu_be e
| reachable_step e a e' :
    reachable cpu_be e ->
    step cpu_be e a = Ok e' ->
    reachable cpu_be e'.

(** ** Channel invariants *)

(** The relation between the active descriptor and the status that the
    data model asks for. *)
Definition active_iff_busy (c : fsl_edma_chan) : Prop :=
  edesc c <> None <-> (status c = DMA_IN_PROGRESS \/ status c = DMA_PAUSED).

(** The relation the driver keeps: the active descriptor is the first
    issued request, and while there is one the status is in progress,
    paused or error. *)
Definition chan_inv (c : fsl_edma_chan) : Prop :=
  forall d, edesc c = Some d ->
    head (desc_issued (vchan c)) = Some d /\
    (status c = DMA_IN_PROGRESS \/ status c = DMA_PAUSED \/
     status c = DMA_ERROR).

Definition engine_inv (e : fsl_edma_engine) : Prop :=
  Forall chan_inv (chans e).

(** Two channels that agree on what [chan_inv] looks at. *)
Definition same_core (c c' : fsl_edma_chan) : Prop :=
  edesc c' = edesc c /\
  desc_issued (vchan c') = desc_issued (vchan c) /\
  status c' = status c.

(** Every block of the pool has a bus address the 32-bit link field of a
    TCD can hold. *)
Definition pool_fits_u32 (pool : list fsl_edma_sw_tcd) : Prop :=
  Forall (fun b => 0 <= ptcd b < 2 ^ 32) pool.

(** ** Example data *)

Definition zero_tcd : fsl_edma_tcd :=
  mk_tcd [] [] [] [] [] [] [] [] [] [] [].

Definition ex_pool : list fsl_edma_sw_tcd :=
  [mk_sw_tcd 0x8000 zero_tcd; mk_sw_tcd 0x8020 zero_tcd;
   mk_sw_tcd 0x8040 zero_tcd; mk_sw_tcd 0x8060 zero_tcd].

(** Memory-to-device, 4-byte width, burst 4, device register 0x1000. *)
Definition ex_cfg : dma_slave_config :=
  mk_cfg DMA_MEM_TO_DEV 0 0x1000 0 4 0 4.

(** Device-to-memory, 4-byte width, burst 1, device register 0x40000000. *)
Definition ex_cfg_rx : dma_slave_config :=
  mk_cfg DMA_DEV_TO_MEM 0x40000000 0 4 0 1 0.

Definition ex_sgl1 : list scatterlist := [mk_sg 0x10000 64].

Definition ex_sgl2 : list scatterlist := [mk_sg 0x20000 64; mk_sg 0x30000 64].

(** Registers that read [v] at [membase + off] and 0 elsewhere, on an
    engine based at 0. *)
Definition ex_hw (off v : Z) : mmio :=
  mk_mmio (fun a => if a =? off then v else 0) (fun _ => 0).

(** A four-channel Vybrid engine after probe. *)
Definition ex_probe : result fsl_edma_engine :=
  fsl_edma_probe 0 [0x100000; 0x200000] 4 false fsl_edma_vf610_data.

(** Channel 0 configured; one request submitted and issued. *)
Definition ex_calls_active : list edma_call :=
  [call_alloc_chan_resources 0 ex_pool; call_slave_config 0 ex_cfg;
   call_submit_sg 0 true ex_sgl2 2; call_issue_pending 0].

(** The same, then [terminate_all]. *)
Definition ex_calls_terminated : list edma_call :=
  ex_calls_active ++ [call_terminate_all 0].

(** The same, then an error interrupt for channel 0. *)
Definition ex_calls_error : list edma_call :=
  ex_calls_active ++ [irq_err (ex_hw EDMA_ERR 1)].

(** A one-segment request active and a two-segment request issued behind
    it. *)
Definition ex_calls_two : list edma_call :=
  [call_alloc_chan_resources 0 ex_pool; call_slave_config 0 ex_cfg;
   call_submit_sg 0 true ex_sgl1 1; call_issue_pending 0;
   call_submit_sg 0 true ex_sgl2 2; call_issue_pending 0].

(** A cyclic receive: 4096 bytes at 0x80000000 in periods of 1024. *)
Definition ex_calls_cyclic_rx : list edma_call :=
  [call_alloc_chan_resources 0 ex_pool; call_slave_config 0 ex_cfg_rx;
   call_submit_cyclic 0 true 0x80000000 4096 1024; call_issue_pending 0].

Definition ex_run (l : list edma_call) : result fsl_edma_engine :=
  e ← ex_probe; run false e l.

(** Channel [ch] of an engine, if the engine is there. *)
Definition chan_of (r : result fsl_edma_engine) (ch : nat) : option fsl_edma_chan :=
  match r with
  | Ok e => chans e !! ch
  | Fault => None
  end.

Definition engine_of (r : result fsl_edma_engine) : fsl_edma_engine :=
  match r with
  | Ok e => e
  | Fault => mk_engine 0 [] 0 false fsl_edma_vf610_data [] []
  end.

Definition chan0_of (e : fsl_edma_engine) : fsl_edma_chan :=
  match chans e !! 0%nat with
  | Some c => c
  | None => probe_chan 0
  end.

Definition ex_engine_active : fsl_edma_engine :=
  Eval vm_compute in engine_of (ex_run ex_calls_active).

Definition ex_engine_terminated : fsl_edma_engine :=
  Eval vm_compute in engine_of (ex_run ex_calls_terminated).

Definition ex_engine_error : fsl_edma_engine :=
  Eval vm_compute in engine_of (ex_run ex_calls_error).

Definition ex_engine_two : fsl_edma_engine :=
  Eval vm_compute in engine_of (ex_run ex_calls_two).

Definition ex_engine_cyclic_rx : fsl_edma_engine :=
  Eval vm_compute in engine_of (ex_run ex_calls_cyclic_rx).

Definition ex_calls_suspended : list edma_call :=
  [call_alloc_chan_resources 0 ex_pool; call_slave_config 0 ex_cfg;
   call_submit_sg 0 true ex_sgl2 2; call_suspend_late].

Definition ex_engine_suspended : fsl_edma_engine :=
  Eval vm_compute in engine_of (ex_run ex_calls_suspended).

(** A channel configured as by [ex_cfg], with [ex_pool] as its pool. *)
Definition ex_chan_tx : fsl_edma_chan :=
  mk_chan vchan_init DMA_COMPLETE RUNNING true 0 None
    (mk_fsc DMA_MEM_TO_DEV 4 0x1000 4 0x0202) ex_pool.

(** One-byte width, burst 1: a period of 32768 bytes is 32768 iterations. *)
Definition ex_chan_byte : fsl_edma_chan :=
  mk_chan vchan_init DMA_COMPLETE RUNNING true 0 None
    (mk_fsc DMA_MEM_TO_DEV 1 0x1000 1 0x0000) ex_pool.

(** ** Shape of a descriptor chain *)

(** Entry [j] of a scatter-gather chain over blocks at the bus addresses
    [ps]: linked to the next block unless it is the last of [sg_len]. *)
Definition sg_entry_ok (cpu_be : bool) (sg_len : Z) (ps : list Z) (j : nat)
    (t : fsl_edma_sw_tcd) : Prop :=
  ps !! j = Some (ptcd t) /\
  let f := tcd_decode cpu_be (vtcd t) in
  if u32 (Z.of_nat j) <? u32 (sg_len - 1) then
    f_enable_sg f = true /\ f_major_int f = false /\ f_disable_req f = false /\
    exists p, ps !! S j = Some p /\ f_dlast_sga f = u32 p
  else
    f_enable_sg f = false /\ f_major_int f = true /\ f_disable_req f = true /\
    f_dlast_sga f = 0.

(** Entry [j] of a cyclic chain of [sg_len] entries with iteration count
    [iter]: linked to entry [(j + 1) mod sg_len]. *)
Definition ring_entry_ok (cpu_be : bool) (sg_len iter : Z) (ps : list Z)
    (j : nat) (t : fsl_edma_sw_tcd) : Prop :=
  ps !! j = Some (ptcd t) /\
  let f := tcd_decode cpu_be (vtcd t) in
  f_enable_sg f = true /\ f_major_int f = true /\ f_disable_req f = false /\
  f_citer f = Z.land iter 0x7FFF /\ f_biter f = Z.land iter 0x7FFF /\
  exists p, ps !! Z.to_nat ((Z.of_nat j + 1) mod sg_len) = Some p /\
            f_dlast_sga f = u32 p.

(** What the scatter-gather loop has established after [k] rounds. *)
Definition sg_loop_inv (cpu_be : bool) (sg_len : Z) (ps : list Z) (k : nat)
    (tcds : list fsl_edma_sw_tcd) : Prop :=
  ptcd <$> tcds = ps /\
  forall j, (j < k)%nat ->
    exists t, tcds !! j = Some t /\ sg_entry_ok cpu_be sg_len ps j t.

(** What the cyclic loop has established after [k] rounds, on its pair of
    [dma_buf_next] and the TCD array. *)
Definition cyclic_loop_inv (cpu_be : bool) (sg_len iter : Z) (ps : list Z)
    (k : nat) (st : Z * list fsl_edma_sw_tcd) : Prop :=
  ptcd <$> snd st = ps /\
  forall j, (j < k)%nat ->
    exists t, snd st !! j = Some t /\ ring_entry_ok cpu_be sg_len iter ps j t.

(** ** Size of a descriptor

    The bytes an entry moves and their sum over a descriptor, as the
    residue is described: per-iteration byte count times beginning iteration
    count. *)
Definition tcd_size (cpu_be : bool) (t : fsl_edma_sw_tcd) : Z :=
  rd_le32 cpu_be (nbytes (vtcd t)) * rd_le16 cpu_be (biter (vtcd t)).

Definition sum_sizes (cpu_be : bool) (l : list fsl_edma_sw_tcd) : Z :=
  fold_right Z.add 0 (tcd_size cpu_be <$> l).

Definition desc_total (cpu_be : bool) (d : fsl_edma_desc) : Z :=
  sum_sizes cpu_be (tcd d).

(** The address of an entry that moves with the transfer: its source for
    memory-to-device, its destination otherwise. *)
Definition tcd_mem_addr (cpu_be : bool) (dir_ : dma_transfer_direction)
    (t : fsl_edma_sw_tcd) : Z :=
  if dir_eqb dir_ DMA_MEM_TO_DEV then rd_le32 cpu_be (saddr (vtcd t))
  else rd_le32 cpu_be (daddr (vtcd t)).

(** The live address [cur] falls within the range of the entry. *)
Definition tcd_holds (cpu_be : bool) (dir_ : dma_transfer_direction) (cur : Z)
    (t : fsl_edma_sw_tcd) : Prop :=
  tcd_mem_addr cpu_be dir_ t <= cur <
  tcd_mem_addr cpu_be dir_ t + tcd_size cpu_be t.

(** An entry whose size and address are those of a 32-bit transfer. *)
Definition tcd_in_range (cpu_be : bool) (dir_ : dma_transfer_direction)
    (t : fsl_edma_sw_tcd) : Prop :=
  0 <= tcd_size cpu_be t < 2 ^ 32 /\ 0 <= tcd_mem_addr cpu_be dir_ t < 2 ^ 32.

(** * Further parts of the driver

    Example data, the blocks of the TCD pool, the request of a channel
    from the device tree and the set-up of the interrupt lines. *)

From Stdlib Require Import Permutation.
From Stdlib Require String.
Import String.StringSyntax.
Local Delimit Scope string_scope with string.

(** ** Further example data *)

(** A big-endian engine without channels. *)
Definition ex_engine_be : fsl_edma_engine :=
  mk_engine 0 [0x100000; 0x200000] 4 true fsl_edma_vf610_data [] [].

(** ** Blocks of the TCD pool

    A descriptor whose entry count covers its TCD array: freeing it gives
    every block back. *)
Definition desc_wf (d : fsl_edma_desc) : Prop :=
  n_tcds d = Z.of_nat (length (tcd d)).

(** A 32-channel S32V234 engine; its first eight channels are listed. *)
Definition ex_engine_s32v : fsl_edma_engine :=
  mk_engine 0 [0x100000; 0x200000] 32 false fsl_edma_s32v234_data
    (probe_chan <$> [0; 1; 2; 3; 4; 5; 6; 7]) [].

(** ** Contents of a descriptor chain *)

(** The transfer parameters of the entry built for the segment [sg] of a
    scatter-gather list, with minor-loop byte count [nb]: the memory side is
    the segment, the device side the configured address, and the iteration
    counts are the 15 low bits of the 16-bit quotient of the segment length
    by [nb]. *)
Definition sg_entry_data (cpu_be : bool) (c : fsl_edma_chan) (nb : Z)
    (sg : scatterlist) (t : fsl_edma_sw_tcd) : Prop :=
  let f := tcd_decode cpu_be (vtcd t) in
  let iter := Z.land (u16 (sg_dma_len sg / nb)) 0x7FFF in
  f_attr f = u16 (fsc_attr (fsc c)) /\ f_nbytes f = nb /\ f_slast f = 0 /\
  f_citer f = iter /\ f_biter f = iter /\
  if dir_eqb (dir (fsc c)) DMA_MEM_TO_DEV then
    f_src f = u32 (sg_dma_address sg) /\ f_dst f = u32 (dev_addr (fsc c)) /\
    f_soff f = u16 (addr_width (fsc c)) /\ f_doff f = 0
  else
    f_src f = u32 (dev_addr (fsc c)) /\ f_dst f = u32 (sg_dma_address sg) /\
    f_soff f = 0 /\ f_doff f = u16 (addr_width (fsc c)).

(** The transfer parameters of entry [j] of a cyclic chain over the
    buffer at [dma_addr] in periods of [period_len]. *)
Definition ring_entry_data (cpu_be : bool) (c : fsl_edma_chan)
    (dma_addr period_len nb : Z) (j : nat) (t : fsl_edma_sw_tcd) : Prop :=
  let f := tcd_decode cpu_be (vtcd t) in
  let iter := Z.land (u16 (period_len / nb)) 0x7FFF in
  let mem := u32 (dma_addr + Z.of_nat j * period_len) in
  f_attr f = u16 (fsc_attr (fsc c)) /\ f_nbytes f = nb /\ f_slast f = 0 /\
  f_citer f = iter /\ f_biter f = iter /\
  if dir_eqb (dir (fsc c)) DMA_MEM_TO_DEV then
    f_src f = mem /\ f_dst f = u32 (dev_addr (fsc c)) /\
    f_soff f = u16 (addr_width (fsc c)) /\ f_doff f = 0
  else
    f_src f = u32 (dev_addr (fsc c)) /\ f_dst f = mem /\
    f_soff f = 0 /\ f_doff f = u16 (addr_width (fsc c)).

(** ** Engines over the same hardware *)

(** Two states of an engine agree on what the probe fixed. *)
Definition same_static (e e' : fsl_edma_engine) : Prop :=
  membase e' = membase e /\ muxbase e' = muxbase e /\
  n_chans e' = n_chans e /\ big_endian e' = big_endian e /\
  socdata e' = socdata e.

(** A Vybrid engine probed with 34 channels, two more than the interrupt
    and error registers have bits. *)
Definition ex_engine_34 : fsl_edma_engine :=
  Eval vm_compute in
    engine_of (fsl_edma_probe 0 [0x100000; 0x200000] 34 false
                 fsl_edma_vf610_data).

(** A four-channel S32 generation 1 (eDMA3) engine with a request active
    on channel 0, and registers that report an error on that channel. *)
Definition ex_engine_s32g : fsl_edma_engine :=
  Eval vm_compute in
    engine_of (e ← fsl_edma_probe 0 [0x100000; 0x200000] 4 false
                     fsl_edma_s32gen1_data;
               run false e ex_calls_active).

Definition ex_hw3 : mmio :=
  mk_mmio (fun a => if (a =? 0x4) || (a =? 0x4004) then 0x80000000 else 0)
    (fun _ => 0).

(** The 34-channel engine with a request active on channel 0 and one on
    channel 32. *)
Definition ex_engine_34_two : fsl_edma_engine :=
  Eval vm_compute in
    engine_of (run false ex_engine_34
                 [call_alloc_chan_resources 0 ex_pool;
                  call_slave_config 0 ex_cfg;
                  call_submit_sg 0 true ex_sgl1 1; call_issue_pending 0;
                  call_alloc_chan_resources 32 ex_pool;
                  call_slave_config 32 ex_cfg;
                  call_submit_sg 32 true ex_sgl1 1; call_issue_pending 32]).

(** ** What a served completion interrupt does to a channel

    The channel had an active descriptor; a cyclic one leaves the channel
    as it is, any other one is completed. *)
Definition tx_served (c c' : fsl_edma_chan) : Prop :=
  exists d,
    edesc c = Some d /\
    if iscyclic d then c' = c
    else completed_cookie (vchan c') = cookie d /\
         desc_completed (vchan c') = desc_completed (vchan c) ++ [d] /\
         desc_submitted (vchan c') = desc_submitted (vchan c) /\
         tcd_pool c' = tcd_pool c.

(** The bus addresses of the blocks a channel holds: those of its pool
    and those of the descriptors in its three queues. *)
Definition desc_blocks (d : fsl_edma_desc) : list Z := ptcd <$> tcd d.

Fixpoint queue_blocks (l : list fsl_edma_desc) : list Z :=
  match l with
  | [] => []
  | d :: l' => desc_blocks d ++ queue_blocks l'
  end.

Definition chan_blocks (c : fsl_edma_chan) : list Z :=
  (ptcd <$> tcd_pool c) ++
  queue_blocks (desc_submitted (vchan c)) ++
  queue_blocks (desc_issued (vchan c)) ++
  queue_blocks (desc_completed (vchan c)).

(** Every queued descriptor covers its TCD array. *)
Definition chan_wf (c : fsl_edma_chan) : Prop :=
  Forall desc_wf (desc_submitted (vchan c)) /\
  Forall desc_wf (desc_issued (vchan c)) /\
  Forall desc_wf (desc_completed (vchan c)).

Definition engine_wf (e : fsl_edma_engine) : Prop :=
  Forall chan_wf (chans e).

(** The blocks of every channel are the same, up to their order. *)
Definition same_blocks (e e' : fsl_edma_engine) : Prop :=
  Forall2 (fun c c' => chan_blocks c' ≡ₚ chan_blocks c) (chans e) (chans e').

(** The arguments of a call are values of their C types: a segment count
    is an [unsigned int], and the number of periods of a cyclic buffer is
    one that an [int] holds. *)
Definition call_ok (a : edma_call) : Prop :=
  match a with
  | call_submit_sg _ _ _ sg_len => 0 <= sg_len < 2 ^ 32
  | call_submit_cyclic _ _ _ buf_len period_len =>
      0 <= buf_len / period_len <= INT_MAX
  | _ => True
  end.

(** The calls that neither create nor destroy a pool. *)
Definition keeps_pool (a : edma_call) : bool :=
  match a with
  | call_alloc_chan_resources _ _ => false
  | call_free_chan_resources _ => false
  | _ => true
  end.

(** An engine in a consistent state whose channels hold the blocks of
    the channels of [e0]. *)
Definition conserved (e0 e : fsl_edma_engine) : Prop :=
  engine_inv e /\ engine_wf e /\ same_blocks e0 e.

(** ** Channel request from the device tree: [fsl_edma_xlate] *)

(** Modelled from the spec: [struct of_phandle_args] of include/linux/of.h,
    the cells of a [dmas] specifier; the driver reads the count and the
    first two cells, which are [uint32_t]. *)
Record of_phandle_args : Type := mk_spec {
  args_count : Z;
  args0 : Z;
  args1 : Z
}.

(** Modelled from the spec: what the DMA engine core knows about the
    channels, by position in the channel list: the number of clients of a
    channel, and whether [dma_get_slave_channel] hands the channel out or
    returns NULL. *)
Record dma_core : Type := mk_core {
  client_count : nat -> Z;
  dma_get_slave_channel : nat -> bool
}.

(** The walk of [list_for_each_entry_safe] over the channels, which are on
    the list in the order of the probe; [l] is the rest of the list and
    [ch] the position of its head.  The result is the position of the
    channel returned, or [None] for NULL, and the engine. *)
Fixpoint xlate_scan (core : dma_core) (e : fsl_edma_engine)
    (dma_spec : of_phandle_args) (chans_per_mux : Z)
    (l : list fsl_edma_chan) (ch : nat)
  : result (option nat * fsl_edma_engine) :=
  match l with
  | [] => mret (None, e)
  | c :: rest =>
      if negb (client_count core ch =? 0) then
        xlate_scan core e dma_spec chans_per_mux rest (S ch)
      else
        bank ← udiv (chan_id (vchan c)) chans_per_mux;
        if (bank =? u32 (args0 dma_spec)) && dma_get_slave_channel core ch then
          let c1 := set_slave_id c (u32 (args1 dma_spec)) in
          mux ← fsl_edma_chan_mux e c1 (slave_id c1) true;
          mret (Some ch, set_chan (emit e mux) ch c1)
        else xlate_scan core e dma_spec chans_per_mux rest (S ch)
  end.

Definition fsl_edma_xlate (core : dma_core) (e : fsl_edma_engine)
    (dma_spec : of_phandle_args) : result (option nat * fsl_edma_engine) :=
  let chans_per_mux := n_chans e / DMAMUX_NR in
  if negb (args_count dma_spec =? 2) then mret (None, e)
  else xlate_scan core e dma_spec chans_per_mux (chans e) 0.

(** A core in which channel 0 is taken and the others are free. *)
Definition ex_core : dma_core :=
  mk_core (fun ch => if Nat.eqb ch 0 then 1 else 0) (fun _ => true).

(** ** Interrupt lines: [fsl_edma_irq_init] and [fsl_edma_irq_exit] *)

(** [struct fsl_edma_irq]; the handler is one of the handlers of the
    driver. *)
Record fsl_edma_irq : Type := mk_irq {
  name : String.string;
  irqhandler : bool -> mmio -> fsl_edma_engine ->
               result (irqreturn_t * fsl_edma_engine);
  irqno : Z
}.

(** The three tables; [irqno] of a static object starts at 0. *)
Definition s32gen1_edma_irqs : list fsl_edma_irq :=
  [mk_irq "edma-err"%string fsl_edma3_irq_handler 0;
   mk_irq "edma-tx_0-15"%string fsl_edma3_tx_handler 0;
   mk_irq "edma-tx_16-31"%string fsl_edma3_tx_handler 0].

Definition s32v234_edma_irqs : list fsl_edma_irq :=
  [mk_irq "edma-err"%string fsl_edma_irq_handler 0;
   mk_irq "edma-tx_0-15"%string fsl_edma_tx_handler 0;
   mk_irq "edma-tx_16-31"%string fsl_edma_tx_handler 0].

Definition vf610_edma_irqs : list fsl_edma_irq :=
  [mk_irq "edma-err"%string fsl_edma_irq_handler 0;
   mk_irq "edma-tx"%string fsl_edma_tx_handler 0].

(** The [.irqs] member of the three [fsl_edma_soc_data] objects, as the
    tables are before the first probe. *)
Definition irqs (s : fsl_edma_soc_data) : list fsl_edma_irq :=
  match s with
  | fsl_edma_s32gen1_data => s32gen1_edma_irqs
  | fsl_edma_s32v234_data => s32v234_edma_irqs
  | fsl_edma_vf610_data => vf610_edma_irqs
  end.

Definition is_vf610_edma (e : fsl_edma_engine) : bool :=
  match socdata e with
  | fsl_edma_vf610_data => true
  | _ => false
  end.

(** Modelled from the spec: the platform's side of the interrupt set-up.
    [platform_get_irq_byname] gives the line of a name or a negative
    error; [devm_request_irq] returns 0 when the line is registered. *)
Record platform : Type := mk_platform {
  platform_get_irq_byname : String.string -> Z;
  devm_request_irq : Z -> String.string -> Z
}.

(** [for (j = 0; j < i; j++) if (irqs[i].irqno == irqs[j].irqno) break;]
    over the entries before [i], given as [l]; the value of [j] after the
    loop. *)
Fixpoint first_same (l : list fsl_edma_irq) (x : Z) (j : nat) : nat :=
  match l with
  | [] => j
  | r :: l' => if irqno r =? x then j else first_same l' x (S j)
  end.

(** The body of the first loop of [fsl_edma_irq_init] on the table; the
    first component is the value returned when the loop returns early. *)
Definition irq_lookup_body (vf610 : bool) (p : platform) (i : nat)
    (tbl : list fsl_edma_irq) : result (option Z * list fsl_edma_irq) :=
  r ← deref (tbl !! i);
  let no := int (platform_get_irq_byname p (name r)) in
  let tbl1 := <[i := mk_irq (name r) (irqhandler r) no]> tbl in
  if no <? 0 then mret (Some no, tbl1)
  else
    let j := first_same (take i tbl1) no 0 in
    if vf610 && (j <? i)%nat then
      let tbl2 := <[i := mk_irq (name r) (irqhandler r) (-1)]> tbl1 in
      rj ← deref (tbl2 !! j);
      mret (None, <[j := mk_irq "eDma"%string (irqhandler rj) (irqno rj)]> tbl2)
    else mret (None, tbl1).

Fixpoint irq_lookup_loop (vf610 : bool) (p : platform) (n i : nat)
    (tbl : list fsl_edma_irq) : result (option Z * list fsl_edma_irq) :=
  match n with
  | O => mret (None, tbl)
  | S n' =>
      '(early, tbl') ← irq_lookup_body vf610 p i tbl;
      match early with
      | Some ret => mret (Some ret, tbl')
      | None => irq_lookup_loop vf610 p n' (S i) tbl'
      end
  end.

(** The second loop: the entries with a line are requested in order; the
    result is the return value and the entries registered. *)
Fixpoint irq_request_loop (p : platform) (l reqs : list fsl_edma_irq)
  : Z * list fsl_edma_irq :=
  match l with
  | [] => (0, reqs)
  | r :: l' =>
      if 0 <=? irqno r then
        let ret := int (devm_request_irq p (irqno r) (name r)) in
        if ret =? 0 then irq_request_loop p l' (reqs ++ [r])
        else (ret, reqs)
      else irq_request_loop p l' reqs
  end.

(** [fsl_edma_irq_init] on the table of the engine's SoC data: the return
    value, the table as the call leaves it and the entries registered. *)
Definition fsl_edma_irq_init (p : platform) (e : fsl_edma_engine)
    (tbl : list fsl_edma_irq)
  : result (Z * list fsl_edma_irq * list fsl_edma_irq) :=
  '(early, tbl1) ← irq_lookup_loop (is_vf610_edma e) p (length tbl) 0 tbl;
  match early with
  | Some ret => mret (ret, tbl1, [])
  | None =>
      let '(ret, reqs) := irq_request_loop p tbl1 [] in
      mret (ret, tbl1, reqs)
  end.

(** [fsl_edma_irq_exit]: the lines freed, in order. *)
Definition fsl_edma_irq_exit (tbl : list fsl_edma_irq) : list Z :=
  irqno <$> filter (fun r => 0 <= irqno r) tbl.

(** A platform where both names of the Vybrid table are wired to line
    40, and one where they have lines 40 and 41. *)
Definition ex_platform_shared : platform :=
  mk_platform
    (fun s =>
       if String.eqb s "edma-err"%string || String.eqb s "edma-tx"%string
       then 40 else -6)
    (fun _ _ => 0).

Definition ex_platform_split : platform :=
  mk_platform
    (fun s => if String.eqb s "edma-err"%string then 40
              else if String.eqb s "edma-tx"%string then 41 else -6)
    (fun _ _ => 0).

(** A platform that has no line named [edma-tx]. *)
Definition ex_platform_missing : platform :=
  mk_platform (fun s => if String.eqb s "edma-err"%string then 40 else -6)
    (fun _ _ => 0).

(** * Properties *)

(** ** Integers and the trap monad *)

Lemma u8_small x : 0 <= x < 2 ^ 8 -> u8 x = x.
Proof. intros H. unfold u8. apply Z.mod_small. exact H. Qed.

Lemma u16_small x : 0 <= x < 2 ^ 16 -> u16 x = x.
Proof. intros H. unfold u16. apply Z.mod_small. exact H. Qed.

Lemma u32_small x : 0 <= x < 2 ^ 32 -> u32 x = x.
Proof. intros H. unfold u32. apply Z.mod_small. exact H. Qed.

Lemma u32_range x : 0 <= u32 x < 2 ^ 32.
Proof. unfold u32. apply Z.mod_pos_bound. lia. Qed.

Lemma u16_range x : 0 <= u16 x < 2 ^ 16.
Proof. unfold u16. apply Z.mod_pos_bound. lia. Qed.

Lemma size_t_range x : 0 <= size_t x < 2 ^ 64.
Proof. unfold size_t. apply Z.mod_pos_bound. lia. Qed.

Lemma int_small x : - 2 ^ 31 <= x < 2 ^ 31 -> int x = x.
Proof. intros H. unfold int. rewrite Z.mod_small by lia. lia. Qed.

Lemma bind_Ok {A B : Type} (r : result A) (k : A -> result B) (b : B) :
  r ≫= k = Ok b -> exists a, r = Ok a /\ k a = Ok b.
Proof. destruct r as [a|]; simpl; intros H; [eauto | discriminate]. Qed.

Lemma deref_Ok {A : Type} (p : option A) (a : A) : deref p = Ok a -> p = Some a.
Proof. destruct p; simpl; intros H; congruence. Qed.

Lemma udiv_Ok a b q : udiv a b = Ok q -> b <> 0 /\ q = a / b.
Proof.
  unfold udiv. destruct (Z.eqb_spec b 0); intros H; [discriminate|].
  split; congruence.
Qed.

Lemma umod_Ok a b r : umod a b = Ok r -> b <> 0 /\ r = a mod b.
Proof.
  unfold umod. destruct (Z.eqb_spec b 0); intros H; [discriminate|].
  split; congruence.
Qed.

(** Take a successful computation apart, one bind at a time. *)
Ltac inv_ok :=
  repeat match goal with
  | H : Ok _ = Ok _ |- _ => injection H as H; try subst
  | H : Fault = Ok _ |- _ => discriminate H
  | H : mret _ = Ok _ |- _ => injection H as H; try subst
  | H : (_ ≫= _) = Ok _ |- _ =>
      let a := fresh "a" in
      let Ha := fresh "Ha" in
      apply bind_Ok in H; destruct H as (a & Ha & H)
  | H : deref _ = Ok _ |- _ => apply deref_Ok in H
  | H : udiv _ _ = Ok _ |- _ =>
      let Hn := fresh "Hnz" in
      apply udiv_Ok in H; destruct H as [Hn H]; try subst
  | H : umod _ _ = Ok _ |- _ =>
      let Hn := fresh "Hnz" in
      apply umod_Ok in H; destruct H as [Hn H]; try subst
  end.

(** ** Byte order *)

Lemma byte_of_Z_mod a b : a mod 2 ^ 8 = b mod 2 ^ 8 -> byte.of_Z a = byte.of_Z b.
Proof.
  intros H. apply byte.unsigned_inj. rewrite !byte.unsigned_of_Z. exact H.
Qed.

Ltac byte_masks :=
  change 255 with (Z.ones 8);
  change 65280 with (Z.shiftl (Z.ones 8) 8);
  change 16711680 with (Z.shiftl (Z.ones 8) 16);
  change 4278190080 with (Z.shiftl (Z.ones 8) 24).

Lemma rev_le_split_swab32 x : rev (le_split 4 (swab32 x)) = le_split 4 x.
Proof.
  change (le_split 4 x) with
    [byte.of_Z x; byte.of_Z (Z.shiftr x 8);
     byte.of_Z (Z.shiftr (Z.shiftr x 8) 8);
     byte.of_Z (Z.shiftr (Z.shiftr (Z.shiftr x 8) 8) 8)].
  change (rev (le_split 4 (swab32 x))) with
    [byte.of_Z (Z.shiftr (Z.shiftr (Z.shiftr (swab32 x) 8) 8) 8);
     byte.of_Z (Z.shiftr (Z.shiftr (swab32 x) 8) 8);
     byte.of_Z (Z.shiftr (swab32 x) 8); byte.of_Z (swab32 x)].
  repeat (apply (f_equal2 cons); [apply byte_of_Z_mod|]); try reflexivity;
    unfold swab32; byte_masks; rewrite <- !Z.land_ones by lia; Z.bitblast.
Qed.

Lemma rev_le_split_swab16 x : rev (le_split 2 (swab16 x)) = le_split 2 x.
Proof.
  change (le_split 2 x) with [byte.of_Z x; byte.of_Z (Z.shiftr x 8)].
  change (rev (le_split 2 (swab16 x))) with
    [byte.of_Z (Z.shiftr (swab16 x) 8); byte.of_Z (swab16 x)].
  repeat (apply (f_equal2 cons); [apply byte_of_Z_mod|]); try reflexivity;
    unfold swab16; byte_masks; rewrite <- !Z.land_ones by lia; Z.bitblast.
Qed.

Lemma swab32_range x : 0 <= swab32 x < 2 ^ 32.
Proof.
  assert (H : swab32 x = Z.land (swab32 x) (Z.ones 32)).
  { unfold swab32. byte_masks. Z.bitblast. }
  rewrite H, Z.land_ones by lia. apply Z.mod_pos_bound. lia.
Qed.

Lemma swab16_range x : 0 <= swab16 x < 2 ^ 16.
Proof.
  assert (H : swab16 x = Z.land (swab16 x) (Z.ones 16)).
  { unfold swab16. byte_masks. Z.bitblast. }
  rewrite H, Z.land_ones by lia. apply Z.mod_pos_bound. lia.
Qed.

(** What a [cpu_to_le32] assignment leaves in memory does not depend on
    the CPU. *)
Lemma cpu_store_le32 cpu_be x :
  cpu_store cpu_be 4 (cpu_to_le32 cpu_be x) = le_split 4 x.
Proof.
  destruct cpu_be; simpl; [apply rev_le_split_swab32 | reflexivity].
Qed.

Lemma cpu_store_le16 cpu_be x :
  cpu_store cpu_be 2 (cpu_to_le16 cpu_be x) = le_split 2 x.
Proof.
  destruct cpu_be; simpl; [apply rev_le_split_swab16 | reflexivity].
Qed.

Lemma rd_le32_bytes cpu_be bs : length bs = 4%nat -> rd_le32 cpu_be bs = le_combine bs.
Proof.
  intros Hlen. destruct cpu_be; [|reflexivity].
  unfold rd_le32, le32_to_cpu, cpu_load.
  set (y := le_combine (rev bs)).
  assert (Hy : le_split 4 y = rev bs).
  { unfold y. rewrite <- (length_rev bs) in Hlen. rewrite <- Hlen.
    apply split_le_combine. }
  assert (Hs : le_split 4 (swab32 y) = bs).
  { rewrite <- (rev_involutive (le_split 4 (swab32 y))).
    rewrite rev_le_split_swab32, Hy. apply rev_involutive. }
  rewrite <- Hs. rewrite le_combine_split.
  symmetry. apply Z.mod_small. apply swab32_range.
Qed.

Lemma rd_le16_bytes cpu_be bs : length bs = 2%nat -> rd_le16 cpu_be bs = le_combine bs.
Proof.
  intros Hlen. destruct cpu_be; [|reflexivity].
  unfold rd_le16, le16_to_cpu, cpu_load.
  set (y := le_combine (rev bs)).
  assert (Hy : le_split 2 y = rev bs).
  { unfold y. rewrite <- (length_rev bs) in Hlen. rewrite <- Hlen.
    apply split_le_combine. }
  assert (Hs : le_split 2 (swab16 y) = bs).
  { rewrite <- (rev_involutive (le_split 2 (swab16 y))).
    rewrite rev_le_split_swab16, Hy. apply rev_involutive. }
  rewrite <- Hs. rewrite le_combine_split.
  symmetry. apply Z.mod_small. apply swab16_range.
Qed.

Lemma rd_le32_store cpu_be x :
  rd_le32 cpu_be (cpu_store cpu_be 4 (cpu_to_le32 cpu_be x)) = u32 x.
Proof.
  rewrite cpu_store_le32, rd_le32_bytes by apply length_le_split.
  apply le_combine_split.
Qed.

Lemma rd_le16_store cpu_be x :
  rd_le16 cpu_be (cpu_store cpu_be 2 (cpu_to_le16 cpu_be x)) = u16 x.
Proof.
  rewrite cpu_store_le16, rd_le16_bytes by apply length_le_split.
  apply le_combine_split.
Qed.

Lemma land_7fff_mod x : Z.land x 0x7FFF = x mod 2 ^ 15.
Proof. change 0x7FFF with (Z.ones 15). apply Z.land_ones. lia. Qed.

Lemma land_7fff_range x : 0 <= Z.land x 0x7FFF < 2 ^ 15.
Proof. rewrite land_7fff_mod. apply Z.mod_pos_bound. lia. Qed.

(** ** The TCD codec *)

Lemma csr_flag_fill cpu_be src dst a so nb sl ci bi do_ lk mi dr sg :
  let t := fsl_edma_fill_tcd cpu_be src dst a so nb sl ci bi do_ lk mi dr sg in
  csr_flag cpu_be t EDMA_TCD_CSR_INT_MAJOR = mi /\
  csr_flag cpu_be t EDMA_TCD_CSR_D_REQ = dr /\
  csr_flag cpu_be t EDMA_TCD_CSR_E_SG = sg.
Proof.
  unfold csr_flag, fsl_edma_fill_tcd; cbn [csr].
  rewrite rd_le16_store.
  destruct mi, dr, sg; vm_compute; auto.
Qed.

(** Reading back what [fsl_edma_fill_tcd] wrote: every argument comes
    back as the value of its C type, the iteration counts without their
    top bit. *)
Lemma tcd_decode_fill cpu_be src dst a so nb sl ci bi do_ lk mi dr sg :
  tcd_decode cpu_be
    (fsl_edma_fill_tcd cpu_be src dst a so nb sl ci bi do_ lk mi dr sg) =
  mk_fields (u32 src) (u32 dst) (u16 a) (u16 so) (u32 nb) (u32 sl)
    (u16 (Z.land ci 0x7FFF)) (u16 (Z.land bi 0x7FFF)) (u16 do_) (u32 lk)
    mi dr sg.
Proof.
  destruct (csr_flag_fill cpu_be src dst a so nb sl ci bi do_ lk mi dr sg)
    as (Hm & Hd & Hs).
  unfold tcd_decode. rewrite Hm, Hd, Hs.
  unfold fsl_edma_fill_tcd; cbn [saddr daddr attr soff nbytes slast citer
    biter doff dlast_sga].
  rewrite !rd_le32_store, !rd_le16_store. reflexivity.
Qed.

Lemma tcd_wire_fill cpu_be src dst a so nb sl ci bi do_ lk mi dr sg :
  tcd_wire (fsl_edma_fill_tcd cpu_be src dst a so nb sl ci bi do_ lk mi dr sg) =
  tcd_wire (fsl_edma_fill_tcd false src dst a so nb sl ci bi do_ lk mi dr sg).
Proof.
  unfold tcd_wire, fsl_edma_fill_tcd; cbn [saddr daddr attr soff nbytes slast
    citer biter doff dlast_sga csr].
  rewrite !cpu_store_le32, !cpu_store_le16. reflexivity.
Qed.

(** C4, as stated, fails: an iteration count with bit 15 set does not
    survive [fsl_edma_fill_tcd], which keeps 15 bits of [citer] and
    [biter]. *)
Lemma tcd_roundtrip_citer_counterexample :
  let f := mk_fields 0x20000 0x1000 0x0202 4 16 0 0x8000 0x8000 0 0
             true true false in
  tcd_fields_ok f /\
  f_citer (tcd_decode false (tcd_encode false f)) = 0 /\
  tcd_decode false (tcd_encode false f) <> f.
Proof.
  cbv zeta. split; [|split].
  - unfold tcd_fields_ok; cbn; lia.
  - vm_compute. reflexivity.
  - intros H. apply (f_equal f_citer) in H. vm_compute in H. discriminate H.
Qed.

(** C4, amended: for all field values of the right C types, encoding into
    the wire structure and decoding it reproduces every field exactly except
    [citer] and [biter], which come back reduced to their 15-bit field (so
    exactly when they are below 0x8000); the wire bytes and the decoded
    fields do not depend on the byte order of the CPU. *)
Theorem tcd_decode_encode (cpu_be : bool) (f : tcd_fields) :
  tcd_fields_ok f ->
  tcd_decode cpu_be (tcd_encode cpu_be f) =
    mk_fields (f_src f) (f_dst f) (f_attr f) (f_soff f) (f_nbytes f)
      (f_slast f) (Z.land (f_citer f) 0x7FFF) (Z.land (f_biter f) 0x7FFF)
      (f_doff f) (f_dlast_sga f) (f_major_int f) (f_disable_req f)
      (f_enable_sg f) /\
  tcd_wire (tcd_encode cpu_be f) = tcd_wire (tcd_encode false f) /\
  (f_citer f < 0x8000 -> f_biter f < 0x8000 ->
   tcd_decode cpu_be (tcd_encode cpu_be f) = f).
Proof.
  intros (Hsrc & Hdst & Hattr & Hsoff & Hnb & Hsl & Hci & Hbi & Hdo & Hlk).
  assert (Hdec : tcd_decode cpu_be (tcd_encode cpu_be f) =
    mk_fields (f_src f) (f_dst f) (f_attr f) (f_soff f) (f_nbytes f)
      (f_slast f) (Z.land (f_citer f) 0x7FFF) (Z.land (f_biter f) 0x7FFF)
      (f_doff f) (f_dlast_sga f) (f_major_int f) (f_disable_req f)
      (f_enable_sg f)).
  { unfold tcd_encode. rewrite tcd_decode_fill.
    pose proof (land_7fff_range (f_citer f)).
    pose proof (land_7fff_range (f_biter f)).
    rewrite !u32_small, !u16_small by lia. reflexivity. }
  split; [exact Hdec | split].
  - unfold tcd_encode. apply tcd_wire_fill.
  - intros Hc Hb. rewrite Hdec.
    rewrite !land_7fff_mod, !Z.mod_small by lia.
    destruct f; reflexivity.
Qed.

Lemma tcd_decode_encode_witness :
  let f := mk_fields 0x20000 0x1000 0x0202 4 16 0 4 4 0 0x8020
             false false true in
  tcd_fields_ok f /\ tcd_decode true (tcd_encode true f) = f.
Proof.
  cbv zeta.
  assert (Hok : tcd_fields_ok
    (mk_fields 0x20000 0x1000 0x0202 4 16 0 4 4 0 0x8020 false false true)).
  { unfold tcd_fields_ok; cbn; lia. }
  split; [exact Hok|].
  apply (tcd_decode_encode true _ Hok); cbn; lia.
Defined.

(** ** Mux routing *)

Lemma s32v234_mux_channel_mapping_eq k :
  0 <= k < 2 ^ 32 ->
  s32v234_mux_channel_mapping k = 4 * (k / 4) + (3 - k mod 4).
Proof.
  intros Hk. unfold s32v234_mux_channel_mapping.
  pose proof (Z.mod_pos_bound k 4 ltac:(lia)) as Hm.
  pose proof (Z.div_mod k 4 ltac:(lia)) as Hd.
  rewrite (u32_small (4 - k mod 4)) by lia.
  rewrite (u32_small (4 - k mod 4 - 1)) by lia.
  rewrite (u32_small (4 * (k / 4))) by lia.
  rewrite u32_small by lia. lia.
Qed.

Lemma mux_enable_byte slot :
  u8 (Z.lor EDMAMUX_CHCFG_ENBL (EDMAMUX_CHCFG_SOURCE slot)) =
  Z.lor 0x80 (Z.land slot 0x3F).
Proof.
  unfold u8, EDMAMUX_CHCFG_ENBL, EDMAMUX_CHCFG_SOURCE.
  rewrite <- Z.land_ones by lia.
  change 0x80 with (Z.shiftl (Z.ones 1) 7). change 0x3F with (Z.ones 6).
  Z.bitblast.
Qed.

(** C9: the mux write goes to bank [ch / channels_per_bank], at the
    offset the generation's map gives for [ch mod channels_per_bank]; it
    carries the enable bit and the six-bit peripheral id when enabling and
    the disabled value 0 otherwise; the map of the S32 generations reverses
    each group of four and the map of the other generation is the
    identity. *)
Theorem fsl_edma_chan_mux_route (e : fsl_edma_engine) (c : fsl_edma_chan)
    (slot : Z) (enable : bool) (base : Z) :
  let ch := chan_id (vchan c) in
  let chans_per_mux := n_chans e / DMAMUX_NR in
  chans_per_mux <> 0 ->
  muxbase e !! Z.to_nat (ch / chans_per_mux) = Some base ->
  fsl_edma_chan_mux e c slot enable =
    Ok [Iowrite8 (if enable then Z.lor 0x80 (Z.land slot 0x3F) else 0)
          (base + mux_channel_mapping (socdata e) (ch mod chans_per_mux))] /\
  (forall k, 0 <= k < 2 ^ 32 ->
     mux_channel_mapping fsl_edma_s32v234_data k = 4 * (k / 4) + (3 - k mod 4) /\
     mux_channel_mapping fsl_edma_s32gen1_data k = 4 * (k / 4) + (3 - k mod 4)) /\
  (forall k, mux_channel_mapping fsl_edma_vf610_data k = k).
Proof.
  intros ch cpm Hnz Hbase. split; [|split].
  - unfold fsl_edma_chan_mux. fold ch. fold cpm.
    unfold umod, udiv. destruct (Z.eqb_spec cpm 0) as [E|_]; [contradiction|].
    cbn [mbind result_bind]. rewrite Hbase. cbn [deref mbind result_bind].
    destruct enable; cbn [mret result_ret].
    + rewrite mux_enable_byte. reflexivity.
    + reflexivity.
  - intros k Hk. cbn [mux_channel_mapping].
    split; apply s32v234_mux_channel_mapping_eq; exact Hk.
  - reflexivity.
Qed.

(** Channel 5 of 32 on an S32V234: bank 0, offset 6. *)
Lemma fsl_edma_chan_mux_route_witness :
  let e := mk_engine 0x40000 [0x100000; 0x200000] 32 false
             fsl_edma_s32v234_data [] [] in
  let c := mk_chan (set_chan_id vchan_init 5) DMA_COMPLETE RUNNING true 0 None
             (mk_fsc DMA_MEM_TO_MEM 0 0 0 0) [] in
  fsl_edma_chan_mux e c 9 true = Ok [Iowrite8 0x89 (0x100000 + 6)] /\
  fsl_edma_chan_mux e c 9 false = Ok [Iowrite8 0 (0x100000 + 6)].
Proof.
  cbv zeta. split.
  - apply (fsl_edma_chan_mux_route
             (mk_engine 0x40000 [0x100000; 0x200000] 32 false
                fsl_edma_s32v234_data [] [])
             (mk_chan (set_chan_id vchan_init 5) DMA_COMPLETE RUNNING true 0 None
                (mk_fsc DMA_MEM_TO_MEM 0 0 0 0) [])
             9 true 0x100000); [vm_compute; discriminate | reflexivity].
  - apply (fsl_edma_chan_mux_route
             (mk_engine 0x40000 [0x100000; 0x200000] 32 false
                fsl_edma_s32v234_data [] [])
             (mk_chan (set_chan_id vchan_init 5) DMA_COMPLETE RUNNING true 0 None
                (mk_fsc DMA_MEM_TO_MEM 0 0 0 0) [])
             9 false 0x100000); [vm_compute; discriminate | reflexivity].
Defined.

(** ** Channel configuration *)

(** C10: with a direction that is neither device-to-memory nor
    memory-to-device the call returns [-EINVAL], yet the stored direction
    has already been replaced by the invalid one; the device address, the
    address width, the burst and the attributes, and the rest of the channel,
    are as before. *)
Theorem fsl_edma_slave_config_invalid (c : fsl_edma_chan) (cfg : dma_slave_config) :
  direction cfg <> DMA_DEV_TO_MEM ->
  direction cfg <> DMA_MEM_TO_DEV ->
  let c' := fst (fsl_edma_slave_config c cfg) in
  snd (fsl_edma_slave_config c cfg) = - EINVAL /\
  dir (fsc c') = direction cfg /\
  dev_addr (fsc c') = dev_addr (fsc c) /\
  addr_width (fsc c') = addr_width (fsc c) /\
  burst (fsc c') = burst (fsc c) /\
  fsc_attr (fsc c') = fsc_attr (fsc c) /\
  c' = set_fsc c (mk_fsc (direction cfg) (addr_width (fsc c))
                    (dev_addr (fsc c)) (burst (fsc c)) (fsc_attr (fsc c))) /\
  (dir (fsc c) <> direction cfg -> c' <> c).
Proof.
  intros Hd Hm. unfold fsl_edma_slave_config.
  destruct (direction cfg) eqn:E; try contradiction; cbn;
    repeat split; try reflexivity;
    intros Hne Heq; apply Hne; rewrite <- Heq; reflexivity.
Qed.

Lemma fsl_edma_slave_config_invalid_witness :
  let c := mk_chan vchan_init DMA_COMPLETE RUNNING true 0 None
             (mk_fsc DMA_MEM_TO_DEV 4 0x1000 4 0x0202) [] in
  let cfg := mk_cfg DMA_MEM_TO_MEM 0x5000 0x6000 2 2 8 8 in
  snd (fsl_edma_slave_config c cfg) = - EINVAL /\
  fsc (fst (fsl_edma_slave_config c cfg)) = mk_fsc DMA_MEM_TO_MEM 4 0x1000 4 0x0202.
Proof.
  cbv zeta.
  pose proof (fsl_edma_slave_config_invalid
    (mk_chan vchan_init DMA_COMPLETE RUNNING true 0 None
       (mk_fsc DMA_MEM_TO_DEV 4 0x1000 4 0x0202) [])
    (mk_cfg DMA_MEM_TO_MEM 0x5000 0x6000 2 2 8 8)
    ltac:(discriminate) ltac:(discriminate)) as (Hret & _ & _ & _ & _ & _ & Hc & _).
  split; [exact Hret | rewrite Hc; reflexivity].
Defined.

(** ** Engine bookkeeping *)

Lemma emit_nil e : emit e [] = e.
Proof. destruct e; unfold emit; cbn. rewrite app_nil_r. reflexivity. Qed.

Lemma set_chan_same e ch c : chans e !! ch = Some c -> set_chan e ch c = e.
Proof.
  intros H. destruct e; unfold set_chan; cbn in *.
  rewrite list_insert_id by exact H. reflexivity.
Qed.

Lemma chans_emit e evs : chans (emit e evs) = chans e.
Proof. reflexivity. Qed.

Lemma chans_set_chan e ch c : chans (set_chan e ch c) = <[ch := c]> (chans e).
Proof. reflexivity. Qed.

(** ** Issue while suspended *)

(** C8: on a suspended channel [issue_pending] does nothing: no request is
    taken from the queues, no register is written, and status, active
    descriptor and idle flag stay as they are; the whole engine is
    unchanged. *)
Theorem fsl_edma_issue_pending_suspended (cpu_be : bool) (e : fsl_edma_engine)
    (ch : nat) (c : fsl_edma_chan) :
  chans e !! ch = Some c ->
  pm_state c = SUSPENDED ->
  fsl_edma_issue_pending cpu_be e c = Ok (c, []) /\
  step cpu_be e (call_issue_pending ch) = Ok e.
Proof.
  intros Hc Hpm.
  assert (H1 : fsl_edma_issue_pending cpu_be e c = Ok (c, [])).
  { unfold fsl_edma_issue_pending. rewrite Hpm. reflexivity. }
  split; [exact H1|].
  cbn [step]. unfold on_chan. rewrite Hc. cbn [deref mbind result_bind].
  rewrite H1. cbn [mbind result_bind mret result_ret].
  rewrite emit_nil, set_chan_same by exact Hc. reflexivity.
Qed.

(** ** A completion interrupt without an active descriptor *)

Lemma tx_complete_no_edesc cpu_be b e c :
  edesc c = None -> tx_complete cpu_be b e c = Fault.
Proof. intros H. unfold tx_complete. rewrite H. reflexivity. Qed.

Lemma tx_handler_body_other cpu_be intr k ch e e' :
  k <> ch ->
  tx_handler_body cpu_be intr k e = Ok e' ->
  chans e' !! ch = chans e !! ch.
Proof.
  intros Hne. unfold tx_handler_body.
  destruct (Z.land intr _ =? 0).
  - intros H. inv_ok. reflexivity.
  - intros H. inv_ok. destruct a0 as [c' evs]. inv_ok.
    cbn. apply list_lookup_insert_ne. exact Hne.
Qed.

(** A bit that meets the 32-bit status is the bit of a channel below 32,
    where the shift count is the channel number itself. *)
Lemma shl_bit_mod32 v k :
  0 <= k -> Z.land v (u32 (Z.shiftl 0x1 k)) <> 0 -> k mod 32 = k.
Proof.
  intros Hk Hbit. destruct (Z_lt_le_dec k 32) as [Hlt|Hge].
  - apply Z.mod_small. lia.
  - exfalso. apply Hbit. rewrite Z.shiftl_1_l. unfold u32.
    replace k with ((k - 32) + 32) by lia.
    rewrite Z.pow_add_r by lia.
    rewrite Z.mod_mul by (apply Z.pow_nonzero; lia).
    apply Z.land_0_r.
Qed.

Lemma tx_handler_body_no_edesc cpu_be intr ch e c :
  Z.land intr (u32 (Z.shiftl 0x1 (Z.of_nat ch))) <> 0 ->
  chans e !! ch = Some c ->
  edesc c = None ->
  tx_handler_body cpu_be intr ch e = Fault.
Proof.
  intros Hbit Hc Hd. unfold tx_handler_body.
  rewrite (shl_bit_mod32 intr (Z.of_nat ch)) by (lia || exact Hbit).
  destruct (Z.eqb_spec (Z.land intr (u32 (Z.shiftl 0x1 (Z.of_nat ch)))) 0)
    as [E|_]; [contradiction|].
  rewrite chans_emit, Hc. cbn [deref mbind result_bind].
  rewrite tx_complete_no_edesc by exact Hd. reflexivity.
Qed.

Lemma tx_loop_no_edesc cpu_be intr ch c :
  Z.land intr (u32 (Z.shiftl 0x1 (Z.of_nat ch))) <> 0 ->
  edesc c = None ->
  forall n k e,
    (k <= ch < k + n)%nat ->
    chans e !! ch = Some c ->
    for_loop (tx_handler_body cpu_be intr) n k e = Fault.
Proof.
  intros Hbit Hd. induction n as [|n IH]; intros k e Hk Hc; [lia|].
  cbn [for_loop].
  destruct (Nat.eq_dec k ch) as [->|Hne].
  - rewrite (tx_handler_body_no_edesc cpu_be intr ch e c) by assumption.
    reflexivity.
  - destruct (tx_handler_body cpu_be intr k e) as [e'|] eqn:E; [|reflexivity].
    cbn [mbind result_bind]. apply IH; [lia|].
    rewrite (tx_handler_body_other cpu_be intr k ch e e' Hne E). exact Hc.
Qed.

(** C1 does not hold of the code.  When the completion interrupt of a
    channel is asserted and the channel has no active descriptor,
    [fsl_edma_tx_handler] reads [fsl_chan->edesc->iscyclic] through the NULL
    pointer: the handler traps instead of leaving the channel alone. *)
Theorem fsl_edma_tx_handler_no_edesc (cpu_be : bool) (hw : mmio)
    (e : fsl_edma_engine) (ch : nat) (c : fsl_edma_chan) :
  Z.of_nat ch < n_chans e ->
  chans e !! ch = Some c ->
  edesc c = None ->
  Z.land (edma_readl hw e (membase e + EDMA_INTR))
    (u32 (Z.shiftl 0x1 (Z.of_nat ch))) <> 0 ->
  fsl_edma_tx_handler cpu_be hw e = Fault.
Proof.
  intros Hch Hc Hd Hbit. unfold fsl_edma_tx_handler.
  destruct (Z.eqb_spec (edma_readl hw e (membase e + EDMA_INTR)) 0) as [E|_].
  - rewrite E, Z.land_0_l in Hbit. contradiction.
  - rewrite (tx_loop_no_edesc cpu_be _ ch c Hbit Hd); [reflexivity|lia|exact Hc].
Qed.

(** The request of channel 0 is terminated, then its completion interrupt
    is served. *)
Lemma fsl_edma_tx_handler_no_edesc_witness :
  ex_run ex_calls_terminated = Ok ex_engine_terminated /\
  edesc (chan0_of ex_engine_terminated) = None /\
  fsl_edma_tx_handler false (ex_hw EDMA_INTR 1) ex_engine_terminated = Fault.
Proof.
  split; [vm_compute; reflexivity|].
  split; [reflexivity|].
  apply (fsl_edma_tx_handler_no_edesc false (ex_hw EDMA_INTR 1)
           ex_engine_terminated 0 (chan0_of ex_engine_terminated)).
  - reflexivity.
  - reflexivity.
  - reflexivity.
  - vm_compute. discriminate.
Defined.

(** The eDMA3 completion handler reads the descriptor the same way. *)
Lemma tx3_handler_body_other cpu_be hw k ch e h e' :
  k <> ch ->
  tx3_handler_body cpu_be hw k e = Ok (h, e') ->
  chans e' !! ch = chans e !! ch /\
  membase e' = membase e /\ big_endian e' = big_endian e.
Proof.
  intros Hne. unfold tx3_handler_body. cbv zeta.
  destruct (Z.land _ _ =? 0).
  - intros H. inv_ok. auto.
  - intros H. inv_ok. destruct a0 as [c' evs]. inv_ok.
    cbn. split; [|auto]. apply list_lookup_insert_ne. exact Hne.
Qed.

Lemma tx3_handler_body_no_edesc cpu_be hw ch e c :
  Z.land (edma_readl hw e (membase e + EDMA3_CHn_INT (Z.of_nat ch)))
    EDMA3_CHn_INT_INT <> 0 ->
  chans e !! ch = Some c ->
  edesc c = None ->
  tx3_handler_body cpu_be hw ch e = Fault.
Proof.
  intros Hbit Hc Hd. unfold tx3_handler_body. cbv zeta.
  destruct (Z.eqb_spec
              (Z.land (edma_readl hw e (membase e + EDMA3_CHn_INT (Z.of_nat ch)))
                 EDMA3_CHn_INT_INT) 0) as [E|_]; [contradiction|].
  rewrite chans_emit, Hc. cbn [deref mbind result_bind].
  rewrite tx_complete_no_edesc by exact Hd. reflexivity.
Qed.

Lemma tx3_loop_no_edesc cpu_be hw ch c :
  edesc c = None ->
  forall n k h e,
    (k <= ch < k + n)%nat ->
    chans e !! ch = Some c ->
    Z.land (edma_readl hw e (membase e + EDMA3_CHn_INT (Z.of_nat ch)))
      EDMA3_CHn_INT_INT <> 0 ->
    tx3_loop cpu_be hw n k h e = Fault.
Proof.
  intros Hd. induction n as [|n IH]; intros k h e Hk Hc Hbit; [lia|].
  cbn [tx3_loop].
  destruct (Nat.eq_dec k ch) as [->|Hne].
  - rewrite (tx3_handler_body_no_edesc cpu_be hw ch e c) by assumption.
    reflexivity.
  - destruct (tx3_handler_body cpu_be hw k e) as [[h1 e1]|] eqn:E;
      [|reflexivity].
    cbn [mbind result_bind].
    destruct (tx3_handler_body_other cpu_be hw k ch e h1 e1 Hne E)
      as (Hch & Hmb & Hbe).
    apply IH; [lia | rewrite Hch; exact Hc |].
    unfold edma_readl in *. rewrite Hmb, Hbe. exact Hbit.
Qed.

Lemma fsl_edma3_tx_handler_no_edesc cpu_be hw e ch c :
  Z.of_nat ch < n_chans e ->
  chans e !! ch = Some c ->
  edesc c = None ->
  Z.land (edma_readl hw e (membase e + EDMA3_CHn_INT (Z.of_nat ch)))
    EDMA3_CHn_INT_INT <> 0 ->
  fsl_edma3_tx_handler cpu_be hw e = Fault.
Proof.
  intros Hch Hc Hd Hbit. unfold fsl_edma3_tx_handler.
  rewrite (tx3_loop_no_edesc cpu_be hw ch c Hd); [reflexivity|lia|exact Hc|exact Hbit].
Qed.

(** ** The invariant of a channel *)

Lemma same_core_refl c : same_core c c.
Proof. repeat split. Qed.

Lemma chan_inv_same_core c c' : same_core c c' -> chan_inv c -> chan_inv c'.
Proof.
  intros (He & Hi & Hs) Hinv d Hd. rewrite He in Hd.
  rewrite Hi, Hs. apply Hinv. exact Hd.
Qed.

Lemma chan_inv_no_edesc c : edesc c = None -> chan_inv c.
Proof. intros H d Hd. congruence. Qed.

Lemma fsl_edma_alloc_desc_core kz c n od c' :
  fsl_edma_alloc_desc kz c n = (od, c') -> same_core c c'.
Proof.
  unfold fsl_edma_alloc_desc. destruct kz; cbn [negb].
  - destruct (alloc_tcds _ _ _) as [[tcds|] pool]; intros H;
      injection H as _ <-; repeat split.
  - intros H. injection H as _ <-. apply same_core_refl.
Qed.

Lemma fsl_edma_prep_slave_sg_core cpu_be kz c sgl sg_len od c' :
  fsl_edma_prep_slave_sg cpu_be kz c sgl sg_len = Ok (od, c') -> same_core c c'.
Proof.
  unfold fsl_edma_prep_slave_sg.
  destruct (is_slave_direction _); cbn [negb].
  - destruct (fsl_edma_alloc_desc kz c (int sg_len)) as [[d|] c1] eqn:E;
      intros H; inv_ok;
      apply (fsl_edma_alloc_desc_core _ _ _ _ _ E).
  - intros H. inv_ok. apply same_core_refl.
Qed.

Lemma fsl_edma_prep_dma_cyclic_core cpu_be kz c a l p od c' :
  fsl_edma_prep_dma_cyclic cpu_be kz c a l p = Ok (od, c') -> same_core c c'.
Proof.
  unfold fsl_edma_prep_dma_cyclic.
  destruct (is_slave_direction _); cbn [negb].
  - intros H. inv_ok.
    destruct (fsl_edma_alloc_desc kz c _) as [[d|] c1] eqn:E;
      inv_ok; apply (fsl_edma_alloc_desc_core _ _ _ _ _ E).
  - intros H. inv_ok. apply same_core_refl.
Qed.

Lemma submit_inv r c c' evs :
  (forall od c1, r = Ok (od, c1) -> same_core c c1) ->
  chan_inv c ->
  submit r = Ok (c', evs) ->
  chan_inv c'.
Proof.
  intros Hr Hinv H. unfold submit in H. inv_ok. destruct a as [od c1].
  specialize (Hr od c1 Ha).
  destruct od as [d|]; inv_ok.
  - apply (chan_inv_same_core c); [|exact Hinv].
    destruct Hr as (He & Hi & Hs). repeat split; assumption.
  - apply (chan_inv_same_core c); assumption.
Qed.

Lemma fsl_edma_xfer_desc_inv cpu_be e c c' evs :
  chan_inv c ->
  fsl_edma_xfer_desc cpu_be e c = Ok (c', evs) ->
  chan_inv c'.
Proof.
  intros Hinv. unfold fsl_edma_xfer_desc, vchan_next_desc.
  destruct (head (desc_issued (vchan c))) as [vdesc|] eqn:Eh; intros H; inv_ok.
  - intros d Hd. cbn in Hd. injection Hd as <-. cbn. split; [exact Eh | auto].
  - exact Hinv.
Qed.

Lemma head_app_Some {A : Type} (l l' : list A) (x : A) :
  head l = Some x -> head (l ++ l') = Some x.
Proof. destruct l; cbn; congruence. Qed.

Lemma fsl_edma_issue_pending_inv cpu_be e c c' evs :
  chan_inv c ->
  fsl_edma_issue_pending cpu_be e c = Ok (c', evs) ->
  chan_inv c'.
Proof.
  intros Hinv. unfold fsl_edma_issue_pending.
  destruct (pm_state c).
  - unfold vchan_issue_pending. cbv zeta. cbn [set_vchan edesc].
    destruct (edesc c) as [d|] eqn:Ed.
    + rewrite andb_false_r. intros H. inv_ok.
      intros d' Hd'. cbn in Hd'. rewrite Ed in Hd'. injection Hd' as <-.
      destruct (Hinv d Ed) as [Hh Hs]. cbn. split; [|exact Hs].
      apply head_app_Some. exact Hh.
    + match goal with
      | |- (if ?b then _ else _) = _ -> _ => destruct b
      end; intros H.
      * eapply fsl_edma_xfer_desc_inv; [|exact H].
        apply chan_inv_no_edesc. exact Ed.
      * inv_ok. apply chan_inv_no_edesc. exact Ed.
  - intros H. inv_ok. exact Hinv.
Qed.

Lemma fsl_edma_pause_inv e c : chan_inv c -> chan_inv (fst (fsl_edma_pause e c)).
Proof.
  intros Hinv. unfold fsl_edma_pause.
  destruct (edesc c) as [d0|] eqn:Ed; cbn [fst]; [|exact Hinv].
  intros d Hd. cbn in Hd. rewrite Ed in Hd. injection Hd as <-.
  destruct (Hinv d0 Ed) as [Hh _]. cbn. auto.
Qed.

Lemma fsl_edma_resume_inv e c : chan_inv c -> chan_inv (fst (fsl_edma_resume e c)).
Proof.
  intros Hinv. unfold fsl_edma_resume.
  destruct (edesc c) as [d0|] eqn:Ed; cbn [fst]; [|exact Hinv].
  intros d Hd. cbn in Hd. rewrite Ed in Hd. injection Hd as <-.
  destruct (Hinv d0 Ed) as [Hh _]. cbn. auto.
Qed.

Lemma fsl_edma_terminate_all_inv e c c' evs :
  fsl_edma_terminate_all e c = Ok (c', evs) -> chan_inv c'.
Proof.
  unfold fsl_edma_terminate_all, vchan_get_all_descriptors. cbv zeta.
  intros H. inv_ok. apply chan_inv_no_edesc. reflexivity.
Qed.

Lemma fsl_edma_free_chan_resources_inv e c c' evs :
  fsl_edma_free_chan_resources e c = Ok (c', evs) -> chan_inv c'.
Proof.
  unfold fsl_edma_free_chan_resources, vchan_get_all_descriptors. cbv zeta.
  intros H. inv_ok. apply chan_inv_no_edesc. reflexivity.
Qed.

Lemma vchan_complete_inv c c' : chan_inv c -> vchan_complete c = Ok c' -> chan_inv c'.
Proof.
  intros Hinv. unfold vchan_complete. cbv zeta. intros H. inv_ok.
  apply (chan_inv_same_core c); [repeat split | exact Hinv].
Qed.

Lemma fsl_edma_slave_config_inv c cfg :
  chan_inv c -> chan_inv (fst (fsl_edma_slave_config c cfg)).
Proof.
  intros Hinv. apply (chan_inv_same_core c); [|exact Hinv].
  unfold fsl_edma_slave_config.
  destruct (dir_eqb _ _); [|destruct (dir_eqb _ _)]; repeat split.
Qed.

Lemma tx_complete_inv cpu_be b e c c' evs :
  chan_inv c ->
  tx_complete cpu_be b e c = Ok (c', evs) ->
  chan_inv c'.
Proof.
  intros Hinv. unfold tx_complete. intros H. inv_ok.
  destruct (iscyclic a); cbn [negb] in H.
  - cbn [set_vchan edesc] in H. rewrite Ha in H. inv_ok.
    apply (chan_inv_same_core c); [repeat split | exact Hinv].
  - destruct b; cbn [set_idle set_status set_edesc set_vchan edesc] in H;
      (eapply fsl_edma_xfer_desc_inv; [|exact H]);
      apply chan_inv_no_edesc; reflexivity.
Qed.

(** ** The invariant of the engine *)

Lemma engine_inv_emit e evs : engine_inv e -> engine_inv (emit e evs).
Proof. intros H. exact H. Qed.

Lemma engine_inv_set_chan e ch c :
  engine_inv e -> chan_inv c -> engine_inv (set_chan e ch c).
Proof. intros He Hc. unfold engine_inv. cbn. apply Forall_insert; assumption. Qed.

Lemma engine_inv_lookup e ch c : engine_inv e -> chans e !! ch = Some c -> chan_inv c.
Proof.
  intros He Hc. unfold engine_inv in He.
  rewrite Forall_lookup in He. exact (He ch c Hc).
Qed.

Lemma on_chan_inv e ch f e' :
  engine_inv e ->
  (forall c c' evs, chan_inv c -> f c = Ok (c', evs) -> chan_inv c') ->
  on_chan e ch f = Ok e' ->
  engine_inv e'.
Proof.
  intros He Hf H. unfold on_chan in H. inv_ok. destruct a0 as [c' evs]. inv_ok.
  apply engine_inv_set_chan; [apply engine_inv_emit; exact He|].
  eapply Hf; [|exact Ha0]. eapply engine_inv_lookup; eassumption.
Qed.

Lemma for_loop_pres {St : Type} (P : St -> Prop) (body : nat -> St -> result St) :
  (forall k e e', P e -> body k e = Ok e' -> P e') ->
  forall n k e e', P e -> for_loop body n k e = Ok e' -> P e'.
Proof.
  intros Hb. induction n as [|n IH]; intros k e e' He H; cbn in H; inv_ok.
  - exact He.
  - eapply IH; [|exact H]. eapply Hb; eassumption.
Qed.

Lemma tx_handler_body_inv cpu_be intr k e e' :
  engine_inv e -> tx_handler_body cpu_be intr k e = Ok e' -> engine_inv e'.
Proof.
  intros He. unfold tx_handler_body.
  destruct (Z.land intr _ =? 0); intros H; inv_ok; [exact He|].
  destruct a0 as [c' evs]. inv_ok.
  apply engine_inv_set_chan; [exact He|].
  eapply tx_complete_inv; [|exact Ha0].
  eapply engine_inv_lookup; [exact He | exact Ha].
Qed.

Lemma tx3_handler_body_inv cpu_be hw k e h e' :
  engine_inv e -> tx3_handler_body cpu_be hw k e = Ok (h, e') -> engine_inv e'.
Proof.
  intros He. unfold tx3_handler_body. cbv zeta.
  destruct (Z.land _ _ =? 0); intros H; inv_ok; [exact He|].
  destruct a0 as [c' evs]. inv_ok.
  apply engine_inv_set_chan; [exact He|].
  eapply tx_complete_inv; [|exact Ha0].
  eapply engine_inv_lookup; [exact He | exact Ha].
Qed.

Lemma tx3_loop_inv cpu_be hw :
  forall n k h e h' e',
    engine_inv e -> tx3_loop cpu_be hw n k h e = Ok (h', e') -> engine_inv e'.
Proof.
  induction n as [|n IH]; intros k h e h' e' He H; cbn in H; inv_ok.
  - exact He.
  - destruct a as [h1 e1]. eapply IH; [|exact H].
    eapply tx3_handler_body_inv; eassumption.
Qed.

Lemma chan_inv_error c (b : bool) :
  chan_inv c ->
  chan_inv (if b then set_idle (set_status c DMA_ERROR) true
            else set_status c DMA_ERROR).
Proof.
  intros Hinv d Hd.
  assert (Hd' : edesc c = Some d) by (destruct b; exact Hd).
  destruct (Hinv d Hd') as [Hh _]. destruct b; cbn; auto.
Qed.

Lemma err_handler_body_inv err k e e' :
  engine_inv e -> err_handler_body err k e = Ok e' -> engine_inv e'.
Proof.
  intros He. unfold err_handler_body.
  destruct (Z.land err _ =? 0); intros H; inv_ok; [exact He|].
  apply engine_inv_set_chan; [exact He|].
  apply (chan_inv_error a true). eapply engine_inv_lookup; eassumption.
Qed.

Lemma err3_handler_body_inv hw k e e' :
  engine_inv e -> err3_handler_body hw k e = Ok e' -> engine_inv e'.
Proof.
  intros He. unfold err3_handler_body. cbv zeta.
  destruct (Z.land _ _ =? 0); intros H; inv_ok; [exact He|].
  apply engine_inv_set_chan; [exact He|].
  apply (chan_inv_error a false). eapply engine_inv_lookup; eassumption.
Qed.

Lemma fsl_edma_tx_handler_inv cpu_be hw e r e' :
  engine_inv e -> fsl_edma_tx_handler cpu_be hw e = Ok (r, e') -> engine_inv e'.
Proof.
  intros He. unfold fsl_edma_tx_handler. cbv zeta.
  destruct (_ =? 0); intros H; inv_ok; [exact He|].
  eapply (for_loop_pres engine_inv); [|exact He|exact Ha].
  intros k e1 e2. apply tx_handler_body_inv.
Qed.

Lemma fsl_edma_err_handler_inv hw e r e' :
  engine_inv e -> fsl_edma_err_handler hw e = Ok (r, e') -> engine_inv e'.
Proof.
  intros He. unfold fsl_edma_err_handler. cbv zeta.
  destruct (_ =? 0); intros H; inv_ok; [exact He|].
  eapply (for_loop_pres engine_inv); [|exact He|exact Ha].
  intros k e1 e2. apply err_handler_body_inv.
Qed.

Lemma fsl_edma3_tx_handler_inv cpu_be hw e r e' :
  engine_inv e -> fsl_edma3_tx_handler cpu_be hw e = Ok (r, e') -> engine_inv e'.
Proof.
  intros He. unfold fsl_edma3_tx_handler. intros H. inv_ok.
  destruct a as [h e1]. inv_ok.
  eapply tx3_loop_inv; eassumption.
Qed.

Lemma fsl_edma3_err_handler_inv hw e r e' :
  engine_inv e -> fsl_edma3_err_handler hw e = Ok (r, e') -> engine_inv e'.
Proof.
  intros He. unfold fsl_edma3_err_handler. cbv zeta.
  destruct (_ =? 0); intros H; inv_ok; [exact He|].
  eapply (for_loop_pres engine_inv); [|exact He|exact Ha].
  intros k e1 e2. apply err3_handler_body_inv.
Qed.

Lemma suspend_late_body_inv k e e' :
  engine_inv e -> suspend_late_body k e = Ok e' -> engine_inv e'.
Proof.
  intros He. unfold suspend_late_body. intros H. inv_ok.
  apply engine_inv_set_chan; [exact He|].
  apply (chan_inv_same_core a); [repeat split|].
  eapply engine_inv_lookup; eassumption.
Qed.

Lemma resume_early_body_inv k e e' :
  engine_inv e -> resume_early_body k e = Ok e' -> engine_inv e'.
Proof.
  intros He. unfold resume_early_body. cbv zeta. intros H. inv_ok.
  apply engine_inv_set_chan; [exact He|].
  apply (chan_inv_same_core a); [repeat split|].
  eapply engine_inv_lookup; eassumption.
Qed.

Lemma probe_body_inv k e e' :
  engine_inv e -> probe_body k e = Ok e' -> engine_inv e'.
Proof.
  intros He. unfold probe_body. cbv zeta. intros H. inv_ok.
  unfold engine_inv. cbn. apply Forall_app. split; [exact He|].
  constructor; [|constructor]. apply chan_inv_no_edesc. reflexivity.
Qed.

Lemma engine_inv_register e :
  engine_inv e -> engine_inv (dma_async_device_register e).
Proof.
  unfold engine_inv, dma_async_device_register. cbn [chans].
  rewrite !Forall_lookup. intros He i c Hc.
  rewrite list_lookup_imap in Hc.
  destruct (chans e !! i) as [c0|] eqn:E; cbn in Hc; [|discriminate].
  injection Hc as <-.
  apply (chan_inv_same_core c0); [repeat split | exact (He i c0 E)].
Qed.

Lemma fsl_edma_probe_inv mb mx n be sd e :
  fsl_edma_probe mb mx n be sd = Ok e -> engine_inv e.
Proof.
  unfold fsl_edma_probe. cbv zeta. intros H. inv_ok.
  apply engine_inv_emit. apply engine_inv_register.
  assert (Ha1 : engine_inv a).
  { refine (for_loop_pres engine_inv probe_body probe_body_inv
              _ _ _ _ _ Ha).
    unfold engine_inv; cbn; constructor. }
  destruct sd; inv_ok; try exact Ha1.
  eapply (for_loop_pres engine_inv); [|exact Ha1|exact Ha0].
  intros k e1 e2 He1 Hb. unfold clear_int_body in Hb. inv_ok. exact He1.
Qed.

Lemma step_inv cpu_be e a e' :
  engine_inv e -> step cpu_be e a = Ok e' -> engine_inv e'.
Proof.
  intros He. destruct a; cbn [step]; intros H.
  - eapply on_chan_inv; [exact He| |exact H].
    intros c c' evs Hc Hf. cbv beta in Hf. inv_ok.
    apply (chan_inv_same_core c); [repeat split | exact Hc].
  - eapply on_chan_inv; [exact He| |exact H].
    intros c c' evs _. apply fsl_edma_free_chan_resources_inv.
  - eapply on_chan_inv; [exact He| |exact H].
    intros c c' evs Hc Hf. cbv beta in Hf. inv_ok. apply fsl_edma_slave_config_inv. exact Hc.
  - eapply on_chan_inv; [exact He| |exact H].
    intros c c' evs Hc Hf. cbv beta in Hf. eapply submit_inv; [|exact Hc|exact Hf].
    intros od c1. apply fsl_edma_prep_slave_sg_core.
  - eapply on_chan_inv; [exact He| |exact H].
    intros c c' evs Hc Hf. cbv beta in Hf. eapply submit_inv; [|exact Hc|exact Hf].
    intros od c1. apply fsl_edma_prep_dma_cyclic_core.
  - eapply on_chan_inv; [exact He| |exact H].
    intros c c' evs. apply fsl_edma_issue_pending_inv.
  - eapply on_chan_inv; [exact He| |exact H].
    intros c c' evs Hc Hf. cbv beta in Hf. inv_ok.
    replace c' with (fst (fsl_edma_pause e c)) by (rewrite Hf; reflexivity).
    apply fsl_edma_pause_inv. exact Hc.
  - eapply on_chan_inv; [exact He| |exact H].
    intros c c' evs Hc Hf. cbv beta in Hf. inv_ok.
    replace c' with (fst (fsl_edma_resume e c)) by (rewrite Hf; reflexivity).
    apply fsl_edma_resume_inv. exact Hc.
  - eapply on_chan_inv; [exact He| |exact H].
    intros c c' evs _. apply fsl_edma_terminate_all_inv.
  - eapply on_chan_inv; [exact He| |exact H].
    intros c c' evs Hc Hf. cbv beta in Hf. inv_ok. eapply vchan_complete_inv; eassumption.
  - inv_ok. destruct a as [r e1]. eapply fsl_edma_tx_handler_inv; eassumption.
  - inv_ok. destruct a as [r e1]. eapply fsl_edma_err_handler_inv; eassumption.
  - inv_ok. destruct a as [r e1]. unfold fsl_edma_irq_handler in Ha. inv_ok.
    destruct a as [r0 e0].
    destruct r0; inv_ok.
    + eapply fsl_edma_err_handler_inv; [|exact Ha].
      eapply fsl_edma_tx_handler_inv; eassumption.
    + eapply fsl_edma_tx_handler_inv; eassumption.
  - inv_ok. destruct a as [r e1]. eapply fsl_edma3_tx_handler_inv; eassumption.
  - inv_ok. destruct a as [r e1]. eapply fsl_edma3_err_handler_inv; eassumption.
  - inv_ok. destruct a as [r e1]. unfold fsl_edma3_irq_handler in Ha. inv_ok.
    destruct a as [r0 e0].
    destruct r0; inv_ok.
    + eapply fsl_edma3_err_handler_inv; [|exact Ha].
      eapply fsl_edma3_tx_handler_inv; eassumption.
    + eapply fsl_edma3_tx_handler_inv; eassumption.
  - unfold fsl_edma_suspend_late in H.
    eapply (for_loop_pres engine_inv); [|exact He|exact H].
    intros k e1 e2. apply suspend_late_body_inv.
  - unfold fsl_edma_resume_early in H. inv_ok.
    apply engine_inv_emit.
    eapply (for_loop_pres engine_inv); [|exact He|exact Ha].
    intros k e1 e2. apply resume_early_body_inv.
Qed.

Lemma run_reachable cpu_be l :
  forall e e', reachable cpu_be e -> run cpu_be e l = Ok e' -> reachable cpu_be e'.
Proof.
  induction l as [|a l IH]; intros e e' Hr H; cbn in H; inv_ok.
  - exact Hr.
  - eapply IH; [|exact H]. eapply reachable_step; eassumption.
Qed.

Lemma ex_run_reachable l e : ex_run l = Ok e -> reachable false e.
Proof.
  unfold ex_run. intros H. inv_ok.
  eapply run_reachable; [|exact H].
  unfold ex_probe in Ha. eapply reachable_probe. exact Ha.
Qed.

Lemma reachable_engine_inv cpu_be e : reachable cpu_be e -> engine_inv e.
Proof.
  induction 1 as [mb mx n be sd e Hp | e a e' _ IH Hs].
  - eapply fsl_edma_probe_inv. exact Hp.
  - eapply step_inv; eassumption.
Qed.

Lemma ex_engine_active_run : ex_run ex_calls_active = Ok ex_engine_active.
Proof. vm_compute. reflexivity. Qed.

Lemma ex_engine_terminated_run :
  ex_run ex_calls_terminated = Ok ex_engine_terminated.
Proof. vm_compute. reflexivity. Qed.

Lemma ex_engine_error_run : ex_run ex_calls_error = Ok ex_engine_error.
Proof. vm_compute. reflexivity. Qed.

Lemma ex_engine_two_run : ex_run ex_calls_two = Ok ex_engine_two.
Proof. vm_compute. reflexivity. Qed.

Lemma ex_engine_cyclic_rx_run :
  ex_run ex_calls_cyclic_rx = Ok ex_engine_cyclic_rx.
Proof. vm_compute. reflexivity. Qed.

(** C5, as stated, fails in both directions.  After [terminate_all] on a
    running channel the active descriptor is gone and the status still
    reads in progress; after an error interrupt the status is error and the
    active descriptor is still there. *)
Lemma active_iff_busy_counterexample :
  (reachable false ex_engine_terminated /\
   chans ex_engine_terminated !! 0%nat = Some (chan0_of ex_engine_terminated) /\
   edesc (chan0_of ex_engine_terminated) = None /\
   status (chan0_of ex_engine_terminated) = DMA_IN_PROGRESS /\
   ~ active_iff_busy (chan0_of ex_engine_terminated)) /\
  (reachable false ex_engine_error /\
   chans ex_engine_error !! 0%nat = Some (chan0_of ex_engine_error) /\
   edesc (chan0_of ex_engine_error) <> None /\
   status (chan0_of ex_engine_error) = DMA_ERROR /\
   ~ active_iff_busy (chan0_of ex_engine_error)).
Proof.
  split.
  - split; [exact (ex_run_reachable _ _ ex_engine_terminated_run)|].
    split; [reflexivity|]. split; [reflexivity|]. split; [reflexivity|].
    intros [_ H]. apply H; [left; reflexivity | reflexivity].
  - split; [exact (ex_run_reachable _ _ ex_engine_error_run)|].
    split; [reflexivity|]. split; [discriminate|]. split; [reflexivity|].
    intros [H _].
    destruct (H ltac:(discriminate)) as [E|E]; discriminate E.
Qed.

(** C5, amended: in every state the driver reaches, a channel with an
    active descriptor has status in progress, paused or error, and that
    descriptor is the one at the head of the issued queue, so a channel
    never has more than one active transfer.  (The converse is not claimed:
    the status is not reset when the descriptor is dropped.) *)
Theorem reachable_chan_inv (cpu_be : bool) (e : fsl_edma_engine) (ch : nat)
    (c : fsl_edma_chan) :
  reachable cpu_be e ->
  chans e !! ch = Some c ->
  (edesc c <> None ->
   status c = DMA_IN_PROGRESS \/ status c = DMA_PAUSED \/ status c = DMA_ERROR) /\
  (forall d, edesc c = Some d -> head (desc_issued (vchan c)) = Some d).
Proof.
  intros Hr Hc.
  pose proof (engine_inv_lookup e ch c (reachable_engine_inv cpu_be e Hr) Hc)
    as Hinv.
  split.
  - intros Hne. destruct (edesc c) as [d|] eqn:Ed; [|contradiction].
    exact (proj2 (Hinv d Ed)).
  - intros d Ed. exact (proj1 (Hinv d Ed)).
Qed.

Lemma reachable_chan_inv_witness :
  reachable false ex_engine_active /\
  edesc (chan0_of ex_engine_active) <> None /\
  status (chan0_of ex_engine_active) = DMA_IN_PROGRESS /\
  head (desc_issued (vchan (chan0_of ex_engine_active))) =
    edesc (chan0_of ex_engine_active).
Proof.
  pose proof (ex_run_reachable _ _ ex_engine_active_run) as Hr.
  pose proof (reachable_chan_inv false ex_engine_active 0
                (chan0_of ex_engine_active) Hr eq_refl) as [_ Hh].
  split; [exact Hr|]. split; [discriminate|]. split; [reflexivity|].
  destruct (edesc (chan0_of ex_engine_active)) as [d|] eqn:Ed.
  - exact (Hh d eq_refl).
  - discriminate Ed.
Defined.

Lemma ex_engine_suspended_run :
  ex_run ex_calls_suspended = Ok ex_engine_suspended.
Proof. vm_compute. reflexivity. Qed.

(** A request is submitted, the system suspends, and the client issues. *)
Lemma fsl_edma_issue_pending_suspended_witness :
  length (desc_submitted (vchan (chan0_of ex_engine_suspended))) = 1%nat /\
  step false ex_engine_suspended (call_issue_pending 0) = Ok ex_engine_suspended.
Proof.
  split; [reflexivity|].
  apply (fsl_edma_issue_pending_suspended false ex_engine_suspended 0
           (chan0_of ex_engine_suspended)); reflexivity.
Defined.

(** ** Counted loops *)

Lemma for_loop_ind {St : Type} (P : nat -> St -> Prop)
    (body : nat -> St -> result St) (n : nat) :
  forall i s s',
    (forall k s1 s2, (i <= k < i + n)%nat -> P k s1 -> body k s1 = Ok s2 ->
                     P (S k) s2) ->
    P i s ->
    for_loop body n i s = Ok s' ->
    P (i + n)%nat s'.
Proof.
  induction n as [|n IH]; intros i s s' Hb Hi H; cbn in H; inv_ok.
  - rewrite Nat.add_0_r. exact Hi.
  - replace (i + S n)%nat with (S i + n)%nat by lia.
    eapply IH; [| |exact H].
    + intros k s1 s2 Hk. apply Hb. lia.
    + eapply Hb; [|exact Hi|exact Ha]. lia.
Qed.

Lemma for_loop_total {St : Type} (P : nat -> St -> Prop)
    (body : nat -> St -> result St) (n : nat) :
  forall i s,
    (forall k s1, (i <= k < i + n)%nat -> P k s1 ->
                  exists s2, body k s1 = Ok s2 /\ P (S k) s2) ->
    P i s ->
    exists s', for_loop body n i s = Ok s' /\ P (i + n)%nat s'.
Proof.
  induction n as [|n IH]; intros i s Hb Hi; cbn [for_loop].
  - exists s. rewrite Nat.add_0_r. split; [reflexivity | exact Hi].
  - destruct (Hb i s ltac:(lia) Hi) as (s2 & E & H2).
    rewrite E. cbn [mbind result_bind].
    replace (i + S n)%nat with (S i + n)%nat by lia.
    apply IH; [|exact H2].
    intros k s1 Hk. apply Hb. lia.
Qed.

(** ** Allocation *)

Lemma alloc_tcds_Some n :
  forall pool got tcds pool',
    alloc_tcds n pool got = (Some tcds, pool') ->
    tcds ++ pool' = got ++ pool /\ length tcds = (length got + n)%nat.
Proof.
  induction n as [|n IH]; intros pool got tcds pool' H; cbn in H.
  - injection H as <- <-. split; [reflexivity | lia].
  - destruct pool as [|b rest]; cbn in H; [discriminate|].
    apply IH in H. destruct H as [H1 H2].
    rewrite <- app_assoc in H1. cbn in H1.
    rewrite length_app in H2. cbn in H2. split; [exact H1 | lia].
Qed.

Lemma alloc_tcds_enough n :
  forall pool got,
    (n <= length pool)%nat ->
    exists tcds pool', alloc_tcds n pool got = (Some tcds, pool').
Proof.
  induction n as [|n IH]; intros pool got Hn; cbn.
  - eauto.
  - destruct pool as [|b rest]; cbn in Hn; [lia|]. cbn.
    apply IH. lia.
Qed.

Lemma fsl_edma_alloc_desc_Some kz c n d c' :
  fsl_edma_alloc_desc kz c n = (Some d, c') ->
  kz = true /\
  length (tcd d) = Z.to_nat n /\ n_tcds d = u32 n /\
  iscyclic d = false /\
  tcd d ++ tcd_pool c' = tcd_pool c.
Proof.
  unfold fsl_edma_alloc_desc. destruct kz; cbn [negb]; [|discriminate].
  destruct (alloc_tcds _ _ _) as [[tcds|] pool] eqn:E; [|discriminate].
  intros H. injection H as <- <-.
  apply alloc_tcds_Some in E. destruct E as [E1 E2]. cbn in *.
  repeat split; assumption.
Qed.

Lemma pool_fits_u32_alloc kz c n d c' :
  pool_fits_u32 (tcd_pool c) ->
  fsl_edma_alloc_desc kz c n = (Some d, c') ->
  Forall (fun p => 0 <= p < 2 ^ 32) (ptcd <$> tcd d).
Proof.
  intros Hp H. apply fsl_edma_alloc_desc_Some in H.
  destruct H as (_ & _ & _ & _ & E).
  unfold pool_fits_u32 in Hp. rewrite <- E in Hp.
  apply Forall_app in Hp. destruct Hp as [Hp _].
  apply Forall_fmap. exact Hp.
Qed.

Lemma fmap_ptcd_insert (tcds : list fsl_edma_sw_tcd) (i : nat) cur t :
  tcds !! i = Some cur ->
  ptcd <$> <[i := mk_sw_tcd (ptcd cur) t]> tcds = ptcd <$> tcds.
Proof.
  intros H. rewrite list_fmap_insert. cbn [ptcd].
  apply list_insert_id. rewrite list_lookup_fmap, H. reflexivity.
Qed.

(** ** The scatter-gather chain *)

Lemma loop_inv_insert (Q : nat -> fsl_edma_sw_tcd -> Prop) (ps : list Z)
    (k : nat) (tcds : list fsl_edma_sw_tcd) cur t :
  ptcd <$> tcds = ps ->
  (forall j, (j < k)%nat -> exists t0, tcds !! j = Some t0 /\ Q j t0) ->
  tcds !! k = Some cur ->
  Q k (mk_sw_tcd (ptcd cur) t) ->
  ptcd <$> <[k := mk_sw_tcd (ptcd cur) t]> tcds = ps /\
  forall j, (j < S k)%nat ->
    exists t0, <[k := mk_sw_tcd (ptcd cur) t]> tcds !! j = Some t0 /\ Q j t0.
Proof.
  intros Hps Hdone Hcur HQ. split.
  - rewrite fmap_ptcd_insert by exact Hcur. exact Hps.
  - intros j Hj. destruct (Nat.eq_dec j k) as [->|Hne].
    + exists (mk_sw_tcd (ptcd cur) t). split; [|exact HQ].
      apply list_lookup_insert_eq. eapply lookup_lt_Some. exact Hcur.
    + rewrite list_lookup_insert_ne by congruence.
      apply Hdone. lia.
Qed.

Lemma ps_lookup (tcds : list fsl_edma_sw_tcd) (ps : list Z) (i : nat) t :
  ptcd <$> tcds = ps -> tcds !! i = Some t -> ps !! i = Some (ptcd t).
Proof. intros <- H. rewrite list_lookup_fmap, H. reflexivity. Qed.

Lemma u32_idem x : u32 (u32 x) = u32 x.
Proof. unfold u32. apply Z.mod_mod. lia. Qed.

Lemma sg_loop_body_inv cpu_be c sgl sg_len nb ps k tcds tcds' :
  sg_loop_inv cpu_be sg_len ps k tcds ->
  sg_loop_body cpu_be c sgl sg_len nb k tcds = Ok tcds' ->
  sg_loop_inv cpu_be sg_len ps (S k) tcds'.
Proof.
  intros [Hps Hdone] H. unfold sg_loop_body in H.
  inv_ok.
  destruct (dir_eqb _ _); cbv beta iota zeta in H; inv_ok;
    (destruct (u32 (Z.of_nat k) <? u32 (sg_len - 1)) eqn:Elt; inv_ok;
     apply loop_inv_insert; try assumption; try reflexivity;
     (split; [cbn [ptcd]; eapply ps_lookup; [reflexivity | eassumption]|]);
     cbn [vtcd]; rewrite tcd_decode_fill; cbv zeta; rewrite Elt;
     cbn [f_enable_sg f_major_int f_disable_req f_dlast_sga];
     repeat (split; [reflexivity|]));
    try reflexivity;
    (eexists; split; [eapply ps_lookup; [reflexivity | eassumption]|];
     apply u32_idem).
Qed.

Lemma sg_loop_spec cpu_be c sgl sg_len nb n tcds tcds' :
  for_loop (sg_loop_body cpu_be c sgl sg_len nb) n 0 tcds = Ok tcds' ->
  sg_loop_inv cpu_be sg_len (ptcd <$> tcds) n tcds'.
Proof.
  intros H.
  apply (for_loop_ind (sg_loop_inv cpu_be sg_len (ptcd <$> tcds))
           (sg_loop_body cpu_be c sgl sg_len nb) n 0 tcds tcds');
    [|split; [reflexivity | intros j Hj; lia] | exact H].
  intros k s1 s2 _. apply sg_loop_body_inv.
Qed.

(** The loop goes through when the list has [sg_len] segments, the
    minor-loop byte count is not zero and the array has [sg_len] blocks. *)
Lemma sg_loop_body_total cpu_be c sgl sg_len nb k tcds :
  1 <= sg_len < 2 ^ 31 -> nb <> 0 ->
  Z.of_nat k < sg_len ->
  (Z.to_nat sg_len <= length sgl)%nat ->
  length tcds = Z.to_nat sg_len ->
  exists tcds', sg_loop_body cpu_be c sgl sg_len nb k tcds = Ok tcds' /\
                length tcds' = Z.to_nat sg_len.
Proof.
  intros Hk Hnb Hi Hsgl Hlen. unfold sg_loop_body.
  destruct (lookup_lt_is_Some_2 sgl k ltac:(lia)) as [sg Hsg].
  rewrite Hsg. cbn [deref mbind result_bind].
  unfold umod, udiv.
  destruct (Z.eqb_spec sg_len 0) as [E|_]; [lia|]. cbn [mbind result_bind].
  pose proof (Z.mod_pos_bound (u32 (Z.of_nat k + 1)) sg_len ltac:(lia)) as Hm.
  destruct (lookup_lt_is_Some_2 tcds
              (Z.to_nat (u32 (Z.of_nat k + 1) `mod` sg_len)) ltac:(lia))
    as [nxt Hnxt].
  rewrite Hnxt. cbn [deref mbind result_bind].
  destruct (lookup_lt_is_Some_2 tcds k ltac:(lia)) as [cur Hcur].
  destruct (dir_eqb _ _); cbv beta iota zeta;
    (destruct (Z.eqb_spec nb 0) as [E|_]; [contradiction|]);
    cbn [mbind result_bind]; rewrite Hcur; cbn [deref mbind result_bind];
    (destruct (Z.ltb_spec (u32 (Z.of_nat k)) (u32 (sg_len - 1))) as [Hlt|Hge];
     [ rewrite !u32_small in Hlt by lia;
       destruct (lookup_lt_is_Some_2 tcds (S k) ltac:(lia)) as [n1 Hn1];
       rewrite Hn1; cbn [deref mbind result_bind mret result_ret]
     | cbn [mbind result_bind mret result_ret] ];
     eexists; (split; [reflexivity|]); rewrite length_insert; exact Hlen).
Qed.

Lemma int_u32_pos sg_len :
  0 <= sg_len < 2 ^ 32 -> 0 < int sg_len -> sg_len < 2 ^ 31 /\ int sg_len = sg_len.
Proof.
  intros Hr Hpos. unfold int in *.
  destruct (Z_lt_le_dec sg_len (2 ^ 31)) as [Hlt|Hge].
  - split; [exact Hlt|]. rewrite Z.mod_small by lia. lia.
  - exfalso.
    replace (sg_len + 2 ^ 31) with (sg_len - 2 ^ 31 + 1 * 2 ^ 32) in Hpos by lia.
    rewrite Z.mod_add in Hpos by lia.
    rewrite Z.mod_small in Hpos by lia. lia.
Qed.

Lemma pool_fits_lookup (ps : list Z) (i : nat) p :
  Forall (fun p => 0 <= p < 2 ^ 32) ps -> ps !! i = Some p -> u32 p = p.
Proof.
  intros Hf Hp. apply u32_small.
  rewrite Forall_lookup in Hf. exact (Hf i p Hp).
Qed.

(** C2: a scatter-gather descriptor over [sg_len >= 1] segments is built
    whenever the channel has a slave direction, memory is available, the
    list has [sg_len] segments and the minor-loop byte count is not zero; and
    every descriptor that is built has exactly [sg_len] TCD entries, each
    entry but the last has the scatter-gather flag set and links to the bus
    address of the next entry, and the last entry has disable-on-complete and
    major-interrupt set, scatter-gather clear and a zero link.  The pool is
    assumed to hand out bus addresses that fit the 32-bit link field. *)
Theorem fsl_edma_prep_slave_sg_chain (cpu_be kz : bool) (c : fsl_edma_chan)
    (sgl : list scatterlist) (sg_len : Z) :
  1 <= sg_len < 2 ^ 32 ->
  pool_fits_u32 (tcd_pool c) ->
  (is_slave_direction (dir (fsc c)) = true -> kz = true ->
   sg_len <= INT_MAX ->
   (Z.to_nat sg_len <= length sgl)%nat ->
   (Z.to_nat sg_len <= length (tcd_pool c))%nat ->
   u32 (addr_width (fsc c) * burst (fsc c)) <> 0 ->
   exists d c', fsl_edma_prep_slave_sg cpu_be kz c sgl sg_len = Ok (Some d, c')) /\
  (forall d c',
     fsl_edma_prep_slave_sg cpu_be kz c sgl sg_len = Ok (Some d, c') ->
     is_slave_direction (dir (fsc c)) = true /\
     iscyclic d = false /\
     n_tcds d = sg_len /\
     length (tcd d) = Z.to_nat sg_len /\
     (forall i, 0 <= i < sg_len - 1 ->
        exists t nxt,
          tcd d !! Z.to_nat i = Some t /\
          tcd d !! Z.to_nat (i + 1) = Some nxt /\
          f_enable_sg (tcd_decode cpu_be (vtcd t)) = true /\
          f_dlast_sga (tcd_decode cpu_be (vtcd t)) = ptcd nxt) /\
     (exists t,
        tcd d !! Z.to_nat (sg_len - 1) = Some t /\
        f_disable_req (tcd_decode cpu_be (vtcd t)) = true /\
        f_major_int (tcd_decode cpu_be (vtcd t)) = true /\
        f_enable_sg (tcd_decode cpu_be (vtcd t)) = false /\
        f_dlast_sga (tcd_decode cpu_be (vtcd t)) = 0)).
Proof.
  intros Hk Hfit. split.
  - intros Hdir -> Hmax Hsgl Hpool Hnb. unfold INT_MAX in Hmax.
    unfold fsl_edma_prep_slave_sg. rewrite Hdir. cbn [negb].
    rewrite int_small by lia.
    unfold fsl_edma_alloc_desc. cbn [negb].
    destruct (alloc_tcds_enough (Z.to_nat sg_len) (tcd_pool c) [] Hpool)
      as (tcds & pool' & Ea).
    rewrite Ea. cbn [tcd].
    pose proof (alloc_tcds_Some _ _ _ _ _ Ea) as [_ Hlen]. cbn in Hlen.
    destruct (for_loop_total
                (fun _ s => length s = Z.to_nat sg_len)
                (sg_loop_body cpu_be c sgl sg_len
                   (u32 (addr_width (fsc c) * burst (fsc c))))
                (Z.to_nat sg_len) 0 tcds) as (tcds' & El & _).
    + intros k s1 Hkr Hs1. apply sg_loop_body_total; try assumption; lia.
    + exact Hlen.
    + rewrite El. cbn [mbind result_bind mret result_ret]. eauto.
  - intros d c' H. unfold fsl_edma_prep_slave_sg in H.
    destruct (is_slave_direction (dir (fsc c))) eqn:Hdir; cbn [negb] in H;
      [|inv_ok; discriminate].
    destruct (fsl_edma_alloc_desc kz c (int sg_len)) as [[d0|] c1] eqn:Ea;
      [|inv_ok; discriminate].
    inv_ok.
    pose proof (pool_fits_u32_alloc _ _ _ _ _ Hfit Ea) as Hps.
    apply fsl_edma_alloc_desc_Some in Ea.
    destruct Ea as (_ & Hlen0 & Hn0 & _ & _).
    apply sg_loop_spec in Ha. destruct Ha as [Hptcd Hent].
    assert (Hlen : length a = length (tcd d0)).
    { rewrite <- (length_fmap ptcd a), Hptcd, length_fmap. reflexivity. }
    assert (Hpos : 0 < int sg_len).
    { destruct (Hent 0%nat ltac:(lia)) as (t0 & Ht0 & _).
      apply lookup_lt_Some in Ht0. lia. }
    destruct (int_u32_pos sg_len ltac:(lia) Hpos) as [Hlt Hint].
    rewrite Hint in *.
    cbn [iscyclic n_tcds tcd].
    split; [reflexivity|]. split; [reflexivity|].
    split; [rewrite Hn0; apply u32_small; lia|].
    split; [lia|]. split.
    + intros i Hi.
      destruct (Hent (Z.to_nat i) ltac:(lia)) as (t & Ht & _ & Hsh).
      destruct (Hent (Z.to_nat (i + 1)) ltac:(lia)) as (nxt & Hnxt & Hpn & _).
      exists t, nxt. split; [exact Ht|]. split; [exact Hnxt|].
      cbv zeta in Hsh. rewrite Z2Nat.id in Hsh by lia.
      rewrite (u32_small i), (u32_small (sg_len - 1)) in Hsh by lia.
      destruct (Z.ltb_spec i (sg_len - 1)) as [_|Hge]; [|lia].
      destruct Hsh as (Hsg & _ & _ & p & Hp & Hlk).
      split; [exact Hsg|].
      replace (S (Z.to_nat i)) with (Z.to_nat (i + 1)) in Hp by lia.
      rewrite Hlk. rewrite Hpn in Hp. injection Hp as <-.
      eapply pool_fits_lookup; eassumption.
    + destruct (Hent (Z.to_nat (sg_len - 1)) ltac:(lia)) as (t & Ht & _ & Hsh).
      exists t. split; [exact Ht|].
      cbv zeta in Hsh. rewrite Z2Nat.id in Hsh by lia.
      rewrite (u32_small (sg_len - 1)) in Hsh by lia.
      rewrite Z.ltb_irrefl in Hsh.
      destruct Hsh as (Hsg & Hmi & Hdr & Hlk). auto.
Qed.

Lemma ex_pool_fits : pool_fits_u32 ex_pool.
Proof. unfold pool_fits_u32, ex_pool. repeat constructor; cbn; lia. Qed.

(** Two segments of 64 bytes on the example channel. *)
Lemma fsl_edma_prep_slave_sg_chain_witness :
  exists d c',
    fsl_edma_prep_slave_sg false true ex_chan_tx ex_sgl2 2 = Ok (Some d, c') /\
    length (tcd d) = 2%nat.
Proof.
  destruct (fsl_edma_prep_slave_sg_chain false true ex_chan_tx ex_sgl2 2
              ltac:(lia) ex_pool_fits) as [Hex Hshape].
  destruct Hex as (d & c' & E);
    [reflexivity | reflexivity | vm_compute; discriminate | cbn; lia | cbn; lia
    | vm_compute; discriminate |].
  exists d, c'. split; [exact E|].
  destruct (Hshape d c' E) as (_ & _ & _ & Hlen & _). exact Hlen.
Defined.

(** ** The cyclic ring *)

Lemma u16_land_7fff x : u16 (Z.land x 0x7FFF) = Z.land x 0x7FFF.
Proof. apply u16_small. pose proof (land_7fff_range x). lia. Qed.

Lemma cyclic_loop_body_inv cpu_be c dma_addr buf_len period_len sg_len nb iter
    ps k st st' :
  Z.of_nat k < sg_len <= INT_MAX ->
  cyclic_loop_inv cpu_be sg_len iter ps k st ->
  cyclic_loop_body cpu_be c dma_addr buf_len period_len sg_len nb iter k st =
    Ok st' ->
  cyclic_loop_inv cpu_be sg_len iter ps (S k) st'.
Proof.
  intros Hk [Hps Hdone] H. unfold INT_MAX in Hk.
  destruct st as [dma_buf_next tcds]. cbn [snd] in *.
  unfold cyclic_loop_body in H. cbv zeta in H.
  inv_ok.
  rewrite int_small in Ha0 by lia.
  destruct (dir_eqb _ _); cbv beta iota zeta in H; inv_ok;
    unfold cyclic_loop_inv; cbn [snd];
    (apply loop_inv_insert; try assumption; try reflexivity;
     (split; [cbn [ptcd]; eapply ps_lookup; [reflexivity | eassumption]|]);
     cbn [vtcd]; rewrite tcd_decode_fill; cbv zeta;
     cbn [f_enable_sg f_major_int f_disable_req f_dlast_sga f_citer f_biter];
     rewrite u16_land_7fff;
     repeat (split; [reflexivity|]);
     eexists; split; [eapply ps_lookup; [reflexivity | eassumption]|];
     apply u32_idem).
Qed.

Lemma cyclic_loop_spec cpu_be c dma_addr buf_len period_len sg_len nb iter
    tcds st' :
  sg_len <= INT_MAX ->
  for_loop (cyclic_loop_body cpu_be c dma_addr buf_len period_len sg_len nb iter)
    (Z.to_nat sg_len) 0 (dma_addr, tcds) = Ok st' ->
  cyclic_loop_inv cpu_be sg_len iter (ptcd <$> tcds) (Z.to_nat sg_len) st'.
Proof.
  intros Hmax H.
  apply (for_loop_ind
           (cyclic_loop_inv cpu_be sg_len iter (ptcd <$> tcds))
           (cyclic_loop_body cpu_be c dma_addr buf_len period_len sg_len nb iter)
           (Z.to_nat sg_len) 0 (dma_addr, tcds) st');
    [|split; [reflexivity | intros j Hj; lia] | exact H].
  intros k s1 s2 Hk. apply cyclic_loop_body_inv. lia.
Qed.

Lemma cyclic_loop_body_total cpu_be c dma_addr buf_len period_len sg_len nb iter
    k st :
  Z.of_nat k < sg_len <= INT_MAX ->
  length (snd st) = Z.to_nat sg_len ->
  exists st',
    cyclic_loop_body cpu_be c dma_addr buf_len period_len sg_len nb iter k st =
      Ok st' /\
    length (snd st') = Z.to_nat sg_len.
Proof.
  intros Hk Hlen. unfold INT_MAX in Hk. destruct st as [dma_buf_next tcds].
  cbn [snd] in Hlen. unfold cyclic_loop_body. cbv zeta.
  unfold umod. destruct (Z.eqb_spec sg_len 0) as [E|_]; [lia|].
  cbn [mbind result_bind]. rewrite int_small by lia.
  pose proof (Z.mod_pos_bound (Z.of_nat k + 1) sg_len ltac:(lia)) as Hm.
  destruct (lookup_lt_is_Some_2 tcds
              (Z.to_nat ((Z.of_nat k + 1) `mod` sg_len)) ltac:(lia))
    as [nxt Hnxt].
  rewrite Hnxt. cbn [deref mbind result_bind].
  destruct (lookup_lt_is_Some_2 tcds k ltac:(lia)) as [cur Hcur].
  destruct (dir_eqb _ _); cbv beta iota zeta;
    rewrite Hcur; cbn [deref mbind result_bind mret result_ret];
    eexists; (split; [reflexivity|]); cbn [snd];
    rewrite length_insert; exact Hlen.
Qed.

(** C3, as stated, fails: with a one-byte width and burst 1, a period of
    32768 bytes is 32768 iterations, but the entry's count is 0, since the
    CITER and BITER fields hold 15 bits. *)
Lemma cyclic_iter_count_counterexample :
  exists d c' t,
    fsl_edma_prep_dma_cyclic false true ex_chan_byte 0x20000 65536 32768 =
      Ok (Some d, c') /\
    65536 mod 32768 = 0 /\
    tcd d !! 0%nat = Some t /\
    32768 / (addr_width (fsc ex_chan_byte) * burst (fsc ex_chan_byte)) = 32768 /\
    f_citer (tcd_decode false (vtcd t)) = 0 /\
    f_citer (tcd_decode false (vtcd t)) <>
      32768 / (addr_width (fsc ex_chan_byte) * burst (fsc ex_chan_byte)).
Proof.
  eexists _, _, _.
  split; [vm_compute; reflexivity|].
  split; [reflexivity|].
  split; [reflexivity|].
  split; [reflexivity|].
  split; [vm_compute; reflexivity|].
  vm_compute. discriminate.
Qed.

(** C3, amended: a cyclic descriptor is built whenever the channel has a
    slave direction, memory is available and neither the period nor the
    minor-loop byte count is zero; and every cyclic descriptor that is built
    for a buffer of [buf_len] bytes in periods of [period_len] has exactly
    [buf_len / period_len] TCD entries forming a ring (entry [i] links to the
    bus address of entry [(i + 1) mod n]), every entry has major-interrupt
    and scatter-gather set and disable-on-complete clear, and its iteration
    counts are [period_len / (addr_width * burst)] reduced to the 16 bits of
    the local variable and then to the 15 bits of the field, which is that
    quotient itself whenever it is below 32768.  The entry count is assumed to
    fit an [int] and the pool to hand out 32-bit bus addresses. *)
Theorem fsl_edma_prep_dma_cyclic_ring (cpu_be kz : bool) (c : fsl_edma_chan)
    (dma_addr buf_len period_len : Z) :
  0 <= buf_len -> 0 <= period_len ->
  buf_len / period_len <= INT_MAX ->
  pool_fits_u32 (tcd_pool c) ->
  let n := buf_len / period_len in
  let nb := u32 (addr_width (fsc c) * burst (fsc c)) in
  (is_slave_direction (dir (fsc c)) = true -> kz = true ->
   period_len <> 0 -> nb <> 0 ->
   (Z.to_nat n <= length (tcd_pool c))%nat ->
   exists d c',
     fsl_edma_prep_dma_cyclic cpu_be kz c dma_addr buf_len period_len =
       Ok (Some d, c')) /\
  (forall d c',
     fsl_edma_prep_dma_cyclic cpu_be kz c dma_addr buf_len period_len =
       Ok (Some d, c') ->
     iscyclic d = true /\
     cyclic_len d = u32 buf_len /\
     n_tcds d = n /\
     length (tcd d) = Z.to_nat n /\
     (forall i, 0 <= i < n ->
        exists t nxt,
          tcd d !! Z.to_nat i = Some t /\
          tcd d !! Z.to_nat ((i + 1) mod n) = Some nxt /\
          f_dlast_sga (tcd_decode cpu_be (vtcd t)) = ptcd nxt /\
          f_major_int (tcd_decode cpu_be (vtcd t)) = true /\
          f_enable_sg (tcd_decode cpu_be (vtcd t)) = true /\
          f_disable_req (tcd_decode cpu_be (vtcd t)) = false /\
          f_citer (tcd_decode cpu_be (vtcd t)) =
            Z.land (u16 (period_len / nb)) 0x7FFF /\
          f_biter (tcd_decode cpu_be (vtcd t)) =
            Z.land (u16 (period_len / nb)) 0x7FFF) /\
     (0 <= addr_width (fsc c) * burst (fsc c) < 2 ^ 32 ->
      period_len / (addr_width (fsc c) * burst (fsc c)) < 2 ^ 15 ->
      Z.land (u16 (period_len / nb)) 0x7FFF =
        period_len / (addr_width (fsc c) * burst (fsc c)))).
Proof.
  intros Hbuf Hper Hmax Hfit n nb.
  assert (Hn0 : 0 <= n).
  { unfold n. destruct (Z.eq_dec period_len 0) as [->|Hne].
    - rewrite Z.div_0_r. lia.
    - apply Z.div_pos; lia. }
  pose proof Hmax as Hmax'. unfold INT_MAX in Hmax'. fold n in Hmax'.
  assert (Hint : int n = n) by (apply int_small; lia).
  split.
  - intros Hdir -> Hp Hnb Hpool.
    unfold fsl_edma_prep_dma_cyclic. rewrite Hdir. cbn [negb].
    unfold udiv. destruct (Z.eqb_spec period_len 0) as [E|_]; [contradiction|].
    cbn [mbind result_bind]. fold n. rewrite Hint.
    unfold fsl_edma_alloc_desc. cbn [negb].
    destruct (alloc_tcds_enough (Z.to_nat n) (tcd_pool c) [] Hpool)
      as (tcds & pool' & Ea).
    rewrite Ea. cbn [tcd]. fold nb.
    destruct (Z.eqb_spec nb 0) as [E|_]; [contradiction|].
    cbn [mbind result_bind].
    pose proof (alloc_tcds_Some _ _ _ _ _ Ea) as [_ Hlen]. cbn in Hlen.
    destruct (for_loop_total
                (fun _ s => length (snd s) = Z.to_nat n)
                (cyclic_loop_body cpu_be c dma_addr buf_len period_len n nb
                   (u16 (period_len / nb)))
                (Z.to_nat n) 0 (dma_addr, tcds)) as (st' & El & _).
    + intros k s1 Hkr Hs1. apply cyclic_loop_body_total; [|exact Hs1].
      fold n in Hmax. lia.
    + exact Hlen.
    + rewrite El. cbn [mbind result_bind mret result_ret]. eauto.
  - intros d c' H. unfold fsl_edma_prep_dma_cyclic in H.
    destruct (is_slave_direction (dir (fsc c))) eqn:Hdir; cbn [negb] in H;
      [|inv_ok; discriminate].
    inv_ok. fold n in H. rewrite Hint in H.
    destruct (fsl_edma_alloc_desc kz c n) as [[d0|] c1] eqn:Ea;
      [|inv_ok; discriminate].
    inv_ok. fold nb in Hnz0, Ha0 |- *.
    pose proof (pool_fits_u32_alloc _ _ _ _ _ Hfit Ea) as Hps.
    apply fsl_edma_alloc_desc_Some in Ea.
    destruct Ea as (_ & Hlen0 & Hnt & _ & _).
    apply cyclic_loop_spec in Ha0; [|fold n in Hmax; exact Hmax].
    destruct Ha0 as [Hptcd Hent].
    assert (Hlen : length (snd a0) = length (tcd d0)).
    { rewrite <- (length_fmap ptcd (snd a0)), Hptcd, length_fmap. reflexivity. }
    cbn [iscyclic cyclic_len n_tcds tcd].
    split; [reflexivity|]. split; [reflexivity|].
    split; [rewrite Hnt; apply u32_small; lia|].
    split; [lia|]. split.
    + intros i Hi.
      destruct (Hent (Z.to_nat i) ltac:(lia)) as (t & Ht & _ & Hsh).
      cbv zeta in Hsh. rewrite Z2Nat.id in Hsh by lia.
      destruct Hsh as (Hsg & Hmi & Hdr & Hci & Hbi & p & Hp & Hlk).
      pose proof (Z.mod_pos_bound (i + 1) n ltac:(lia)) as Hm.
      destruct (Hent (Z.to_nat ((i + 1) mod n)) ltac:(lia))
        as (nxt & Hnxt & Hpn & _).
      exists t, nxt. split; [exact Ht|]. split; [exact Hnxt|].
      split.
      { rewrite Hlk. rewrite Hpn in Hp. injection Hp as <-.
        eapply pool_fits_lookup; eassumption. }
      auto.
    + intros Hab Hq.
      assert (Enb : nb = addr_width (fsc c) * burst (fsc c))
        by (unfold nb; apply u32_small; exact Hab).
      rewrite <- Enb in Hq |- *.
      assert (0 <= period_len / nb) by (apply Z.div_pos; lia).
      rewrite u16_small by lia.
      rewrite land_7fff_mod. apply Z.mod_small. lia.
Qed.

(** 4096 bytes in periods of 1024 on the example channel. *)
Lemma fsl_edma_prep_dma_cyclic_ring_witness :
  exists d c',
    fsl_edma_prep_dma_cyclic false true ex_chan_tx 0x20000 4096 1024 =
      Ok (Some d, c') /\
    length (tcd d) = 4%nat.
Proof.
  destruct (fsl_edma_prep_dma_cyclic_ring false true ex_chan_tx 0x20000 4096
              1024 ltac:(lia) ltac:(lia) ltac:(vm_compute; discriminate)
              ex_pool_fits) as [Hex Hshape].
  destruct Hex as (d & c' & E);
    [reflexivity | reflexivity | lia | vm_compute; discriminate
    | vm_compute; lia |].
  exists d, c'. split; [exact E|].
  destruct (Hshape d c' E) as (_ & _ & _ & Hlen & _). exact Hlen.
Defined.

(** ** Residue *)

Lemma size_t_sub_idem a b : size_t (a - dma_addr_t b) = size_t (a - b).
Proof. unfold size_t, dma_addr_t. apply Zminus_mod_idemp_r. Qed.

Lemma edma_readl_range hw e a : 0 <= edma_readl hw e a < 2 ^ 32.
Proof. unfold edma_readl. destruct (big_endian e); apply u32_range. Qed.

(** C6 does not hold of the code.  For a cyclic transfer in a direction
    other than memory-to-device the buffer is on the destination side of
    the entries and the live address is read from the destination address
    register, yet line 486 subtracts the [saddr] word of the first entry,
    which holds the address of the device register, and loads it without
    [le32_to_cpu].  With the live address inside the buffer, the value
    returned is [cyclic_len] minus (live address minus device register) in
    the 64 bits of [size_t]: it is not the residue of the buffer, which the
    comment at line 484 and the loop for the other transfers take from the
    start of the buffer, and when the device register lies more than
    [cyclic_len] below the live address the difference is negative and the
    value returned is the difference plus 2^64. *)
Theorem fsl_edma_desc_residue_cyclic_from_device (cpu_be : bool) (hw : mmio)
    (e : fsl_edma_engine) (c : fsl_edma_chan) (vdesc : option fsl_edma_desc)
    (d : fsl_edma_desc) (t0 : fsl_edma_sw_tcd) :
  edesc c = Some d ->
  iscyclic d = true ->
  tcd d !! 0%nat = Some t0 ->
  dir (fsc c) <> DMA_MEM_TO_DEV ->
  let hw_tcd := edma_get_tcd_addr (ops (socdata e)) e c in
  let cur := edma_readl hw e (hw_tcd + hw_tcd_daddr) in
  let dev := cpu_load cpu_be (saddr (vtcd t0)) in
  let buf := rd_le32 cpu_be (daddr (vtcd t0)) in
  0 <= cyclic_len d < 2 ^ 32 ->
  0 <= dev < 2 ^ 32 ->
  buf <= cur < buf + cyclic_len d ->
  dev <> buf ->
  exists r,
    fsl_edma_desc_residue cpu_be hw e c vdesc true = Ok r /\
    r = size_t (cyclic_len d - (cur - dev)) /\
    r <> cyclic_len d - (cur - buf) /\
    (dev + cyclic_len d < cur ->
     cyclic_len d - (cur - dev) < 0 /\
     r = cyclic_len d - (cur - dev) + 2 ^ 64).
Proof.
  intros Hd Hcyc Ht0 Hdir hw_tcd cur dev buf Hlen Hdev Hin Hne.
  pose proof (edma_readl_range hw e (hw_tcd + hw_tcd_daddr)) as Hcur.
  fold cur in Hcur.
  exists (size_t (cyclic_len d - (cur - dev))).
  split; [|split; [reflexivity | split]].
  - unfold fsl_edma_desc_residue. rewrite Hd.
    cbn [deref mbind result_bind]. rewrite Hcyc.
    cbn [mret result_ret mbind result_bind negb]. rewrite Ht0.
    cbn [deref mbind result_bind mret result_ret].
    rewrite size_t_sub_idem.
    destruct (dir (fsc c)); try contradiction; reflexivity.
  - unfold size_t. intros Heq.
    pose proof (Z.div_mod (cyclic_len d - (cur - dev)) (2 ^ 64)
                  ltac:(lia)) as Hdm.
    rewrite Heq in Hdm. lia.
  - intros Hlow. split; [lia|].
    unfold size_t.
    rewrite <- (Z.mod_add _ 1 (2 ^ 64)) by lia.
    rewrite Z.mod_small by lia. lia.
Qed.

(** A cyclic receive of 4096 bytes into the buffer at 0x80000000 from the
    device register at 0x40000000, the engine 1024 bytes in: 3072 bytes
    remain, and the value returned is above 2^63. *)
Lemma fsl_edma_desc_residue_cyclic_from_device_witness :
  let e := ex_engine_cyclic_rx in
  let c := chan0_of e in
  let hw := ex_hw (EDMA_TCD 0 + hw_tcd_daddr) 0x80000400 in
  reachable false e /\
  status c = DMA_IN_PROGRESS /\ dir (fsc c) = DMA_DEV_TO_MEM /\
  fsl_edma_desc_residue false hw e c None true = Ok 0xFFFFFFFFC0000C00 /\
  0xFFFFFFFFC0000C00 <> 4096 - (0x80000400 - 0x80000000).
Proof.
  cbv zeta.
  split; [exact (ex_run_reachable _ _ ex_engine_cyclic_rx_run)|].
  split; [reflexivity|]. split; [reflexivity|].
  destruct (edesc (chan0_of ex_engine_cyclic_rx)) as [d|] eqn:Ed;
    [|discriminate Ed].
  destruct (tcd d !! 0%nat) as [t0|] eqn:Et;
    [|injection Ed as <-; discriminate Et].
  destruct (fsl_edma_desc_residue_cyclic_from_device false
              (ex_hw (EDMA_TCD 0 + hw_tcd_daddr) 0x80000400)
              ex_engine_cyclic_rx (chan0_of ex_engine_cyclic_rx) None d t0
              Ed
              ltac:(injection Ed as <-; reflexivity)
              Et
              ltac:(discriminate)
              ltac:(injection Ed as <-; vm_compute; split; congruence)
              ltac:(injection Ed as <-; injection Et as <-;
                    vm_compute; split; congruence)
              ltac:(injection Ed as <-; injection Et as <-;
                    vm_compute; split; congruence)
              ltac:(injection Ed as <-; injection Et as <-;
                    vm_compute; congruence))
    as (r & Hr & Heq & Hne & _).
  split.
  - rewrite Hr, Heq. injection Ed as <-. injection Et as <-.
    vm_compute. reflexivity.
  - vm_compute. discriminate.
Defined.

(** The descriptor passed to [fsl_edma_desc_residue] plays no part in the
    result. *)
Lemma fsl_edma_desc_residue_ignores_vdesc cpu_be hw e c v v' b :
  fsl_edma_desc_residue cpu_be hw e c v b =
  fsl_edma_desc_residue cpu_be hw e c v' b.
Proof. reflexivity. Qed.

(** C7 does not hold of the code.  With a 64-byte request active and a
    128-byte request issued behind it, the status query for the queued
    request reports 64 bytes, the size of the active one: the residue is
    summed over [fsl_chan->edesc], not over the descriptor asked about. *)
Theorem fsl_edma_tx_status_queued_residue :
  let e := ex_engine_two in
  let c := chan0_of e in
  exists a b,
    reachable false e /\
    desc_issued (vchan c) = [a; b] /\
    edesc c = Some a /\
    iscyclic a = false /\ iscyclic b = false /\
    cookie a = 2 /\ cookie b = 3 /\
    desc_total false a = 64 /\
    desc_total false b = 128 /\
    vchan_find_desc (vchan c) 3 = Some b /\
    fsl_edma_desc_residue false (ex_hw 0 0) e c (Some b) false = Ok 64 /\
    fsl_edma_tx_status false (ex_hw 0 0) e c 3 true =
      Ok (DMA_IN_PROGRESS, Some 64).
Proof.
  cbv zeta. eexists _, _.
  split; [exact (ex_run_reachable _ _ ex_engine_two_run)|].
  split; [reflexivity|].
  repeat (split; [vm_compute; reflexivity|]).
  vm_compute. reflexivity.
Qed.

Lemma sum_sizes_cons cpu_be t (l : list fsl_edma_sw_tcd) :
  sum_sizes cpu_be (t :: l) = tcd_size cpu_be t + sum_sizes cpu_be l.
Proof. reflexivity. Qed.

Lemma sum_sizes_app cpu_be (l1 l2 : list fsl_edma_sw_tcd) :
  sum_sizes cpu_be (l1 ++ l2) = sum_sizes cpu_be l1 + sum_sizes cpu_be l2.
Proof.
  induction l1 as [|t l1 IH]; [reflexivity|].
  cbn [app]. rewrite !sum_sizes_cons, IH. lia.
Qed.

Lemma sum_sizes_nonneg cpu_be dir_ (l : list fsl_edma_sw_tcd) :
  Forall (tcd_in_range cpu_be dir_) l -> 0 <= sum_sizes cpu_be l.
Proof.
  induction 1 as [|x l [Hx _] _ IH]; [reflexivity|].
  rewrite sum_sizes_cons. lia.
Qed.

Lemma residue_total_spec cpu_be dir_ d :
  Forall (tcd_in_range cpu_be dir_) (tcd d) ->
  forall n i len,
    (i + n)%nat = length (tcd d) ->
    0 <= len ->
    len + sum_sizes cpu_be (drop i (tcd d)) < 2 ^ 64 ->
    residue_total cpu_be d n i len =
      Ok (len + sum_sizes cpu_be (drop i (tcd d))).
Proof.
  intros Hsz. induction n as [|n IH]; intros i len Hn Hlen Hsum.
  - rewrite drop_ge by lia. cbn. rewrite Z.add_0_r. reflexivity.
  - destruct (lookup_lt_is_Some_2 (tcd d) i ltac:(lia)) as [t Ht].
    rewrite (drop_S _ _ _ Ht), sum_sizes_cons in Hsum |- *.
    pose proof (proj1 (Forall_lookup _ _) Hsz i t Ht) as [Ht32 _].
    pose proof (sum_sizes_nonneg cpu_be dir_ _ (Forall_drop _ (S i) _ Hsz))
      as Hrest.
    cbn [residue_total]. rewrite Ht. cbn [deref mbind result_bind].
    fold (tcd_size cpu_be t).
    rewrite (u32_small (tcd_size cpu_be t)) by exact Ht32.
    unfold size_t at 1. rewrite Z.mod_small by lia.
    rewrite IH by lia. f_equal. lia.
Qed.

(** The scan stops at the first entry [j] that holds the live address and
    returns what was left before the scan, less the entries up to [j], plus
    the distance from the live address to the end of entry [j]. *)
Lemma residue_scan_spec cpu_be dir_ cur d :
  Forall (tcd_in_range cpu_be dir_) (tcd d) ->
  forall n i len j t,
    (i <= j < i + n)%nat ->
    tcd d !! j = Some t ->
    tcd_holds cpu_be dir_ cur t ->
    (forall m t', (i <= m < j)%nat -> tcd d !! m = Some t' ->
                  ~ tcd_holds cpu_be dir_ cur t') ->
    sum_sizes cpu_be (take (S j - i) (drop i (tcd d))) <= len < 2 ^ 64 ->
    residue_scan cpu_be d dir_ cur n i len =
      Ok (len - sum_sizes cpu_be (take (S j - i) (drop i (tcd d))) +
          (tcd_mem_addr cpu_be dir_ t + tcd_size cpu_be t - cur)).
Proof.
  intros Hsz. induction n as [|n IH]; intros i len j t Hj Ht Hin Hbefore Hlen;
    [lia|].
  assert (Hi : (i < length (tcd d))%nat).
  { apply lookup_lt_Some in Ht. lia. }
  destruct (lookup_lt_is_Some_2 (tcd d) i Hi) as [ti Hti].
  pose proof (proj1 (Forall_lookup _ _) Hsz i ti Hti) as [Hs32 Ha32].
  replace (S j - i)%nat with (S (j - i)) in Hlen |- * by lia.
  rewrite (drop_S _ _ _ Hti) in Hlen |- *.
  cbn [take] in Hlen |- *. rewrite sum_sizes_cons in Hlen |- *.
  pose proof (sum_sizes_nonneg cpu_be dir_ _
                (Forall_take _ (j - i) _ (Forall_drop _ (S i) _ Hsz)))
    as Hrest.
  cbn [residue_scan]. rewrite Hti. cbn [deref mbind result_bind].
  fold (tcd_size cpu_be ti). fold (tcd_mem_addr cpu_be dir_ ti).
  rewrite (u32_small (tcd_size cpu_be ti)) by exact Hs32.
  assert (Hend : dma_addr_t (tcd_mem_addr cpu_be dir_ ti + tcd_size cpu_be ti) =
                 tcd_mem_addr cpu_be dir_ ti + tcd_size cpu_be ti).
  { unfold dma_addr_t. apply Z.mod_small. lia. }
  rewrite Hend.
  assert (Hsub : size_t (len - tcd_size cpu_be ti) = len - tcd_size cpu_be ti).
  { unfold size_t. apply Z.mod_small. lia. }
  rewrite Hsub.
  destruct (Nat.eq_dec i j) as [->|Hne].
  - rewrite Hti in Ht. injection Ht as <-.
    destruct Hin as [Hlo Hhi].
    destruct (Z.leb_spec (tcd_mem_addr cpu_be dir_ ti) cur) as [_|Hc]; [|lia].
    destruct (Z.ltb_spec cur
                (tcd_mem_addr cpu_be dir_ ti + tcd_size cpu_be ti)) as [_|Hc];
      [|lia].
    cbn [andb]. rewrite Nat.sub_diag.
    assert (Hd : dma_addr_t (tcd_mem_addr cpu_be dir_ ti + tcd_size cpu_be ti - cur) =
                 tcd_mem_addr cpu_be dir_ ti + tcd_size cpu_be ti - cur).
    { unfold dma_addr_t. apply Z.mod_small. lia. }
    rewrite Hd. unfold size_t.
    assert (Hb : 0 <= len - tcd_size cpu_be ti +
      (tcd_mem_addr cpu_be dir_ ti + tcd_size cpu_be ti - cur) < 2 ^ 64).
    { clear IH Hbefore Hj Hi Hti Hsz. lia. }
    rewrite Z.mod_small by exact Hb.
    replace (sum_sizes cpu_be (take 0 (drop (S j) (tcd d)))) with 0
      by reflexivity.
    unfold mret, result_ret. f_equal. lia.
  - assert (Hnot : ~ tcd_holds cpu_be dir_ cur ti)
      by (apply (Hbefore i ti); [lia | exact Hti]).
    assert (Hc : (tcd_mem_addr cpu_be dir_ ti <=? cur) &&
                 (cur <? tcd_mem_addr cpu_be dir_ ti + tcd_size cpu_be ti) =
                 false).
    { apply andb_false_iff. unfold tcd_holds in Hnot.
      destruct (Z.leb_spec (tcd_mem_addr cpu_be dir_ ti) cur);
        destruct (Z.ltb_spec cur
                    (tcd_mem_addr cpu_be dir_ ti + tcd_size cpu_be ti));
        auto; lia. }
    rewrite Hc.
    replace (j - i)%nat with (S j - S i)%nat in Hlen, Hrest |- * by lia.
    rewrite (IH (S i) (len - tcd_size cpu_be ti) j t);
      [f_equal; lia | lia | exact Ht | exact Hin
      | intros m t' Hm; apply Hbefore; lia | lia].
Qed.

(** When the descriptor asked about is the active one, a query that is
    not in progress does return the sum over its entries. *)
Lemma fsl_edma_desc_residue_active_total cpu_be hw e c v d :
  edesc c = Some d ->
  iscyclic d = false ->
  n_tcds d = Z.of_nat (length (tcd d)) ->
  Forall (tcd_in_range cpu_be (dir (fsc c))) (tcd d) ->
  desc_total cpu_be d < 2 ^ 64 ->
  fsl_edma_desc_residue cpu_be hw e c v false = Ok (desc_total cpu_be d).
Proof.
  intros Hd Hcyc Hn Hsz Htot. unfold fsl_edma_desc_residue.
  rewrite Hd. cbn [deref mbind result_bind]. rewrite Hcyc.
  rewrite Hn, Nat2Z.id.
  rewrite (residue_total_spec cpu_be _ d Hsz (length (tcd d)) 0 0);
    [reflexivity | reflexivity | lia | exact Htot].
Qed.

(** For the active descriptor in progress, with the live address in entry
    [j] and in no entry before it, the residue is what is left of entry [j]
    plus the entries after it. *)
Lemma fsl_edma_desc_residue_active_scan cpu_be hw e c v d j t :
  edesc c = Some d ->
  iscyclic d = false ->
  n_tcds d = Z.of_nat (length (tcd d)) ->
  Forall (tcd_in_range cpu_be (dir (fsc c))) (tcd d) ->
  desc_total cpu_be d < 2 ^ 64 ->
  let hw_tcd := edma_get_tcd_addr (ops (socdata e)) e c in
  let cur :=
    if dir_eqb (dir (fsc c)) DMA_MEM_TO_DEV
    then edma_readl hw e (hw_tcd + hw_tcd_saddr)
    else edma_readl hw e (hw_tcd + hw_tcd_daddr) in
  tcd d !! j = Some t ->
  tcd_holds cpu_be (dir (fsc c)) cur t ->
  (forall m t', (m < j)%nat -> tcd d !! m = Some t' ->
                ~ tcd_holds cpu_be (dir (fsc c)) cur t') ->
  fsl_edma_desc_residue cpu_be hw e c v true =
    Ok (tcd_mem_addr cpu_be (dir (fsc c)) t + tcd_size cpu_be t - cur +
        sum_sizes cpu_be (drop (S j) (tcd d))).
Proof.
  intros Hd Hcyc Hn Hsz Htot hw_tcd cur Ht Hin Hbefore.
  unfold fsl_edma_desc_residue. rewrite Hd.
  cbn [deref mbind result_bind]. rewrite Hcyc.
  rewrite Hn, Nat2Z.id.
  rewrite (residue_total_spec cpu_be _ d Hsz (length (tcd d)) 0 0);
    [|reflexivity | lia | exact Htot].
  cbn [mbind result_bind negb]. fold hw_tcd. fold cur.
  rewrite drop_0, Z.add_0_l.
  pose proof (lookup_lt_Some _ _ _ Ht) as Hjl.
  assert (Hsplit : sum_sizes cpu_be (tcd d) =
                   sum_sizes cpu_be (take (S j) (tcd d)) +
                   sum_sizes cpu_be (drop (S j) (tcd d))).
  { rewrite <- sum_sizes_app, take_drop. reflexivity. }
  pose proof (sum_sizes_nonneg cpu_be _ _ (Forall_drop _ (S j) _ Hsz)) as Hr.
  pose proof (sum_sizes_nonneg cpu_be _ _ (Forall_take _ (S j) _ Hsz)) as Hl.
  unfold desc_total in Htot.
  rewrite (residue_scan_spec cpu_be (dir (fsc c)) cur d Hsz (length (tcd d)) 0
             (sum_sizes cpu_be (tcd d)) j t);
    [| lia | exact Ht | exact Hin | intros m t' Hm; apply Hbefore; lia
     | rewrite Nat.sub_0_r, drop_0; lia].
  rewrite Nat.sub_0_r, drop_0. f_equal. lia.
Qed.

(** * Further properties

    Properties of the code beyond the data model: the register access
    layer, allocation and release of descriptors, completion, control,
    power management, the interrupt handlers, probe, channel request and
    interrupt set-up. *)

(** ** Register access *)

(** Bit-by-bit equality; a bit below position 0 is clear. *)
Ltac bits :=
  Z.bitblast; try (rewrite Z.testbit_neg_r by lia); try reflexivity.

Lemma land_shiftl2_low q k : 0 <= k < 4 -> Z.land (Z.shiftl q 2) k = 0.
Proof.
  intros Hk.
  assert (k = 0 \/ k = 1 \/ k = 2 \/ k = 3) as [->|[->|[->| ->]]] by lia.
  - apply Z.land_0_r.
  - change 1 with (Z.ones 1). bits.
  - change 2 with (Z.shiftl (Z.ones 1) 1) at 2. bits.
  - change 3 with (Z.ones 2). bits.
Qed.

Lemma add_lor_low q k : 0 <= k < 4 -> 4 * q + k = Z.lor (Z.shiftl q 2) k.
Proof.
  intros Hk. pose proof (land_shiftl2_low q k Hk) as Hl.
  rewrite <- Z.lxor_lor, <- Z.add_nocarry_lxor by exact Hl.
  rewrite Z.shiftl_mul_pow2 by lia. lia.
Qed.

Lemma lxor_lane q r m :
  (m = 3 \/ (m = 2 /\ r mod 2 = 0)) -> 0 <= r < 4 ->
  Z.lxor (Z.lor (Z.shiftl q 2) r) m = Z.lor (Z.shiftl q 2) (m - r).
Proof.
  intros Hm Hr.
  assert (r = 0 \/ r = 1 \/ r = 2 \/ r = 3) as Hc by lia.
  destruct Hm as [-> | [-> Hev]].
  - destruct Hc as [->|[->|[->| ->]]].
    + change (3 - 0) with (Z.ones 2). change 3 with (Z.ones 2). bits.
    + change (3 - 1) with (Z.shiftl (Z.ones 1) 1). change 3 with (Z.ones 2).
      change 1 with (Z.ones 1) at 1. bits.
    + change (3 - 2) with (Z.ones 1). change 3 with (Z.ones 2).
      change (Z.lor (Z.shiftl q 2) 2) with
        (Z.lor (Z.shiftl q 2) (Z.shiftl (Z.ones 1) 1)). bits.
    + change (3 - 3) with 0. change 3 with (Z.ones 2). bits.
  - destruct Hc as [->|[->|[->| ->]]]; try (cbv in Hev; lia).
    + change (2 - 0) with (Z.shiftl (Z.ones 1) 1).
      change (Z.lxor (Z.lor (Z.shiftl q 2) 0) 2) with
        (Z.lxor (Z.lor (Z.shiftl q 2) 0) (Z.shiftl (Z.ones 1) 1)). bits.
    + change (2 - 2) with 0.
      change (Z.lxor (Z.lor (Z.shiftl q 2) 2) 2) with
        (Z.lxor (Z.lor (Z.shiftl q 2) (Z.shiftl (Z.ones 1) 1))
           (Z.shiftl (Z.ones 1) 1)). bits.
Qed.

Lemma mod4_even a : a mod 2 = 0 -> (a mod 4) mod 2 = 0.
Proof.
  intros Ha. change 4 with (2 * 2).
  rewrite Z.rem_mul_r by lia.
  rewrite (Z.mul_comm 2 ((a / 2) mod 2)), Z.mod_add by lia.
  rewrite Z.mod_mod by lia. exact Ha.
Qed.

Lemma lxor_3_lane a : Z.lxor a 0x3 = 4 * (a / 4) + (3 - a mod 4).
Proof.
  pose proof (Z.mod_pos_bound a 4 ltac:(lia)) as Hm.
  rewrite (Z.div_mod a 4) at 1 by lia.
  rewrite !add_lor_low by lia. apply lxor_lane; [left; reflexivity | exact Hm].
Qed.

Lemma lxor_2_lane a : a mod 2 = 0 -> Z.lxor a 0x2 = 4 * (a / 4) + (2 - a mod 4).
Proof.
  intros Ha. pose proof (Z.mod_pos_bound a 4 ltac:(lia)) as Hm.
  pose proof (mod4_even a Ha) as He.
  assert (a mod 4 = 0 \/ a mod 4 = 2) as Hc.
  { assert (a mod 4 = 0 \/ a mod 4 = 1 \/ a mod 4 = 2 \/ a mod 4 = 3)
      as [H|[H|[H|H]]] by lia; rewrite H in He; cbv in He; try lia; auto. }
  rewrite (Z.div_mod a 4) at 1 by lia.
  rewrite !add_lor_low by lia.
  apply lxor_lane; [right; split; [reflexivity | exact He] | exact Hm].
Qed.

(** X1: on a big-endian controller a byte register is written in the
    aligned 32-bit word it belongs to, at the mirrored byte lane, and an
    aligned 16-bit register at the mirrored half of its word. *)
Theorem edma_write_be_lane (e : fsl_edma_engine) (val addr : Z) :
  big_endian e = true ->
  edma_writeb e val addr =
    [Iowrite8 (u8 val) (4 * (addr / 4) + (3 - addr mod 4))] /\
  (addr mod 2 = 0 ->
   edma_writew e val addr =
     [Iowrite16be (u16 val) (4 * (addr / 4) + (2 - addr mod 4))]).
Proof.
  intros Hbe. unfold edma_writeb, edma_writew. rewrite Hbe. split.
  - rewrite lxor_3_lane. reflexivity.
  - intros Ha. rewrite lxor_2_lane by exact Ha. reflexivity.
Qed.

Lemma edma_write_be_lane_witness :
  edma_writeb ex_engine_be 5 0x1A = [Iowrite8 5 0x19] /\
  edma_writew ex_engine_be 5 0x1A = [Iowrite16be 5 0x18].
Proof.
  destruct (edma_write_be_lane ex_engine_be 5 0x1A eq_refl) as [Hb Hw].
  split; [exact Hb | exact (Hw eq_refl)].
Defined.

Lemma edma_writel_u32 e x a : edma_writel e (u32 x) a = edma_writel e x a.
Proof. unfold edma_writel. rewrite u32_idem. reflexivity. Qed.

Lemma u16_idem x : u16 (u16 x) = u16 x.
Proof. unfold u16. apply Z.mod_mod. lia. Qed.

Lemma edma_writew_u16 e x a : edma_writew e (u16 x) a = edma_writew e x a.
Proof. unfold edma_writew. rewrite u16_idem. reflexivity. Qed.

(** X2: loading a TCD that [fsl_edma_fill_tcd] built writes the values
    given to [fsl_edma_fill_tcd] to the channel's registers, whatever the
    byte order of the CPU: the CSR is cleared first, the iteration counts
    are written without their top bit, and the CSR with its three flags is
    written last. *)
Theorem fsl_edma_set_tcd_regs_fill (cpu_be : bool) (e : fsl_edma_engine)
    (c : fsl_edma_chan) (src dst a so nb sl ci bi do_ lk : Z)
    (mi dr sg : bool) :
  fsl_edma_set_tcd_regs cpu_be e c
    (fsl_edma_fill_tcd cpu_be src dst a so nb sl ci bi do_ lk mi dr sg) =
  let hw_tcd := edma_get_tcd_addr (ops (socdata e)) e c in
  edma_writew e 0 (hw_tcd + 0x1C) ++
  edma_writel e src (hw_tcd + 0x00) ++
  edma_writel e dst (hw_tcd + 0x10) ++
  edma_writew e a (hw_tcd + 0x06) ++
  edma_writew e so (hw_tcd + 0x04) ++
  edma_writel e nb (hw_tcd + 0x08) ++
  edma_writel e sl (hw_tcd + 0x0C) ++
  edma_writew e (Z.land ci 0x7FFF) (hw_tcd + 0x16) ++
  edma_writew e (Z.land bi 0x7FFF) (hw_tcd + 0x1E) ++
  edma_writew e do_ (hw_tcd + 0x14) ++
  edma_writel e lk (hw_tcd + 0x18) ++
  edma_writew e
    ((if mi then 2 else 0) + (if dr then 8 else 0) + (if sg then 16 else 0))
    (hw_tcd + 0x1C).
Proof.
  unfold fsl_edma_set_tcd_regs, fsl_edma_fill_tcd.
  cbn [saddr daddr attr soff nbytes slast citer biter doff dlast_sga csr].
  rewrite !rd_le32_store, !rd_le16_store.
  rewrite !edma_writel_u32, !edma_writew_u16.
  cbv zeta.
  replace (if sg then _ else _) with
    ((if mi then 2 else 0) + (if dr then 8 else 0) + (if sg then 16 else 0))
    by (destruct mi, dr, sg; reflexivity).
  reflexivity.
Qed.

(** ** Allocation and release of descriptors *)

Lemma fold_left_pool_free (got pool : list fsl_edma_sw_tcd) :
  fold_left dma_pool_free (rev got) pool = got ++ pool.
Proof.
  revert pool. induction got as [|b got IH]; intros pool; [reflexivity|].
  cbn [rev]. rewrite fold_left_app. cbn [fold_left].
  rewrite IH. reflexivity.
Qed.

Lemma alloc_tcds_None n :
  forall pool got pool',
    alloc_tcds n pool got = (None, pool') ->
    pool' = got ++ pool /\ (length pool < n)%nat.
Proof.
  induction n as [|n IH]; intros pool got pool' H; cbn in H; [discriminate|].
  destruct pool as [|b rest]; cbn in H.
  - injection H as <-. split; [apply fold_left_pool_free | cbn; lia].
  - apply IH in H. destruct H as [-> Hl].
    rewrite <- app_assoc. split; [reflexivity | cbn; lia].
Qed.

Lemma set_tcd_pool_same c : set_tcd_pool c (tcd_pool c) = c.
Proof. destruct c; reflexivity. Qed.

Lemma fsl_edma_alloc_desc_None kz c n c' :
  fsl_edma_alloc_desc kz c n = (None, c') ->
  c' = c /\ (kz = false \/ (length (tcd_pool c) < Z.to_nat n)%nat).
Proof.
  unfold fsl_edma_alloc_desc. destruct kz; cbn [negb].
  - destruct (alloc_tcds _ _ _) as [[tcds|] pool] eqn:E; [discriminate|].
    intros H. injection H as <-. apply alloc_tcds_None in E.
    destruct E as [-> Hl]. cbn [app]. split; [apply set_tcd_pool_same|].
    right. exact Hl.
  - intros H. injection H as <-. split; [reflexivity | left; reflexivity].
Qed.

(** X3: when [fsl_edma_alloc_desc] fails it has given back every block it
    had taken: the channel and its pool are exactly as before, and the
    failure means there was no memory for the descriptor or the pool held
    fewer blocks than asked for. *)
Theorem fsl_edma_alloc_desc_fail_restores (kz : bool) (c c' : fsl_edma_chan)
    (n : Z) :
  fsl_edma_alloc_desc kz c n = (None, c') ->
  c' = c /\ (kz = false \/ Z.of_nat (length (tcd_pool c)) < n).
Proof.
  intros H. apply fsl_edma_alloc_desc_None in H.
  destruct H as [-> [Hk | Hl]]; (split; [reflexivity|]); [left; exact Hk|].
  right. lia.
Qed.

Lemma fsl_edma_alloc_desc_fail_restores_witness :
  snd (fsl_edma_alloc_desc true ex_chan_tx 5) = ex_chan_tx /\
  (true = false \/ Z.of_nat (length (tcd_pool ex_chan_tx)) < 5).
Proof.
  apply (fsl_edma_alloc_desc_fail_restores true ex_chan_tx _ 5).
  reflexivity.
Defined.

(** X4: a preparation that returns NULL leaves the channel as it was:
    no block stays out of the pool and nothing is queued. *)
Theorem fsl_edma_prep_null_unchanged (cpu_be kz : bool) (c c' : fsl_edma_chan)
    (sgl : list scatterlist) (sg_len dma_addr buf_len period_len : Z) :
  fsl_edma_prep_slave_sg cpu_be kz c sgl sg_len = Ok (None, c') \/
  fsl_edma_prep_dma_cyclic cpu_be kz c dma_addr buf_len period_len =
    Ok (None, c') ->
  c' = c.
Proof.
  intros [H | H].
  - unfold fsl_edma_prep_slave_sg in H.
    destruct (is_slave_direction _); cbn [negb] in H; [|inv_ok; reflexivity].
    destruct (fsl_edma_alloc_desc kz c (int sg_len)) as [[d|] c1] eqn:E;
      inv_ok; [discriminate|].
    apply fsl_edma_alloc_desc_None in E. apply E.
  - unfold fsl_edma_prep_dma_cyclic in H.
    destruct (is_slave_direction _); cbn [negb] in H; [|inv_ok; reflexivity].
    inv_ok.
    destruct (fsl_edma_alloc_desc kz c _) as [[d|] c1] eqn:E;
      inv_ok; [discriminate|].
    apply fsl_edma_alloc_desc_None in E. apply E.
Qed.

Lemma fsl_edma_prep_null_unchanged_witness :
  fsl_edma_prep_slave_sg false true ex_chan_tx
    [mk_sg 0 16; mk_sg 0 16; mk_sg 0 16; mk_sg 0 16; mk_sg 0 16] 5 =
    Ok (None, ex_chan_tx) /\
  ex_chan_tx = ex_chan_tx.
Proof.
  split; [reflexivity|].
  apply (fsl_edma_prep_null_unchanged false true ex_chan_tx ex_chan_tx
           [mk_sg 0 16; mk_sg 0 16; mk_sg 0 16; mk_sg 0 16; mk_sg 0 16] 5
           0 0 0).
  left. reflexivity.
Defined.

Lemma free_tcds_spec d n :
  forall i pool pool',
    free_tcds d n i pool = Ok pool' ->
    (n <= length (tcd d) - i)%nat /\
    pool' = rev (take n (drop i (tcd d))) ++ pool.
Proof.
  induction n as [|n IH]; intros i pool pool' H; cbn in H; inv_ok.
  - split; [lia | reflexivity].
  - apply IH in H. destruct H as [Hl ->].
    pose proof (lookup_lt_Some _ _ _ Ha) as Hi.
    split; [lia|].
    rewrite (drop_S _ _ _ Ha). cbn [take rev]. unfold dma_pool_free.
    rewrite <- app_assoc. reflexivity.
Qed.

Lemma free_tcds_total d n :
  forall i pool,
    (i + n <= length (tcd d))%nat ->
    free_tcds d n i pool = Ok (rev (take n (drop i (tcd d))) ++ pool).
Proof.
  induction n as [|n IH]; intros i pool Hl; cbn [free_tcds].
  - reflexivity.
  - destruct (lookup_lt_is_Some_2 (tcd d) i ltac:(lia)) as [b Hb].
    rewrite Hb. cbn [deref mbind result_bind].
    rewrite IH by lia. rewrite (drop_S _ _ _ Hb). cbn [take rev].
    unfold dma_pool_free. rewrite <- app_assoc. reflexivity.
Qed.

Lemma fsl_edma_free_desc_wf pool d :
  desc_wf d -> fsl_edma_free_desc pool d = Ok (rev (tcd d) ++ pool).
Proof.
  intros Hwf. unfold fsl_edma_free_desc. rewrite Hwf, Nat2Z.id.
  rewrite free_tcds_total by (cbn; lia).
  rewrite drop_0, firstn_all. reflexivity.
Qed.

(** X5: allocation followed by release is a round trip: a descriptor of
    [n] entries takes the first [n] blocks of the pool, and freeing it puts
    exactly these blocks back, so the pool holds the same blocks as
    before. *)
Theorem fsl_edma_alloc_free_desc (kz : bool) (c c' : fsl_edma_chan) (n : Z)
    (d : fsl_edma_desc) :
  0 <= n < 2 ^ 32 ->
  fsl_edma_alloc_desc kz c n = (Some d, c') ->
  tcd d = take (Z.to_nat n) (tcd_pool c) /\
  tcd_pool c' = drop (Z.to_nat n) (tcd_pool c) /\
  exists pool,
    fsl_edma_free_desc (tcd_pool c') d = Ok pool /\ pool ≡ₚ tcd_pool c.
Proof.
  intros Hn H. apply fsl_edma_alloc_desc_Some in H.
  destruct H as (_ & Hlen & Hnt & _ & Happ).
  assert (desc_wf d) as Hwf.
  { unfold desc_wf. rewrite Hnt, Hlen, u32_small by lia. lia. }
  repeat split.
  - rewrite <- Happ, <- Hlen. rewrite take_app_length. reflexivity.
  - rewrite <- Happ, <- Hlen. rewrite drop_app_length. reflexivity.
  - exists (rev (tcd d) ++ tcd_pool c'). split.
    + apply fsl_edma_free_desc_wf. exact Hwf.
    + rewrite <- Happ. apply Permutation_app_tail.
      symmetry. apply Permutation_rev.
Qed.

Lemma fsl_edma_alloc_free_desc_witness :
  exists d c',
    fsl_edma_alloc_desc true ex_chan_tx 3 = (Some d, c') /\
    tcd d = take 3 ex_pool /\
    tcd_pool c' = drop 3 ex_pool /\
    exists pool,
      fsl_edma_free_desc (tcd_pool c') d = Ok pool /\ pool ≡ₚ ex_pool.
Proof.
  eexists _, _. split; [reflexivity|].
  refine (fsl_edma_alloc_free_desc true ex_chan_tx _ 3 _ _ eq_refl).
  vm_compute. split; [discriminate | reflexivity].
Defined.

(** ** Mux slots of a bank *)

Lemma mux_channel_mapping_inj sd r1 r2 :
  0 <= r1 < 2 ^ 32 -> 0 <= r2 < 2 ^ 32 ->
  mux_channel_mapping sd r1 = mux_channel_mapping sd r2 -> r1 = r2.
Proof.
  intros H1 H2.
  assert (s32v234_mux_channel_mapping r1 = s32v234_mux_channel_mapping r2 ->
          r1 = r2) as Hs.
  { rewrite !s32v234_mux_channel_mapping_eq by assumption.
    pose proof (Z.mod_pos_bound r1 4 ltac:(lia)).
    pose proof (Z.mod_pos_bound r2 4 ltac:(lia)).
    pose proof (Z.div_mod r1 4 ltac:(lia)).
    pose proof (Z.div_mod r2 4 ltac:(lia)). lia. }
  destruct sd; cbn [mux_channel_mapping]; auto.
Qed.

Lemma fsl_edma_chan_mux_Ok e c slot en evs :
  fsl_edma_chan_mux e c slot en = Ok evs ->
  n_chans e / DMAMUX_NR <> 0 /\
  exists base v,
    muxbase e !! Z.to_nat (chan_id (vchan c) / (n_chans e / DMAMUX_NR)) =
      Some base /\
    evs = [Iowrite8 v
             (base + mux_channel_mapping (socdata e)
                       (chan_id (vchan c) mod (n_chans e / DMAMUX_NR)))].
Proof.
  unfold fsl_edma_chan_mux. intros H. inv_ok. split; [assumption|].
  destruct en; inv_ok; eauto.
Qed.

(** X6: two different channels of the same mux bank never share a
    channel-configuration register: their mux writes go to different
    addresses. *)
Theorem fsl_edma_chan_mux_distinct (e : fsl_edma_engine)
    (c1 c2 : fsl_edma_chan) (s1 s2 : Z) (en1 en2 : bool) (v1 a1 v2 a2 : Z) :
  0 <= n_chans e < 2 ^ 32 ->
  chan_id (vchan c1) <> chan_id (vchan c2) ->
  chan_id (vchan c1) / (n_chans e / DMAMUX_NR) =
    chan_id (vchan c2) / (n_chans e / DMAMUX_NR) ->
  fsl_edma_chan_mux e c1 s1 en1 = Ok [Iowrite8 v1 a1] ->
  fsl_edma_chan_mux e c2 s2 en2 = Ok [Iowrite8 v2 a2] ->
  a1 <> a2.
Proof.
  intros Hn Hne Hbank H1 H2.
  apply fsl_edma_chan_mux_Ok in H1. destruct H1 as (Hnz & b1 & w1 & Hb1 & E1).
  apply fsl_edma_chan_mux_Ok in H2. destruct H2 as (_ & b2 & w2 & Hb2 & E2).
  rewrite Hbank, Hb2 in Hb1. injection Hb1 as <-.
  injection E1 as -> ->. injection E2 as -> ->.
  set (m := n_chans e / DMAMUX_NR) in *.
  assert (0 < m < 2 ^ 32) as Hm.
  { unfold m, DMAMUX_NR in *.
    pose proof (Z.div_pos (n_chans e) 2 ltac:(lia) ltac:(lia)).
    assert (n_chans e / 2 <= n_chans e)
      by (apply Z.div_le_upper_bound; lia).
    lia. }
  pose proof (Z.mod_pos_bound (chan_id (vchan c1)) m ltac:(lia)) as Hr1.
  pose proof (Z.mod_pos_bound (chan_id (vchan c2)) m ltac:(lia)) as Hr2.
  intros Heq. apply Hne.
  assert (chan_id (vchan c1) mod m = chan_id (vchan c2) mod m) as Hr.
  { apply (mux_channel_mapping_inj (socdata e)); lia. }
  rewrite (Z.div_mod (chan_id (vchan c1)) m) by lia.
  rewrite (Z.div_mod (chan_id (vchan c2)) m) by lia.
  rewrite Hbank, Hr. reflexivity.
Qed.

Lemma fsl_edma_chan_mux_distinct_witness :
  fsl_edma_chan_mux ex_engine_s32v (probe_chan 4) 9 true =
    Ok [Iowrite8 0x89 0x100007] /\
  fsl_edma_chan_mux ex_engine_s32v (probe_chan 7) 9 true =
    Ok [Iowrite8 0x89 0x100004] /\
  0x100007 <> 0x100004.
Proof.
  split; [reflexivity|]. split; [reflexivity|].
  apply (fsl_edma_chan_mux_distinct ex_engine_s32v (probe_chan 4)
           (probe_chan 7) 9 9 true true 0x89 0x100007 0x89 0x100004).
  - vm_compute. split; [discriminate | reflexivity].
  - discriminate.
  - reflexivity.
  - reflexivity.
  - reflexivity.
Defined.

(** ** Configuration *)

(** X7: a configuration with a slave direction is accepted: the channel
    takes the width, the device address and the burst of that direction's
    side, and nothing else of the channel changes.  The attribute selects
    the same transfer size for source and destination, the binary logarithm
    of the width for 1, 2, 4 and 8 bytes; any other width is accepted
    too and selects 32-bit transfers. *)
Theorem fsl_edma_slave_config_valid (c : fsl_edma_chan)
    (cfg : dma_slave_config) :
  is_slave_direction (direction cfg) = true ->
  let rx := dir_eqb (direction cfg) DMA_DEV_TO_MEM in
  let w := if rx then src_addr_width cfg else dst_addr_width cfg in
  let a := if rx then src_addr cfg else dst_addr cfg in
  let b := if rx then src_maxburst cfg else dst_maxburst cfg in
  let k := if (w =? 1) || (w =? 2) || (w =? 4) || (w =? 8) then Z.log2 w
           else 2 in
  fsl_edma_slave_config c cfg =
    (set_fsc c (mk_fsc (direction cfg) w (u32 a) (u32 b) (0x100 * k + k)), 0).
Proof.
  intros Hd. cbv zeta. unfold fsl_edma_slave_config, fsl_edma_get_tcd_attr.
  destruct (direction cfg); try discriminate; cbn [dir_eqb].
  - destruct (Z.eqb_spec (dst_addr_width cfg) 1) as [->|_]; [reflexivity|].
    destruct (Z.eqb_spec (dst_addr_width cfg) 2) as [->|_]; [reflexivity|].
    destruct (Z.eqb_spec (dst_addr_width cfg) 4) as [->|_]; [reflexivity|].
    destruct (Z.eqb_spec (dst_addr_width cfg) 8) as [->|_]; reflexivity.
  - destruct (Z.eqb_spec (src_addr_width cfg) 1) as [->|_]; [reflexivity|].
    destruct (Z.eqb_spec (src_addr_width cfg) 2) as [->|_]; [reflexivity|].
    destruct (Z.eqb_spec (src_addr_width cfg) 4) as [->|_]; [reflexivity|].
    destruct (Z.eqb_spec (src_addr_width cfg) 8) as [->|_]; reflexivity.
Qed.

Lemma fsl_edma_slave_config_valid_witness :
  fsl_edma_slave_config ex_chan_byte
    (mk_cfg DMA_DEV_TO_MEM 0x40000000 0 3 0 1 0) =
    (set_fsc ex_chan_byte (mk_fsc DMA_DEV_TO_MEM 3 0x40000000 1 0x0202), 0).
Proof.
  exact (fsl_edma_slave_config_valid ex_chan_byte
           (mk_cfg DMA_DEV_TO_MEM 0x40000000 0 3 0 1 0) eq_refl).
Defined.

(** ** Completion of the active descriptor *)

Lemma fsl_edma_xfer_desc_head cpu_be e c :
  (forall d, head (desc_issued (vchan c)) = Some d -> tcd d <> []) ->
  exists c' evs,
    fsl_edma_xfer_desc cpu_be e c = Ok (c', evs) /\
    vchan c' = vchan c /\
    tcd_pool c' = tcd_pool c /\ pm_state c' = pm_state c /\
    fsc c' = fsc c /\ slave_id c' = slave_id c /\
    match head (desc_issued (vchan c)) with
    | Some d =>
        edesc c' = Some d /\ status c' = DMA_IN_PROGRESS /\ idle c' = false /\
        exists t0, tcd d !! 0%nat = Some t0 /\
          evs = fsl_edma_set_tcd_regs cpu_be e c (vtcd t0) ++
                edma_enable_request (ops (socdata e)) e c
    | None => c' = c /\ evs = []
    end.
Proof.
  intros Hne. unfold fsl_edma_xfer_desc, vchan_next_desc.
  destruct (head (desc_issued (vchan c))) as [d|] eqn:Hh.
  - specialize (Hne d eq_refl). destruct (tcd d) as [|t0 l] eqn:Ht;
      [contradiction|].
    cbn [lookup list_lookup deref mbind result_bind].
    eexists _, _. split; [reflexivity|]. cbn.
    repeat split. exists t0. split; [reflexivity|].
    unfold fsl_edma_set_tcd_regs. destruct (socdata e); reflexivity.
  - eexists _, _. split; [reflexivity|]. repeat split.
Qed.



Lemma tx_complete_cyclic cpu_be b e c d :
  edesc c = Some d -> iscyclic d = true ->
  tx_complete cpu_be b e c = Ok (c, []).
Proof.
  intros Hd Hcyc.
  unfold tx_complete. rewrite Hd. cbn [deref mbind result_bind].
  rewrite Hcyc. cbn [negb]. unfold vchan_cyclic_callback.
  replace (set_vchan c (vchan c)) with c by (destruct c; reflexivity).
  rewrite Hd. reflexivity.
Qed.

Lemma for_loop_single {St : Type} (body : nat -> St -> result St)
    (ch m : nat) (s1 : St) :
  (forall k s, (k < m)%nat -> k <> ch -> body k s = Ok s) ->
  forall n i s,
    (i <= ch < i + n)%nat -> (i + n <= m)%nat ->
    body ch s = Ok s1 ->
    for_loop body n i s = Ok s1.
Proof.
  intros Hother. assert (Hafter : forall n i, (ch < i)%nat ->
                           (i + n <= m)%nat ->
                           for_loop body n i s1 = Ok s1).
  { induction n as [|n IH]; intros i Hi Hm; [reflexivity|].
    cbn [for_loop]. rewrite Hother by lia. cbn [mbind result_bind].
    apply IH; lia. }
  induction n as [|n IH]; intros i s Hi Hm Hch; [lia|].
  cbn [for_loop]. destruct (Nat.eq_dec i ch) as [->|Hne].
  - rewrite Hch. cbn [mbind result_bind]. apply Hafter; lia.
  - rewrite Hother by (lia || exact Hne). cbn [mbind result_bind].
    apply IH; [lia | lia | exact Hch].
Qed.

Lemma u32_bit k : 0 <= k < 32 -> u32 (Z.shiftl 0x1 k) = 2 ^ k.
Proof.
  intros Hk. rewrite Z.shiftl_1_l. apply u32_small. split.
  - apply Z.pow_nonneg. lia.
  - apply Z.pow_lt_mono_r; lia.
Qed.

Lemma u32_bit_high k : 32 <= k -> u32 (Z.shiftl 0x1 k) = 0.
Proof.
  intros Hk. rewrite Z.shiftl_1_l. unfold u32.
  replace k with (k - 32 + 32) by lia.
  rewrite Z.pow_add_r by lia. apply Z.mod_mul. lia.
Qed.

Lemma land_bits_other j k :
  0 <= j < 32 -> 0 <= k -> j <> k ->
  Z.land (u32 (Z.shiftl 0x1 j)) (u32 (Z.shiftl 0x1 k)) = 0.
Proof.
  intros Hj Hk Hne. rewrite (u32_bit j) by exact Hj.
  destruct (Z_lt_le_dec k 32) as [Hlt|Hge].
  - rewrite (u32_bit k) by lia. apply Z.bits_inj'. intros i Hi.
    rewrite Z.land_spec, !Z.pow2_bits_eqb, Z.bits_0 by lia.
    destruct (Z.eqb_spec j i), (Z.eqb_spec k i); try reflexivity. lia.
  - rewrite u32_bit_high by exact Hge. apply Z.land_0_r.
Qed.

Lemma land_bits_same j :
  0 <= j < 32 -> Z.land (u32 (Z.shiftl 0x1 j)) (u32 (Z.shiftl 0x1 j)) <> 0.
Proof.
  intros Hj. rewrite Z.land_diag, (u32_bit j) by exact Hj.
  apply Z.pow_nonzero; lia.
Qed.

(** X9: on an engine of at most 32 channels, when the only pending
    completion interrupt is that of a channel whose active descriptor is
    cyclic, [fsl_edma_tx_handler] clears the interrupt and does nothing
    else: the descriptor stays active and queued, every channel keeps its
    state and no other register is written; the ring of TCDs runs on by
    itself.  (With more than 32 channels the bit of channel [ch] is also
    that of channel [ch + 32], which the handler would serve as well.) *)
Theorem fsl_edma_tx_handler_cyclic (cpu_be : bool) (hw : mmio)
    (e : fsl_edma_engine) (ch : nat) (c : fsl_edma_chan)
    (d : fsl_edma_desc) :
  n_chans e <= 32 ->
  Z.of_nat ch < n_chans e ->
  chans e !! ch = Some c ->
  edesc c = Some d ->
  iscyclic d = true ->
  edma_readl hw e (membase e + EDMA_INTR) = u32 (Z.shiftl 0x1 (Z.of_nat ch)) ->
  fsl_edma_tx_handler cpu_be hw e =
    Ok (IRQ_HANDLED,
        emit e (edma_writeb e (EDMA_CINT_CINT (Z.of_nat ch))
                  (membase e + EDMA_CINT))).
Proof.
  intros Hmax Hn Hc Hd Hcyc Hintr. unfold fsl_edma_tx_handler.
  rewrite Hintr.
  destruct (Z.eqb_spec (u32 (Z.shiftl 1 (Z.of_nat ch))) 0) as [E|_].
  { rewrite u32_bit in E by lia.
    pose proof (Z.pow_nonzero 2 (Z.of_nat ch) ltac:(lia) ltac:(lia)). lia. }
  rewrite (for_loop_single _ ch (Z.to_nat (n_chans e))
             (emit e (edma_writeb e (EDMA_CINT_CINT (Z.of_nat ch))
                        (membase e + EDMA_CINT)))).
  - reflexivity.
  - intros k s Hlt Hk. unfold tx_handler_body.
    rewrite (Z.mod_small (Z.of_nat k)) by lia.
    rewrite land_bits_other by lia. reflexivity.
  - lia.
  - lia.
  - unfold tx_handler_body.
    rewrite (Z.mod_small (Z.of_nat ch)) by lia.
    destruct (Z.eqb_spec (Z.land (u32 (Z.shiftl 1 (Z.of_nat ch)))
                            (u32 (Z.shiftl 1 (Z.of_nat ch)))) 0) as [E|_].
    { exfalso. revert E. apply land_bits_same. lia. }
    rewrite chans_emit, Hc. cbn [deref mbind result_bind].
    rewrite (tx_complete_cyclic cpu_be true _ c d Hd Hcyc).
    cbn [mbind result_bind]. rewrite emit_nil.
    rewrite set_chan_same by (rewrite chans_emit; exact Hc). reflexivity.
Qed.

Lemma fsl_edma_tx_handler_cyclic_witness :
  fsl_edma_tx_handler false (ex_hw EDMA_INTR 1) ex_engine_cyclic_rx =
    Ok (IRQ_HANDLED, emit ex_engine_cyclic_rx [Iowrite8 0 0x1F]).
Proof.
  refine (fsl_edma_tx_handler_cyclic false (ex_hw EDMA_INTR 1)
            ex_engine_cyclic_rx 0 _ _ _ _ eq_refl eq_refl eq_refl eq_refl);
    (reflexivity || (vm_compute; discriminate)).
Defined.

(** ** Issue *)

(** X11: [fsl_edma_issue_pending] on a running channel moves every
    submitted descriptor behind the issued ones.  It starts a transfer only
    when the channel has no active descriptor, and then it starts the oldest
    issued one, loading its first TCD and enabling the request; a channel
    with an active descriptor is not touched and no register is
    written. *)
Theorem fsl_edma_issue_pending_fifo (cpu_be : bool) (e : fsl_edma_engine)
    (c : fsl_edma_chan) :
  pm_state c = RUNNING ->
  let q := desc_issued (vchan c) ++ desc_submitted (vchan c) in
  (edesc c = None -> forall d, head q = Some d -> tcd d <> []) ->
  exists c' evs,
    fsl_edma_issue_pending cpu_be e c = Ok (c', evs) /\
    desc_submitted (vchan c') = [] /\
    desc_issued (vchan c') = q /\
    desc_completed (vchan c') = desc_completed (vchan c) /\
    tcd_pool c' = tcd_pool c /\
    match edesc c, head q with
    | Some d, _ =>
        edesc c' = Some d /\ status c' = status c /\ idle c' = idle c /\
        evs = []
    | None, Some d =>
        edesc c' = Some d /\ status c' = DMA_IN_PROGRESS /\ idle c' = false /\
        exists t0, tcd d !! 0%nat = Some t0 /\
          evs = fsl_edma_set_tcd_regs cpu_be e c (vtcd t0) ++
                edma_enable_request (ops (socdata e)) e c
    | None, None =>
        edesc c' = None /\ status c' = status c /\ idle c' = idle c /\
        evs = []
    end.
Proof.
  intros Hpm q Hne. unfold fsl_edma_issue_pending. rewrite Hpm.
  unfold vchan_issue_pending. fold q.
  set (v := mk_vchan _ _ _ _ _ _).
  destruct (edesc c) as [d|] eqn:Hd.
  - exists (set_vchan c v), [].
    cbn [set_vchan edesc]. rewrite Hd, andb_false_r.
    repeat split.
  - specialize (Hne eq_refl). cbn [set_vchan edesc]. rewrite Hd.
    destruct q as [|d q'] eqn:Hq.
    + cbn [andb head]. exists (set_vchan c v), []. repeat split. exact Hd.
    + cbn [andb head].
      destruct (fsl_edma_xfer_desc_head cpu_be e (set_vchan c v))
        as (c' & evs & Hx & Hv & Hp & _ & _ & _ & Hm).
      { exact Hne. }
      exists c', evs. split; [exact Hx|]. rewrite Hv.
      cbn [set_vchan vchan desc_issued head] in Hm.
      destruct Hm as (He & Hs & Hi & t0 & Ht0 & Hevs).
      repeat split; try assumption.
      exists t0. split; [exact Ht0|]. rewrite Hevs.
      unfold fsl_edma_set_tcd_regs. destruct (socdata e); reflexivity.
Qed.

Lemma fsl_edma_issue_pending_fifo_witness :
  let c := chan0_of ex_engine_two in
  exists c' d,
    fsl_edma_issue_pending false ex_engine_two c = Ok (c', []) /\
    edesc c = Some d /\ edesc c' = Some d /\ status c' = status c.
Proof.
  cbv zeta.
  destruct (fsl_edma_issue_pending_fifo false ex_engine_two
              (chan0_of ex_engine_two) eq_refl)
    as (c' & evs & H & _ & _ & _ & _ & Hm).
  - intros Hn. discriminate Hn.
  - destruct (edesc (chan0_of ex_engine_two)) as [d|] eqn:E;
      [|discriminate E].
    destruct Hm as (He & Hs & _ & ->).
    exists c', d. repeat split; assumption.
Defined.

(** ** A descriptor without entries *)

(** X12: a cyclic transfer whose buffer is shorter than one period is
    accepted: [fsl_edma_prep_dma_cyclic] returns a descriptor with no TCD
    at all and takes nothing from the pool.  Issuing it on an idle channel
    traps, because [fsl_edma_xfer_desc] loads the first TCD of the
    descriptor without looking at [n_tcds]. *)
Theorem fsl_edma_prep_dma_cyclic_short (cpu_be : bool) (e : fsl_edma_engine)
    (c : fsl_edma_chan) (dma_addr buf_len period_len : Z) :
  is_slave_direction (dir (fsc c)) = true ->
  0 <= buf_len < period_len ->
  u32 (addr_width (fsc c) * burst (fsc c)) <> 0 ->
  pm_state c = RUNNING ->
  edesc c = None ->
  desc_issued (vchan c) = [] ->
  desc_submitted (vchan c) = [] ->
  exists d c1,
    fsl_edma_prep_dma_cyclic cpu_be true c dma_addr buf_len period_len =
      Ok (Some d, c) /\
    tcd d = [] /\ n_tcds d = 0 /\ iscyclic d = true /\
    submit (fsl_edma_prep_dma_cyclic cpu_be true c dma_addr buf_len
              period_len) = Ok (c1, []) /\
    fsl_edma_issue_pending cpu_be e c1 = Fault.
Proof.
  intros Hdir Hlen Hnb Hpm Hed Hiss Hsub.
  assert (Hprep :
    fsl_edma_prep_dma_cyclic cpu_be true c dma_addr buf_len period_len =
    Ok (Some (mk_desc 0 true (u32 buf_len) 0 []), c)).
  { unfold fsl_edma_prep_dma_cyclic. rewrite Hdir. cbn [negb].
    unfold udiv.
    destruct (Z.eqb_spec period_len 0) as [E|_]; [lia|].
    destruct (Z.eqb_spec (u32 (addr_width (fsc c) * burst (fsc c))) 0)
      as [E|_]; [contradiction|].
    cbn [mbind result_bind].
    rewrite (Z.div_small buf_len period_len) by lia.
    change (int 0) with 0. unfold fsl_edma_alloc_desc.
    cbn [negb]. change (Z.to_nat 0) with 0%nat. cbn [alloc_tcds].
    rewrite set_tcd_pool_same.
    reflexivity. }
  rewrite Hprep. eexists _, _. split; [reflexivity|].
  split; [reflexivity|]. split; [reflexivity|]. split; [reflexivity|].
  split; [reflexivity|].
  unfold fsl_edma_issue_pending, vchan_tx_submit. cbn [fst set_vchan pm_state].
  rewrite Hpm. unfold vchan_issue_pending.
  cbn [vchan desc_issued desc_submitted edesc set_vchan].
  rewrite Hiss, Hsub, Hed. reflexivity.
Qed.

Lemma fsl_edma_prep_dma_cyclic_short_witness :
  exists d c1,
    fsl_edma_prep_dma_cyclic false true ex_chan_tx 0x20000 512 1024 =
      Ok (Some d, ex_chan_tx) /\
    tcd d = [] /\ n_tcds d = 0 /\ iscyclic d = true /\
    submit (fsl_edma_prep_dma_cyclic false true ex_chan_tx 0x20000 512 1024) =
      Ok (c1, []) /\
    fsl_edma_issue_pending false ex_engine_active c1 = Fault.
Proof.
  apply (fsl_edma_prep_dma_cyclic_short false ex_engine_active ex_chan_tx
           0x20000 512 1024); try reflexivity.
  - lia.
  - vm_compute. discriminate.
Defined.

(** ** Residue of the active descriptor *)

(** X13: a status query for the cookie of the active descriptor, not
    cyclic and not yet complete, reports what is left to transfer in the
    32 bits of [txstate->residue]: with the live address in entry [j] and
    in no entry before it, what is left is the rest of entry [j] plus the
    entries after it, more than nothing and at most the whole descriptor;
    the residue stored is that number of bytes itself when the descriptor
    is shorter than 4 GiB, and that number modulo 2^32 in general.  The
    entries are those of a descriptor whose sizes and addresses are 32-bit
    values. *)
Theorem fsl_edma_tx_status_active (cpu_be : bool) (hw : mmio)
    (e : fsl_edma_engine) (c : fsl_edma_chan) (d : fsl_edma_desc) (j : nat)
    (t : fsl_edma_sw_tcd) :
  edesc c = Some d ->
  iscyclic d = false ->
  completed_cookie (vchan c) < cookie d ->
  desc_wf d ->
  Forall (tcd_in_range cpu_be (dir (fsc c))) (tcd d) ->
  desc_total cpu_be d < 2 ^ 64 ->
  let hw_tcd := edma_get_tcd_addr (ops (socdata e)) e c in
  let cur :=
    if dir_eqb (dir (fsc c)) DMA_MEM_TO_DEV
    then edma_readl hw e (hw_tcd + hw_tcd_saddr)
    else edma_readl hw e (hw_tcd + hw_tcd_daddr) in
  tcd d !! j = Some t ->
  tcd_holds cpu_be (dir (fsc c)) cur t ->
  (forall m t', (m < j)%nat -> tcd d !! m = Some t' ->
                ~ tcd_holds cpu_be (dir (fsc c)) cur t') ->
  let rest :=
    tcd_mem_addr cpu_be (dir (fsc c)) t + tcd_size cpu_be t - cur +
    sum_sizes cpu_be (drop (S j) (tcd d)) in
  fsl_edma_tx_status cpu_be hw e c (cookie d) true =
    Ok (status c, Some (u32 rest)) /\
  0 < rest <= desc_total cpu_be d /\
  (desc_total cpu_be d < 2 ^ 32 -> u32 rest = rest).
Proof.
  intros Hd Hcyc Hck Hwf Hsz Htot hw_tcd cur Ht Hin Hbefore rest.
  assert (Hrest : 0 < rest <= desc_total cpu_be d).
  { pose proof (sum_sizes_nonneg cpu_be _ _ (Forall_drop _ (S j) _ Hsz)) as Hr.
    pose proof (sum_sizes_nonneg cpu_be _ _ (Forall_take _ j _ Hsz)) as Hl.
    assert (Hsplit : sum_sizes cpu_be (tcd d) =
                     sum_sizes cpu_be (take j (tcd d)) + tcd_size cpu_be t +
                     sum_sizes cpu_be (drop (S j) (tcd d))).
    { rewrite <- (take_drop (S j) (tcd d)) at 1.
      rewrite (take_S_r _ _ _ Ht), !sum_sizes_app, sum_sizes_cons.
      change (sum_sizes cpu_be []) with 0. lia. }
    unfold desc_total, rest. unfold tcd_holds in Hin. lia. }
  split; [|split; [exact Hrest|]].
  - unfold fsl_edma_tx_status, dma_cookie_status.
    destruct (Z.leb_spec (cookie d) (completed_cookie (vchan c))) as [Hle|_];
      [lia|].
    cbn [negb]. rewrite Hd, Z.eqb_refl.
    rewrite (fsl_edma_desc_residue_active_scan cpu_be hw e c _ d j t
               Hd Hcyc Hwf Hsz Htot Ht Hin Hbefore).
    reflexivity.
  - intros H32. apply u32_small. lia.
Qed.

Lemma fsl_edma_tx_status_active_witness :
  fsl_edma_tx_status false (ex_hw 0x1000 0x20010) ex_engine_active
    (chan0_of ex_engine_active) 2 true = Ok (DMA_IN_PROGRESS, Some 112).
Proof.
  refine (proj1 (fsl_edma_tx_status_active false (ex_hw 0x1000 0x20010)
                   ex_engine_active (chan0_of ex_engine_active) _ 0 _
                   eq_refl eq_refl _ eq_refl _ _ eq_refl _ _)).
  - vm_compute. reflexivity.
  - repeat constructor; vm_compute; congruence.
  - vm_compute. reflexivity.
  - vm_compute. split; [discriminate | reflexivity].
  - intros m t' Hm. lia.
Defined.

Lemma sg_loop_body_data cpu_be c sgl sg_len nb ps k tcds tcds' :
  u32 nb = nb ->
  (ptcd <$> tcds = ps /\
   forall j, (j < k)%nat -> exists t, tcds !! j = Some t /\
     (fun j t => nb <> 0 /\ exists sg, sgl !! j = Some sg /\
                   sg_entry_data cpu_be c nb sg t) j t) ->
  sg_loop_body cpu_be c sgl sg_len nb k tcds = Ok tcds' ->
  (ptcd <$> tcds' = ps /\
   forall j, (j < S k)%nat -> exists t, tcds' !! j = Some t /\
     (fun j t => nb <> 0 /\ exists sg, sgl !! j = Some sg /\
                   sg_entry_data cpu_be c nb sg t) j t).
Proof.
  intros Hnb [Hps Hdone] H. unfold sg_loop_body in H.
  inv_ok.
  destruct (dir_eqb _ _) eqn:Ed; cbv beta iota zeta in H; inv_ok;
    (destruct (u32 (Z.of_nat k) <? u32 (sg_len - 1)) eqn:Elt; inv_ok;
     apply (loop_inv_insert
              (fun j t => nb <> 0 /\ exists sg, sgl !! j = Some sg /\
                            sg_entry_data cpu_be c nb sg t));
     try assumption; try reflexivity;
     (split; [assumption|]); eexists; (split; [eassumption|]);
     unfold sg_entry_data; cbn [vtcd]; rewrite tcd_decode_fill; cbv zeta;
     rewrite Ed;
     cbn [f_attr f_nbytes f_slast f_citer f_biter f_src f_dst f_soff f_doff];
     rewrite ?u16_land_7fff, ?u32_idem, ?u16_idem, ?Hnb;
     repeat split; reflexivity).
Qed.

Lemma int_le_self x : 0 <= x < 2 ^ 32 -> int x <= x.
Proof.
  intros Hx. unfold int.
  destruct (Z_lt_le_dec x (2 ^ 31)) as [Hlt|Hge].
  - rewrite Z.mod_small by lia. lia.
  - pose proof (Z.mod_pos_bound (x + 2 ^ 31) (2 ^ 32) ltac:(lia)). lia.
Qed.

Lemma fmap_length_eq (l1 l2 : list fsl_edma_sw_tcd) :
  ptcd <$> l1 = ptcd <$> l2 -> length l1 = length l2.
Proof.
  intros H. apply (f_equal length) in H. rewrite !length_fmap in H. exact H.
Qed.

Lemma tcd_size_decode cpu_be t :
  tcd_size cpu_be t =
  f_nbytes (tcd_decode cpu_be (vtcd t)) * f_biter (tcd_decode cpu_be (vtcd t)).
Proof. reflexivity. Qed.

Lemma iter_le q : 0 <= q -> 0 <= Z.land (u16 q) 0x7FFF <= q.
Proof.
  intros Hq. rewrite land_7fff_mod. unfold u16.
  pose proof (Z.mod_pos_bound q (2 ^ 16) ltac:(lia)).
  pose proof (Z.mod_pos_bound (q mod 2 ^ 16) (2 ^ 15) ltac:(lia)).
  pose proof (Z.mod_le q (2 ^ 16) Hq ltac:(lia)).
  pose proof (Z.mod_le (q mod 2 ^ 16) (2 ^ 15) ltac:(lia) ltac:(lia)).
  lia.
Qed.

Lemma iter_small q : 0 <= q < 2 ^ 15 -> Z.land (u16 q) 0x7FFF = q.
Proof.
  intros Hq. rewrite land_7fff_mod. unfold u16.
  rewrite (Z.mod_small q (2 ^ 16)) by lia. apply Z.mod_small. lia.
Qed.

(** X14: every entry of a scatter-gather descriptor carries the
    parameters of its segment: the segment's address on the memory side and
    the configured device address on the other, the address width as the
    offset of the memory side and none on the device side, the configured
    attribute, and the minor-loop byte count [nb], width times burst.  Its
    iteration count is the 15 low bits of the quotient of the segment length
    by [nb], so an entry never moves more than its segment, and it moves
    all of it when the length is a multiple of [nb] below 2^15 times
    [nb]. *)
Theorem fsl_edma_prep_slave_sg_entries (cpu_be kz : bool) (c c' : fsl_edma_chan)
    (sgl : list scatterlist) (sg_len : Z) (d : fsl_edma_desc) :
  0 <= sg_len < 2 ^ 32 ->
  fsl_edma_prep_slave_sg cpu_be kz c sgl sg_len = Ok (Some d, c') ->
  let nb := u32 (addr_width (fsc c) * burst (fsc c)) in
  forall (i : nat) (t : fsl_edma_sw_tcd),
    tcd d !! i = Some t ->
    exists sg,
      sgl !! i = Some sg /\
      sg_entry_data cpu_be c nb sg t /\
      (0 <= sg_dma_len sg -> 0 <= tcd_size cpu_be t <= sg_dma_len sg) /\
      (sg_dma_len sg mod nb = 0 -> 0 <= sg_dma_len sg / nb < 2 ^ 15 ->
       tcd_size cpu_be t = sg_dma_len sg).
Proof.
  intros Hlen H nb i t Ht. unfold fsl_edma_prep_slave_sg in H.
  destruct (is_slave_direction _); cbn [negb] in H; [|inv_ok; discriminate].
  destruct (fsl_edma_alloc_desc kz c (int sg_len)) as [[d0|] c1] eqn:E;
    inv_ok; [|discriminate].
  cbn [tcd] in Ht.
  apply fsl_edma_alloc_desc_Some in E. destruct E as (_ & Hl0 & _ & _ & _).
  pose proof (for_loop_ind
    (fun k tcds => ptcd <$> tcds = ptcd <$> tcd d0 /\
       forall j, (j < k)%nat -> exists t, tcds !! j = Some t /\
         (fun j t => nb <> 0 /\ exists sg, sgl !! j = Some sg /\
                       sg_entry_data cpu_be c nb sg t) j t)
    (sg_loop_body cpu_be c sgl sg_len nb) (Z.to_nat sg_len) 0 (tcd d0) a)
    as Hloop.
  destruct Hloop as [Hps Hall]; [| |exact Ha|].
  - intros k s1 s2 _. apply sg_loop_body_data. apply u32_idem.
  - split; [reflexivity | intros j Hj; lia].
  - pose proof (lookup_lt_Some _ _ _ Ht) as Hi.
    rewrite (fmap_length_eq _ _ Hps), Hl0 in Hi.
    pose proof (int_le_self sg_len Hlen) as Hint.
    destruct (Hall i ltac:(cbn; lia)) as (t1 & Ht1 & Hnz & sg & Hsg & Hdata).
    rewrite Ht in Ht1. injection Ht1 as <-.
    exists sg. split; [exact Hsg|]. split; [exact Hdata|].
    destruct Hdata as (_ & Hn & _ & _ & Hb & _).
    rewrite tcd_size_decode, Hn, Hb.
    pose proof (u32_range (addr_width (fsc c) * burst (fsc c))) as Hr.
    fold nb in Hr.
    split.
    + intros Hsl.
      pose proof (Z.div_pos (sg_dma_len sg) nb Hsl ltac:(lia)) as Hq.
      pose proof (iter_le _ Hq) as Hit.
      pose proof (Z.mul_div_le (sg_dma_len sg) nb ltac:(lia)). nia.
    + intros Hmod Hq. rewrite iter_small by exact Hq.
      pose proof (Z.div_mod (sg_dma_len sg) nb Hnz). lia.
Qed.

Lemma fsl_edma_prep_slave_sg_entries_witness :
  exists d c' t,
    fsl_edma_prep_slave_sg false true ex_chan_tx [mk_sg 0x20000 70] 1 =
      Ok (Some d, c') /\
    tcd d !! 0%nat = Some t /\
    sg_entry_data false ex_chan_tx 16 (mk_sg 0x20000 70) t /\
    tcd_size false t = 64.
Proof.
  eexists _, _, _. split; [reflexivity|]. split; [reflexivity|].
  split; [|reflexivity].
  destruct (fsl_edma_prep_slave_sg_entries false true ex_chan_tx _
              [mk_sg 0x20000 70] 1 _ ltac:(lia) eq_refl 0%nat _ eq_refl)
    as (sg & Hsg & Hdata & _).
  injection Hsg as <-. exact Hdata.
Defined.

(** ** Contents of a cyclic ring *)

Lemma cyclic_loop_body_data cpu_be c dma_addr buf_len period_len sg_len nb iter
    ps k st st' :
  u32 nb = nb ->
  iter = u16 (period_len / nb) ->
  0 <= dma_addr -> 0 < period_len ->
  dma_addr + buf_len < 2 ^ 64 ->
  (Z.of_nat k + 1) * period_len <= buf_len ->
  (fst st = dma_addr + Z.of_nat k * period_len /\
   ptcd <$> snd st = ps /\
   forall j, (j < k)%nat -> exists t, snd st !! j = Some t /\
     ring_entry_data cpu_be c dma_addr period_len nb j t) ->
  cyclic_loop_body cpu_be c dma_addr buf_len period_len sg_len nb iter k st =
    Ok st' ->
  (fst st' = dma_addr + Z.of_nat (S k) * period_len /\
   ptcd <$> snd st' = ps /\
   forall j, (j < S k)%nat -> exists t, snd st' !! j = Some t /\
     ring_entry_data cpu_be c dma_addr period_len nb j t).
Proof.
  intros Hnb Hiter Hda Hp Hend Hk (Hnext & Hps & Hdone) H.
  destruct st as [dma_buf_next tcds]. cbn [fst snd] in *.
  unfold cyclic_loop_body in H. cbv zeta in H.
  assert (Hno : (dma_addr_t (dma_addr + buf_len) <=? dma_buf_next) = false).
  { apply Z.leb_gt. unfold dma_addr_t. rewrite Z.mod_small by nia.
    rewrite Hnext. nia. }
  rewrite Hno in H.
  inv_ok.
  destruct (dir_eqb _ _) eqn:Ed; cbv beta iota zeta in H; inv_ok;
    cbn [fst snd];
    (split;
     [unfold dma_addr_t; rewrite Z.mod_small by nia; nia|]);
    (apply (loop_inv_insert
              (ring_entry_data cpu_be c dma_addr period_len nb));
     try assumption; try reflexivity;
     unfold ring_entry_data; cbn [vtcd]; rewrite tcd_decode_fill; cbv zeta;
     rewrite Ed;
     cbn [f_attr f_nbytes f_slast f_citer f_biter f_src f_dst f_soff f_doff];
     rewrite ?u16_land_7fff, ?u32_idem, ?u16_idem, ?Hnb;
     repeat split; reflexivity).
Qed.

(** X15: the entries of a cyclic descriptor tile the buffer: entry [i]
    has the address of period [i], [dma_addr + i * period_len], on its
    memory side, the configured device address on the other, and moves [nb]
    bytes per minor loop, width times burst, for the 15 low bits of
    [period_len / nb] iterations, so never more than a period.  The wrap
    test of the loop never fires.  The buffer is one that lies within the
    64-bit bus address space. *)
Theorem fsl_edma_prep_dma_cyclic_entries (cpu_be kz : bool)
    (c c' : fsl_edma_chan) (dma_addr buf_len period_len : Z)
    (d : fsl_edma_desc) :
  0 <= dma_addr -> 0 <= buf_len -> 0 < period_len ->
  dma_addr + buf_len < 2 ^ 64 ->
  fsl_edma_prep_dma_cyclic cpu_be kz c dma_addr buf_len period_len =
    Ok (Some d, c') ->
  let nb := u32 (addr_width (fsc c) * burst (fsc c)) in
  forall (i : nat) (t : fsl_edma_sw_tcd),
    tcd d !! i = Some t ->
    ring_entry_data cpu_be c dma_addr period_len nb i t /\
    (Z.of_nat i + 1) * period_len <= buf_len /\
    0 <= tcd_size cpu_be t <= period_len.
Proof.
  intros Hda Hbl Hp Hend H nb i t Ht.
  unfold fsl_edma_prep_dma_cyclic in H.
  destruct (is_slave_direction _); cbn [negb] in H; [|inv_ok; discriminate].
  inv_ok.
  destruct (fsl_edma_alloc_desc kz c (int (buf_len / period_len)))
    as [[d0|] c1] eqn:E; inv_ok; [|discriminate].
  cbn [tcd] in Ht. fold nb in Ha0, Hnz0.
  apply fsl_edma_alloc_desc_Some in E. destruct E as (_ & Hl0 & _ & _ & _).
  pose proof (Z.div_pos buf_len period_len Hbl Hp) as Hq.
  pose proof (Z.mul_div_le buf_len period_len Hp) as Hqp.
  assert (Hint : int (buf_len / period_len) <= buf_len / period_len).
  { unfold int.
    pose proof (Z.mod_le (buf_len / period_len + 2 ^ 31) (2 ^ 32)
                  ltac:(lia) ltac:(lia)). lia. }
  pose proof (for_loop_ind
    (fun k st =>
       fst st = dma_addr + Z.of_nat k * period_len /\
       ptcd <$> snd st = ptcd <$> tcd d0 /\
       forall j, (j < k)%nat -> exists t, snd st !! j = Some t /\
         ring_entry_data cpu_be c dma_addr period_len nb j t)
    (cyclic_loop_body cpu_be c dma_addr buf_len period_len
       (int (buf_len / period_len)) nb (u16 (period_len / nb)))
    (Z.to_nat (int (buf_len / period_len))) 0 (dma_addr, tcd d0) a0)
    as Hloop.
  destruct Hloop as (_ & Hps & Hall); [| |exact Ha0|].
  - intros k s1 s2 Hk.
    apply cyclic_loop_body_data; try assumption; try reflexivity.
    + apply u32_idem.
    + nia.
  - cbn [fst snd]. split; [lia|]. split; [reflexivity | intros j Hj; lia].
  - pose proof (lookup_lt_Some _ _ _ Ht) as Hi.
    rewrite (fmap_length_eq _ _ Hps), Hl0 in Hi.
    destruct (Hall i ltac:(cbn; lia)) as (t1 & Ht1 & Hdata).
    rewrite Ht in Ht1. injection Ht1 as <-.
    split; [exact Hdata|]. split; [nia|].
    destruct Hdata as (_ & Hn & _ & _ & Hb & _).
    rewrite tcd_size_decode, Hn, Hb.
    pose proof (u32_range (addr_width (fsc c) * burst (fsc c))) as Hr.
    fold nb in Hr.
    pose proof (Z.div_pos period_len nb ltac:(lia) ltac:(lia)) as Hq2.
    pose proof (iter_le _ Hq2) as Hit.
    pose proof (Z.mul_div_le period_len nb ltac:(lia)). nia.
Qed.

Lemma fsl_edma_prep_dma_cyclic_entries_witness :
  exists d c' t,
    fsl_edma_prep_dma_cyclic false true ex_chan_tx 0x80000000 4096 1024 =
      Ok (Some d, c') /\
    tcd d !! 3%nat = Some t /\
    ring_entry_data false ex_chan_tx 0x80000000 1024 16 3 t /\
    0 <= tcd_size false t <= 1024.
Proof.
  eexists _, _, _. split; [reflexivity|]. split; [reflexivity|].
  destruct (fsl_edma_prep_dma_cyclic_entries false true ex_chan_tx _
              0x80000000 4096 1024 _ ltac:(lia) ltac:(lia) ltac:(lia)
              ltac:(lia) eq_refl 3%nat _ eq_refl)
    as (Hdata & _ & Hsz).
  split; [exact Hdata | exact Hsz].
Defined.

(** ** Loops over the channels *)

Lemma same_static_refl e : same_static e e.
Proof. repeat split. Qed.

Lemma same_static_update e0 e evs ch c :
  same_static e0 e -> same_static e0 (set_chan (emit e evs) ch c).
Proof. intros H. exact H. Qed.

Lemma same_static_emit e0 e evs : same_static e0 e -> same_static e0 (emit e evs).
Proof. intros H. exact H. Qed.

Lemma edma_readl_static hw e0 e a :
  same_static e0 e ->
  edma_readl hw e (membase e + a) = edma_readl hw e0 (membase e0 + a).
Proof.
  intros (Hm & _ & _ & Hb & _). unfold edma_readl. rewrite Hm, Hb. reflexivity.
Qed.

Lemma lookup_update_eq e evs ch c c' :
  chans e !! ch = Some c ->
  chans (set_chan (emit e evs) ch c') !! ch = Some c'.
Proof.
  intros H. rewrite chans_set_chan, chans_emit.
  apply list_lookup_insert_eq. eapply lookup_lt_Some. exact H.
Qed.

Lemma lookup_update_ne e evs ch c' j :
  j <> ch -> chans (set_chan (emit e evs) ch c') !! j = chans e !! j.
Proof.
  intros H. rewrite chans_set_chan, chans_emit.
  apply list_lookup_insert_ne. congruence.
Qed.

(** A loop whose round [k] touches channel [k] only: afterwards every
    channel in the range is related to what it was, and the others are what
    they were. *)
Lemma for_loop_chans (e0 : fsl_edma_engine)
    (R : nat -> option fsl_edma_chan -> option fsl_edma_chan -> Prop)
    (body : nat -> fsl_edma_engine -> result fsl_edma_engine) :
  (forall k e e', same_static e0 e -> body k e = Ok e' ->
     same_static e0 e' /\ R k (chans e !! k) (chans e' !! k) /\
     forall j, j <> k -> chans e' !! j = chans e !! j) ->
  forall n i e e',
    same_static e0 e ->
    for_loop body n i e = Ok e' ->
    same_static e0 e' /\
    forall j,
      ((i <= j < i + n)%nat -> R j (chans e !! j) (chans e' !! j)) /\
      (~ (i <= j < i + n)%nat -> chans e' !! j = chans e !! j).
Proof.
  intros Hb. induction n as [|n IH]; intros i e e' Hs H; cbn in H; inv_ok.
  - split; [exact Hs|]. intros j. split; [lia | reflexivity].
  - destruct (Hb i e a Hs Ha) as (Hs1 & HR & Hfr).
    destruct (IH (S i) a e' Hs1 H) as (Hs2 & Hall).
    split; [exact Hs2|]. intros j. destruct (Hall j) as [Hin Hout]. split.
    + intros Hj. destruct (Nat.eq_dec j i) as [->|Hne].
      * rewrite Hout by lia. exact HR.
      * rewrite <- (Hfr j Hne). apply Hin. lia.
    + intros Hj. rewrite Hout by lia. apply Hfr. lia.
Qed.

(** ** The error interrupt *)

Lemma err_handler_body_chans e0 err k e e' :
  same_static e0 e ->
  err_handler_body err k e = Ok e' ->
  same_static e0 e' /\
  (fun k o o' =>
     o' = if Z.land err (u32 (Z.shiftl 0x1 (Z.of_nat k mod 32))) =? 0 then o
          else (fun c => set_idle (set_status c DMA_ERROR) true) <$> o)
    k (chans e !! k) (chans e' !! k) /\
  forall j, j <> k -> chans e' !! j = chans e !! j.
Proof.
  intros Hs. unfold err_handler_body.
  destruct (Z.land err _ =? 0); intros H; inv_ok.
  - split; [exact Hs|]. split; reflexivity.
  - split; [exact Hs|]. split.
    + rewrite (lookup_update_eq _ _ _ _ _ Ha), Ha. reflexivity.
    + intros j Hj. apply lookup_update_ne. exact Hj.
Qed.

(** X16: the error interrupt handler marks exactly the channels whose
    bit is set in the 32-bit error register, the bit of channel [ch] being
    bit [ch mod 32]: such a channel gets the status [DMA_ERROR] and is
    marked idle, and keeps its active descriptor and its queues; every
    other channel is left as it was.  On an engine of more than 32 channels
    a set bit so marks channel [ch] and channel [ch + 32].  The interrupt
    is reported as handled exactly when the register is not zero. *)
Theorem fsl_edma_err_handler_marks (hw : mmio) (e e' : fsl_edma_engine)
    (r : irqreturn_t) :
  fsl_edma_err_handler hw e = Ok (r, e') ->
  let err := edma_readl hw e (membase e + EDMA_ERR) in
  (r = IRQ_NONE <-> err = 0) /\
  forall (ch : nat) (c : fsl_edma_chan),
    chans e !! ch = Some c ->
    chans e' !! ch =
      Some (if (Z.of_nat ch <? n_chans e) &&
               negb (Z.land err
                       (u32 (Z.shiftl 0x1 (Z.of_nat ch mod 32))) =? 0)
            then set_idle (set_status c DMA_ERROR) true
            else c).
Proof.
  intros H err. unfold fsl_edma_err_handler in H. fold err in H.
  destruct (Z.eqb_spec err 0) as [E|E].
  - inv_ok. split; [tauto|]. intros ch c Hc.
    rewrite E, Z.land_0_l. cbn [Z.eqb negb]. rewrite andb_false_r. exact Hc.
  - inv_ok. split; [split; [discriminate | contradiction]|].
    intros ch c Hc.
    destruct (for_loop_chans e _ _
                (fun k e1 e2 => err_handler_body_chans e err k e1 e2)
                _ _ _ _ (same_static_refl e) Ha) as (_ & Hall).
    destruct (Hall ch) as [Hin Hout].
    destruct (Z.ltb_spec (Z.of_nat ch) (n_chans e)) as [Hlt|Hge]; cbn [andb].
    + rewrite Hin by lia. rewrite Hc.
      destruct (Z.land err _ =? 0); reflexivity.
    + rewrite Hout by lia. exact Hc.
Qed.

(** On the 34-channel engine the error bit 0 marks channels 0 and 32, and
    no other. *)
Lemma fsl_edma_err_handler_marks_witness :
  exists r e',
    fsl_edma_err_handler (ex_hw EDMA_ERR 1) ex_engine_34 = Ok (r, e') /\
    r = IRQ_HANDLED /\
    status <$> chans e' !! 0%nat = Some DMA_ERROR /\
    status <$> chans e' !! 32%nat = Some DMA_ERROR /\
    chans e' !! 1%nat = chans ex_engine_34 !! 1%nat /\
    chans e' !! 33%nat = chans ex_engine_34 !! 33%nat.
Proof.
  destruct (fsl_edma_err_handler (ex_hw EDMA_ERR 1) ex_engine_34)
    as [[r e']|] eqn:E; [|vm_compute in E; discriminate E].
  exists r, e'. split; [reflexivity|].
  destruct (fsl_edma_err_handler_marks _ _ _ _ E) as [Hr Hch].
  split.
  - destruct r; [|reflexivity]. destruct Hr as [Hr _].
    specialize (Hr eq_refl). vm_compute in Hr. discriminate Hr.
  - split; [|split; [|split]].
    + rewrite (Hch 0%nat (probe_chan 0) eq_refl). reflexivity.
    + rewrite (Hch 32%nat (probe_chan 32) eq_refl). reflexivity.
    + exact (Hch 1%nat (probe_chan 1) eq_refl).
    + exact (Hch 33%nat (probe_chan 33) eq_refl).
Defined.

Lemma err3_handler_body_chans hw e0 k e e' :
  same_static e0 e ->
  err3_handler_body hw k e = Ok e' ->
  same_static e0 e' /\
  (fun k o o' =>
     o' = if Z.land (edma_readl hw e0 (membase e0 + EDMA3_CHn_ES (Z.of_nat k)))
               EDMA3_CHn_ES_ERR =? 0 then o
          else (fun c => set_status c DMA_ERROR) <$> o)
    k (chans e !! k) (chans e' !! k) /\
  forall j, j <> k -> chans e' !! j = chans e !! j.
Proof.
  intros Hs. unfold err3_handler_body. cbv zeta.
  rewrite (edma_readl_static hw e0 e _ Hs).
  destruct (Z.land _ _ =? 0); intros H; inv_ok.
  - split; [exact Hs|]. split; reflexivity.
  - split; [exact Hs|]. split.
    + rewrite (lookup_update_eq _ _ _ _ _ Ha), Ha. reflexivity.
    + intros j Hj. apply lookup_update_ne. exact Hj.
Qed.

(** X17: the eDMA3 error handler, once the global error status is valid,
    marks exactly the channels whose own error status has the error bit:
    such a channel gets the status [DMA_ERROR] but, unlike on eDMA2, is not
    marked idle; every other channel is left as it was. *)
Theorem fsl_edma3_err_handler_marks (hw : mmio) (e e' : fsl_edma_engine)
    (r : irqreturn_t) :
  fsl_edma3_err_handler hw e = Ok (r, e') ->
  let valid :=
    negb (EDMA3_MP_ES_VLD (edma_readl hw e (membase e + EDMA3_MP_ES)) =? 0) in
  (r = IRQ_HANDLED <-> valid = true) /\
  forall (ch : nat) (c : fsl_edma_chan),
    chans e !! ch = Some c ->
    chans e' !! ch =
      Some (if valid && (Z.of_nat ch <? n_chans e) &&
               negb (Z.land (edma_readl hw e
                               (membase e + EDMA3_CHn_ES (Z.of_nat ch)))
                       EDMA3_CHn_ES_ERR =? 0)
            then set_status c DMA_ERROR
            else c).
Proof.
  intros H valid. unfold fsl_edma3_err_handler in H. unfold valid.
  destruct (EDMA3_MP_ES_VLD _ =? 0); cbn [negb andb].
  - inv_ok. split; [split; discriminate|]. intros ch c Hc. exact Hc.
  - inv_ok. split; [tauto|]. intros ch c Hc.
    destruct (for_loop_chans e _ _
                (fun k e1 e2 => err3_handler_body_chans hw e k e1 e2)
                _ _ _ _ (same_static_refl e) Ha) as (_ & Hall).
    destruct (Hall ch) as [Hin Hout].
    destruct (Z.ltb_spec (Z.of_nat ch) (n_chans e)) as [Hlt|Hge]; cbn [andb].
    + rewrite Hin by lia. rewrite Hc.
      destruct (Z.land _ _ =? 0); reflexivity.
    + rewrite Hout by lia. exact Hc.
Qed.

Lemma fsl_edma3_err_handler_marks_witness :
  exists r e',
    fsl_edma3_err_handler ex_hw3 ex_engine_s32g = Ok (r, e') /\
    chans e' !! 0%nat =
      Some (set_status (chan0_of ex_engine_s32g) DMA_ERROR) /\
    chans e' !! 1%nat = chans ex_engine_s32g !! 1%nat.
Proof.
  destruct (fsl_edma3_err_handler ex_hw3 ex_engine_s32g)
    as [[r e']|] eqn:E; [|vm_compute in E; discriminate E].
  exists r, e'. split; [reflexivity|].
  destruct (fsl_edma3_err_handler_marks _ _ _ _ E) as [_ Hch].
  split.
  - exact (Hch 0%nat (chan0_of ex_engine_s32g) eq_refl).
  - exact (Hch 1%nat (probe_chan 1) eq_refl).
Defined.

(** ** The completion interrupt *)

Lemma fsl_edma_xfer_desc_vchan cpu_be e c c' evs :
  fsl_edma_xfer_desc cpu_be e c = Ok (c', evs) ->
  vchan c' = vchan c /\ tcd_pool c' = tcd_pool c.
Proof.
  unfold fsl_edma_xfer_desc. destruct (vchan_next_desc _); intros H; inv_ok;
    split; reflexivity.
Qed.

Lemma tx_complete_served cpu_be b e c c' evs :
  tx_complete cpu_be b e c = Ok (c', evs) -> tx_served c c'.
Proof.
  unfold tx_complete. intros H. inv_ok. exists a. split; [exact Ha|].
  destruct (iscyclic a) eqn:Ec; cbn [negb] in H.
  - cbn [set_vchan edesc] in H. rewrite Ha in H. inv_ok.
    unfold vchan_cyclic_callback. destruct c; reflexivity.
  - assert (Hn : edesc (if b
                        then set_idle (set_status (set_edesc (set_vchan c
                               (vchan_cookie_complete (list_del (vchan c) a) a))
                               None) DMA_COMPLETE) true
                        else set_status (set_edesc (set_vchan c
                               (vchan_cookie_complete (list_del (vchan c) a) a))
                               None) DMA_COMPLETE) = None)
      by (destruct b; reflexivity).
    rewrite Hn in H. apply fsl_edma_xfer_desc_vchan in H.
    destruct H as [Hv Hp]. rewrite Hv, Hp. destruct b; repeat split.
Qed.

Lemma tx_handler_body_chans cpu_be e0 intr k e e' :
  same_static e0 e ->
  tx_handler_body cpu_be intr k e = Ok e' ->
  same_static e0 e' /\
  (fun k o o' =>
     if Z.land intr (u32 (Z.shiftl 0x1 (Z.of_nat k mod 32))) =? 0 then o' = o
     else exists c c', o = Some c /\ o' = Some c' /\ tx_served c c')
    k (chans e !! k) (chans e' !! k) /\
  forall j, j <> k -> chans e' !! j = chans e !! j.
Proof.
  intros Hs. unfold tx_handler_body.
  destruct (Z.land intr _ =? 0); intros H; inv_ok.
  - split; [exact Hs|]. split; reflexivity.
  - destruct a0 as [c' evs]. inv_ok. rewrite chans_emit in Ha.
    split; [exact Hs|]. split.
    + exists a, c'. split; [exact Ha|]. split.
      * rewrite chans_set_chan, !chans_emit.
        apply list_lookup_insert_eq. eapply lookup_lt_Some. exact Ha.
      * eapply tx_complete_served. exact Ha0.
    + intros j Hj. rewrite chans_set_chan, !chans_emit.
      apply list_lookup_insert_ne. congruence.
Qed.

(** X18: when the completion interrupt handler returns, it has served
    exactly the channels whose bit is set in the 32-bit interrupt register,
    the bit of channel [ch] being bit [ch mod 32]: such a channel had an
    active descriptor, which stays in place when it is cyclic and is
    completed otherwise, its cookie becoming the completed cookie; every
    other channel is left as it was.  On an engine of more than 32 channels
    a set bit so serves channel [ch] and channel [ch + 32]. *)
Theorem fsl_edma_tx_handler_serves (cpu_be : bool) (hw : mmio)
    (e e' : fsl_edma_engine) (r : irqreturn_t) :
  fsl_edma_tx_handler cpu_be hw e = Ok (r, e') ->
  let intr := edma_readl hw e (membase e + EDMA_INTR) in
  forall ch : nat,
    if (Z.of_nat ch <? n_chans e) &&
       negb (Z.land intr (u32 (Z.shiftl 0x1 (Z.of_nat ch mod 32))) =? 0)
    then exists c c',
           chans e !! ch = Some c /\ chans e' !! ch = Some c' /\
           tx_served c c'
    else chans e' !! ch = chans e !! ch.
Proof.
  intros H intr ch. unfold fsl_edma_tx_handler in H. fold intr in H.
  destruct (Z.eqb_spec intr 0) as [E|E].
  - inv_ok. rewrite E, Z.land_0_l. cbn [Z.eqb negb].
    rewrite andb_false_r. reflexivity.
  - inv_ok.
    destruct (for_loop_chans e _ _
                (fun k e1 e2 => tx_handler_body_chans cpu_be e intr k e1 e2)
                _ _ _ _ (same_static_refl e) Ha) as (_ & Hall).
    destruct (Hall ch) as [Hin Hout].
    destruct (Z.ltb_spec (Z.of_nat ch) (n_chans e)) as [Hlt|Hge]; cbn [andb].
    + specialize (Hin ltac:(lia)).
      destruct (Z.land intr _ =? 0); cbn [negb]; exact Hin.
    + apply Hout. lia.
Qed.

(** On the 34-channel engine the interrupt bit 0 serves channel 0 and
    channel 32, and no other. *)
Lemma fsl_edma_tx_handler_serves_witness :
  exists r e' c0 c32,
    fsl_edma_tx_handler false (ex_hw EDMA_INTR 1) ex_engine_34_two =
      Ok (r, e') /\
    chans e' !! 0%nat = Some c0 /\
    tx_served (chan0_of ex_engine_34_two) c0 /\
    status c0 = DMA_COMPLETE /\
    chans e' !! 32%nat = Some c32 /\
    status c32 = DMA_COMPLETE /\
    chans e' !! 1%nat = chans ex_engine_34_two !! 1%nat /\
    chans e' !! 33%nat = chans ex_engine_34_two !! 33%nat.
Proof.
  destruct (fsl_edma_tx_handler false (ex_hw EDMA_INTR 1) ex_engine_34_two)
    as [[r e']|] eqn:E; [|vm_compute in E; discriminate E].
  pose proof (fsl_edma_tx_handler_serves _ _ _ _ _ E) as H.
  cbv zeta in H.
  pose proof (H 0%nat) as H0. pose proof (H 1%nat) as H1.
  pose proof (H 32%nat) as H32. pose proof (H 33%nat) as H33.
  change ((Z.of_nat 0 <? n_chans ex_engine_34_two) &&
          negb (Z.land (edma_readl (ex_hw EDMA_INTR 1) ex_engine_34_two
                          (membase ex_engine_34_two + EDMA_INTR))
                  (u32 (Z.shiftl 1 (Z.of_nat 0 mod 32))) =? 0)) with true in H0.
  change ((Z.of_nat 1 <? n_chans ex_engine_34_two) &&
          negb (Z.land (edma_readl (ex_hw EDMA_INTR 1) ex_engine_34_two
                          (membase ex_engine_34_two + EDMA_INTR))
                  (u32 (Z.shiftl 1 (Z.of_nat 1 mod 32))) =? 0)) with false in H1.
  change ((Z.of_nat 32 <? n_chans ex_engine_34_two) &&
          negb (Z.land (edma_readl (ex_hw EDMA_INTR 1) ex_engine_34_two
                          (membase ex_engine_34_two + EDMA_INTR))
                  (u32 (Z.shiftl 1 (Z.of_nat 32 mod 32))) =? 0))
    with true in H32.
  change ((Z.of_nat 33 <? n_chans ex_engine_34_two) &&
          negb (Z.land (edma_readl (ex_hw EDMA_INTR 1) ex_engine_34_two
                          (membase ex_engine_34_two + EDMA_INTR))
                  (u32 (Z.shiftl 1 (Z.of_nat 33 mod 32))) =? 0))
    with false in H33.
  destruct H0 as (c & c0 & Hc & Hc0 & Hs).
  destruct H32 as (c' & c32 & _ & Hc32 & _).
  exists r, e', c0, c32. split; [reflexivity|]. split; [exact Hc0|].
  change (chans ex_engine_34_two !! 0%nat)
    with (Some (chan0_of ex_engine_34_two)) in Hc.
  injection Hc as <-. split; [exact Hs|].
  vm_compute in E. injection E as <- <-.
  vm_compute in Hc0. injection Hc0 as <-.
  vm_compute in Hc32. injection Hc32 as <-.
  split; [reflexivity|]. split; [reflexivity|]. split; [reflexivity|].
  split; [exact H1 | exact H33].
Defined.

(** ** Suspend and resume *)

Lemma suspend_late_body_chans e0 k e e' :
  same_static e0 e ->
  suspend_late_body k e = Ok e' ->
  same_static e0 e' /\
  (fun (k : nat) o o' => o' = (fun c => set_pm_state c SUSPENDED) <$> o)
    k (chans e !! k) (chans e' !! k) /\
  forall j, j <> k -> chans e' !! j = chans e !! j.
Proof.
  intros Hs. unfold suspend_late_body. intros H. inv_ok.
  split; [exact Hs|]. split.
  - rewrite (lookup_update_eq _ _ _ _ _ Ha), Ha. reflexivity.
  - intros j Hj. apply lookup_update_ne. exact Hj.
Qed.

Lemma resume_early_body_chans e0 k e e' :
  same_static e0 e ->
  resume_early_body k e = Ok e' ->
  same_static e0 e' /\
  (fun (k : nat) o o' => o' = (fun c => set_pm_state c RUNNING) <$> o)
    k (chans e !! k) (chans e' !! k) /\
  forall j, j <> k -> chans e' !! j = chans e !! j.
Proof.
  intros Hs. unfold resume_early_body. intros H. inv_ok.
  split; [exact Hs|]. split.
  - rewrite (lookup_update_eq _ _ _ _ _ Ha), Ha. reflexivity.
  - intros j Hj. apply lookup_update_ne. exact Hj.
Qed.

Lemma fsl_edma_suspend_late_chans e e' :
  fsl_edma_suspend_late e = Ok e' ->
  same_static e e' /\
  forall (ch : nat) c,
    Z.of_nat ch < n_chans e -> chans e !! ch = Some c ->
    chans e' !! ch = Some (set_pm_state c SUSPENDED).
Proof.
  unfold fsl_edma_suspend_late. intros H.
  destruct (for_loop_chans e _ _
              (fun k e1 e2 => suspend_late_body_chans e k e1 e2)
              _ _ _ _ (same_static_refl e) H) as (Hs & Hall).
  split; [exact Hs|]. intros ch c Hlt Hc.
  destruct (Hall ch) as [Hin _]. rewrite Hin by lia. rewrite Hc. reflexivity.
Qed.

Lemma fsl_edma_resume_early_chans e e' :
  fsl_edma_resume_early e = Ok e' ->
  forall (ch : nat) c,
    Z.of_nat ch < n_chans e -> chans e !! ch = Some c ->
    chans e' !! ch = Some (set_pm_state c RUNNING).
Proof.
  unfold fsl_edma_resume_early. intros H. inv_ok.
  destruct (for_loop_chans e _ _
              (fun k e1 e2 => resume_early_body_chans e k e1 e2)
              _ _ _ _ (same_static_refl e) Ha) as (Hs & Hall).
  intros ch c Hlt Hc. rewrite chans_emit.
  destruct (Hall ch) as [Hin _]. rewrite Hin by lia. rewrite Hc. reflexivity.
Qed.

Lemma fsl_edma_xfer_desc_pm_state cpu_be e c c1 evs p :
  fsl_edma_xfer_desc cpu_be e c = Ok (c1, evs) ->
  fsl_edma_xfer_desc cpu_be e (set_pm_state c p) = Ok (set_pm_state c1 p, evs).
Proof.
  unfold fsl_edma_xfer_desc.
  change (vchan (set_pm_state c p)) with (vchan c).
  destruct (vchan_next_desc (vchan c)) as [n|];
    [|intros H; inv_ok; reflexivity].
  destruct (tcd n !! 0%nat) as [t0|]; cbn [deref mbind result_bind];
    [|discriminate].
  intros H. cbn [mret result_ret] in H |- *. injection H as <- <-.
  destruct e as [? ? ? ? sd ? ?]. destruct sd; reflexivity.
Qed.

Lemma tx_complete_pm_state cpu_be b e c c1 evs p :
  tx_complete cpu_be b e c = Ok (c1, evs) ->
  tx_complete cpu_be b e (set_pm_state c p) = Ok (set_pm_state c1 p, evs).
Proof.
  unfold tx_complete. change (edesc (set_pm_state c p)) with (edesc c).
  destruct (edesc c) as [d|] eqn:Hd; cbn [deref mbind result_bind];
    [|discriminate].
  destruct (iscyclic d); cbn [negb].
  - change (edesc (set_vchan (set_pm_state c p)
                     (vchan_cyclic_callback (vchan (set_pm_state c p)) d)))
      with (edesc c).
    change (edesc (set_vchan c (vchan_cyclic_callback (vchan c) d)))
      with (edesc c).
    rewrite Hd. intros H. cbn [mret result_ret] in H |- *.
    injection H as <- <-. reflexivity.
  - destruct b; intros H;
      exact (fsl_edma_xfer_desc_pm_state cpu_be e _ c1 evs p H).
Qed.

(** X19: after [fsl_edma_suspend_late] every channel is suspended and
    otherwise as it was, with its active descriptor, its queues and its
    status, and [fsl_edma_issue_pending] on such a channel does nothing.
    The completion interrupt is not held back in the same way: what the
    handler does for a served channel (lines 780 to 797) does not look at
    the power state, so on the suspended channel it completes the active
    descriptor and starts the next issued one, with the same register
    writes as on the running channel. *)
Theorem fsl_edma_suspend_late_all (cpu_be : bool) (e e' : fsl_edma_engine)
    (ch : nat) (c : fsl_edma_chan) :
  fsl_edma_suspend_late e = Ok e' ->
  Z.of_nat ch < n_chans e ->
  chans e !! ch = Some c ->
  chans e' !! ch = Some (set_pm_state c SUSPENDED) /\
  step cpu_be e' (call_issue_pending ch) = Ok e' /\
  forall (b : bool) (c1 : fsl_edma_chan) (evs : list io_event),
    tx_complete cpu_be b e' c = Ok (c1, evs) ->
    tx_complete cpu_be b e' (set_pm_state c SUSPENDED) =
      Ok (set_pm_state c1 SUSPENDED, evs).
Proof.
  intros H Hlt Hc.
  destruct (fsl_edma_suspend_late_chans e e' H) as [_ Hall].
  pose proof (Hall ch c Hlt Hc) as Hc'. split; [exact Hc'|]. split.
  - cbn [step]. unfold on_chan. rewrite Hc'. cbn [deref mbind result_bind].
    unfold fsl_edma_issue_pending. cbn [set_pm_state pm_state mbind result_bind
      mret result_ret].
    rewrite emit_nil. rewrite set_chan_same by exact Hc'. reflexivity.
  - intros b c1 evs. apply tx_complete_pm_state.
Qed.

(** With one request active and one issued behind it, the engine is
    suspended and the completion interrupt of channel 0 arrives: the
    handler completes cookie 2 and starts cookie 3 on the suspended
    channel, with the 14 register writes of a start. *)
Lemma fsl_edma_suspend_late_all_witness :
  exists e' c1 evs r e2,
    fsl_edma_suspend_late ex_engine_two = Ok e' /\
    chans e' !! 0%nat =
      Some (set_pm_state (chan0_of ex_engine_two) SUSPENDED) /\
    step false e' (call_issue_pending 0) = Ok e' /\
    tx_complete false true e' (set_pm_state (chan0_of ex_engine_two) SUSPENDED)
      = Ok (c1, evs) /\
    pm_state c1 = SUSPENDED /\ cookie <$> edesc c1 = Some 3 /\
    status c1 = DMA_IN_PROGRESS /\ length evs = 14%nat /\
    fsl_edma_tx_handler false (ex_hw EDMA_INTR 1) e' = Ok (r, e2) /\
    chans e2 !! 0%nat = Some c1.
Proof.
  destruct (fsl_edma_suspend_late ex_engine_two) as [e'|] eqn:E;
    [|vm_compute in E; discriminate E].
  destruct (tx_complete false true e' (chan0_of ex_engine_two))
    as [[c0 evs]|] eqn:T;
    [|vm_compute in E; injection E as <-; vm_compute in T; discriminate T].
  destruct (fsl_edma_suspend_late_all false ex_engine_two e' 0
              (chan0_of ex_engine_two) E eq_refl eq_refl) as (Hc & Hi & Ht).
  specialize (Ht true c0 evs T).
  exists e', (set_pm_state c0 SUSPENDED), evs.
  vm_compute in E. injection E as <-.
  vm_compute in T. injection T as <- <-.
  eexists _, _.
  split; [reflexivity|]. split; [exact Hc|]. split; [exact Hi|].
  split; [exact Ht|].
  repeat (split; [reflexivity|]).
  split; vm_compute; reflexivity.
Defined.

(** X20: suspending and then resuming gives back every channel with its
    descriptors, its queues, its status and its idle flag as before the
    suspension, in the running state: a channel that was running is exactly
    as it was. *)
Theorem fsl_edma_suspend_resume (e e1 e2 : fsl_edma_engine) (ch : nat)
    (c : fsl_edma_chan) :
  fsl_edma_suspend_late e = Ok e1 ->
  fsl_edma_resume_early e1 = Ok e2 ->
  Z.of_nat ch < n_chans e ->
  chans e !! ch = Some c ->
  chans e2 !! ch = Some (set_pm_state c RUNNING) /\
  (pm_state c = RUNNING -> chans e2 !! ch = Some c).
Proof.
  intros H1 H2 Hlt Hc.
  destruct (fsl_edma_suspend_late_chans e e1 H1) as [Hs Hall].
  pose proof (Hall ch c Hlt Hc) as Hc1.
  destruct Hs as (_ & _ & Hn & _).
  pose proof (fsl_edma_resume_early_chans e1 e2 H2 ch _ ltac:(lia) Hc1) as Hc2.
  assert (Hc3 : chans e2 !! ch = Some (set_pm_state c RUNNING))
    by (rewrite Hc2; reflexivity).
  split; [exact Hc3|].
  intros Hpm. rewrite Hc3. f_equal. destruct c; cbn in *. subst. reflexivity.
Qed.

Lemma fsl_edma_suspend_resume_witness :
  exists e1 e2,
    fsl_edma_suspend_late ex_engine_active = Ok e1 /\
    fsl_edma_resume_early e1 = Ok e2 /\
    chans e2 !! 0%nat = chans ex_engine_active !! 0%nat.
Proof.
  destruct (fsl_edma_suspend_late ex_engine_active) as [e1|] eqn:E1;
    [|vm_compute in E1; discriminate E1].
  destruct (fsl_edma_resume_early e1) as [e2|] eqn:E2.
  - exists e1, e2. split; [reflexivity|]. split; [exact E2|].
    destruct (fsl_edma_suspend_resume ex_engine_active e1 e2 0
                (chan0_of ex_engine_active) E1 E2 eq_refl eq_refl) as [_ H].
    rewrite (H eq_refl). reflexivity.
  - exfalso. vm_compute in E1. injection E1 as <-.
    vm_compute in E2. discriminate E2.
Defined.

(** ** Pause, error and resume *)





Lemma queue_blocks_app l1 l2 :
  queue_blocks (l1 ++ l2) = queue_blocks l1 ++ queue_blocks l2.
Proof.
  induction l1 as [|d l1 IH]; [reflexivity|].
  cbn [app queue_blocks]. rewrite IH, app_assoc. reflexivity.
Qed.

Lemma fmap_ptcd_rev (l : list fsl_edma_sw_tcd) : ptcd <$> rev l ≡ₚ ptcd <$> l.
Proof.
  induction l as [|b l IH]; [reflexivity|].
  cbn [rev]. rewrite fmap_app, IH. cbn [fmap list_fmap].
  apply Permutation_app_comm.
Qed.

Lemma vchan_dma_desc_free_list_wf (l : list fsl_edma_desc) :
  Forall desc_wf l ->
  forall pool, exists pool',
    vchan_dma_desc_free_list pool l = Ok pool' /\
    ptcd <$> pool' ≡ₚ queue_blocks l ++ (ptcd <$> pool).
Proof.
  induction 1 as [|d l Hd _ IH]; intros pool.
  - exists pool. split; reflexivity.
  - cbn [vchan_dma_desc_free_list].
    rewrite (fsl_edma_free_desc_wf pool d Hd). cbn [mbind result_bind].
    destruct (IH (rev (tcd d) ++ pool)) as (pool' & Hf & Hp).
    exists pool'. split; [exact Hf|].
    rewrite Hp. rewrite fmap_app, fmap_ptcd_rev.
    cbn [queue_blocks]. unfold desc_blocks. solve_Permutation.
Qed.

Lemma fsl_edma_alloc_desc_chan kz c n od c1 :
  fsl_edma_alloc_desc kz c n = (od, c1) ->
  vchan c1 = vchan c /\ fsc c1 = fsc c.
Proof.
  unfold fsl_edma_alloc_desc. destruct kz; cbn [negb].
  - destruct (alloc_tcds _ _ _) as [[tcds|] pool]; intros H;
      injection H as _ <-; split; reflexivity.
  - intros H. injection H as _ <-. split; reflexivity.
Qed.

Lemma loop_inv_length (Q : nat -> fsl_edma_sw_tcd -> Prop) (n : nat)
    (tcds : list fsl_edma_sw_tcd) :
  (forall j, (j < n)%nat -> exists t, tcds !! j = Some t /\ Q j t) ->
  (n <= length tcds)%nat.
Proof.
  intros H. destruct n as [|n]; [lia|].
  destruct (H n ltac:(lia)) as (t & Ht & _).
  apply lookup_lt_Some in Ht. lia.
Qed.

Lemma fsl_edma_prep_slave_sg_blocks cpu_be kz c sgl sg_len od c1 :
  0 <= sg_len < 2 ^ 32 ->
  fsl_edma_prep_slave_sg cpu_be kz c sgl sg_len = Ok (od, c1) ->
  vchan c1 = vchan c /\
  match od with
  | None => c1 = c
  | Some d =>
      desc_wf d /\
      desc_blocks d ++ (ptcd <$> tcd_pool c1) = ptcd <$> tcd_pool c
  end.
Proof.
  intros Hlen H. unfold fsl_edma_prep_slave_sg in H.
  destruct (is_slave_direction _); cbn [negb] in H;
    [|inv_ok; split; reflexivity].
  destruct (fsl_edma_alloc_desc kz c (int sg_len)) as [[d0|] c0] eqn:E;
    inv_ok.
  - destruct (fsl_edma_alloc_desc_chan _ _ _ _ _ E) as [Hv _].
    split; [exact Hv|].
    apply fsl_edma_alloc_desc_Some in E.
    destruct E as (_ & Hl0 & Hn0 & _ & Happ).
    apply sg_loop_spec in Ha. destruct Ha as [Hps Hall].
    apply loop_inv_length in Hall.
    pose proof (fmap_length_eq _ _ Hps) as Hl.
    assert (Hint : int sg_len = sg_len).
    { destruct (Z_lt_le_dec sg_len (2 ^ 31)) as [Hlt|Hge];
        [apply int_small; lia|].
      exfalso. assert (int sg_len < 0).
      { unfold int.
        replace (sg_len + 2 ^ 31) with (sg_len - 2 ^ 31 + 1 * 2 ^ 32) by lia.
        rewrite Z.mod_add by lia. rewrite Z.mod_small by lia. lia. }
      lia. }
    split.
    + unfold desc_wf. cbn [n_tcds tcd]. rewrite Hn0, Hl, Hl0, Hint.
      rewrite u32_small by lia. lia.
    + unfold desc_blocks. cbn [tcd]. rewrite Hps, <- Happ, fmap_app.
      reflexivity.
  - destruct (fsl_edma_alloc_desc_chan _ _ _ _ _ E) as [Hv _].
    split; [exact Hv|].
    apply fsl_edma_alloc_desc_None in E. apply E.
Qed.

Lemma fsl_edma_prep_dma_cyclic_blocks cpu_be kz c dma_addr buf_len period_len
    od c1 :
  0 <= buf_len / period_len <= INT_MAX ->
  fsl_edma_prep_dma_cyclic cpu_be kz c dma_addr buf_len period_len =
    Ok (od, c1) ->
  vchan c1 = vchan c /\
  match od with
  | None => c1 = c
  | Some d =>
      desc_wf d /\
      desc_blocks d ++ (ptcd <$> tcd_pool c1) = ptcd <$> tcd_pool c
  end.
Proof.
  intros Hq H. unfold fsl_edma_prep_dma_cyclic in H. unfold INT_MAX in Hq.
  destruct (is_slave_direction _); cbn [negb] in H;
    [|inv_ok; split; reflexivity].
  inv_ok.
  rewrite (int_small (buf_len / period_len)) in H by lia.
  destruct (fsl_edma_alloc_desc kz c (buf_len / period_len))
    as [[d0|] c0] eqn:E; inv_ok.
  - destruct (fsl_edma_alloc_desc_chan _ _ _ _ _ E) as [Hv _].
    split; [exact Hv|].
    apply fsl_edma_alloc_desc_Some in E.
    destruct E as (_ & Hl0 & Hn0 & _ & Happ).
    apply cyclic_loop_spec in Ha0; [|unfold INT_MAX; lia].
    destruct Ha0 as [Hps _]. cbn [snd] in Hps.
    pose proof (fmap_length_eq _ _ Hps) as Hl.
    split.
    + unfold desc_wf. cbn [n_tcds tcd]. rewrite Hn0, Hl, Hl0.
      rewrite u32_small by lia. lia.
    + unfold desc_blocks. cbn [tcd]. rewrite Hps, <- Happ, fmap_app.
      reflexivity.
  - destruct (fsl_edma_alloc_desc_chan _ _ _ _ _ E) as [Hv _].
    split; [exact Hv|].
    apply fsl_edma_alloc_desc_None in E. apply E.
Qed.

Lemma submit_conserved r c c' evs :
  (forall od c1, r = Ok (od, c1) ->
     vchan c1 = vchan c /\
     match od with
     | None => c1 = c
     | Some d =>
         desc_wf d /\
         desc_blocks d ++ (ptcd <$> tcd_pool c1) = ptcd <$> tcd_pool c
     end) ->
  chan_wf c ->
  submit r = Ok (c', evs) ->
  chan_wf c' /\ chan_blocks c' ≡ₚ chan_blocks c.
Proof.
  intros Hr (Hs & Hi & Hc) H. unfold submit in H. inv_ok.
  destruct a as [od c1]. destruct (Hr od c1 Ha) as [Hv Hod].
  destruct od as [d|]; inv_ok.
  - destruct Hod as [Hwf Hb]. split.
    + unfold chan_wf. cbn. rewrite Hv. repeat split; try assumption.
      apply Forall_app. split; [exact Hs|]. constructor; [exact Hwf|constructor].
    + unfold chan_blocks. cbn. rewrite Hv, <- Hb, queue_blocks_app.
      cbn [queue_blocks]. unfold desc_blocks at 1. cbn [set_cookie tcd].
      fold (desc_blocks d). solve_Permutation.
  - subst. split; [repeat split; assumption | reflexivity].
Qed.

Lemma fields_conserved c c' :
  vchan c' = vchan c -> tcd_pool c' = tcd_pool c ->
  chan_wf c -> chan_wf c' /\ chan_blocks c' ≡ₚ chan_blocks c.
Proof.
  intros Hv Hp Hwf. unfold chan_wf, chan_blocks. rewrite Hv, Hp.
  split; [exact Hwf | reflexivity].
Qed.

Lemma fsl_edma_issue_pending_conserved cpu_be e c c' evs :
  chan_wf c ->
  fsl_edma_issue_pending cpu_be e c = Ok (c', evs) ->
  chan_wf c' /\ chan_blocks c' ≡ₚ chan_blocks c.
Proof.
  intros (Hs & Hi & Hc) H. unfold fsl_edma_issue_pending in H.
  destruct (pm_state c); [|inv_ok; split; [repeat split; assumption | reflexivity]].
  unfold vchan_issue_pending in H.
  set (v := mk_vchan _ _ _ _ _ _) in H.
  assert (Hgoal : chan_wf (set_vchan c v) /\
                  chan_blocks (set_vchan c v) ≡ₚ chan_blocks c).
  { split.
    - unfold chan_wf. cbn. repeat split; try assumption; [constructor|].
      apply Forall_app. split; assumption.
    - unfold chan_blocks. cbn. rewrite queue_blocks_app. solve_Permutation. }
  destruct (_ && _).
  - apply fsl_edma_xfer_desc_vchan in H. destruct H as [Hv Hp].
    destruct Hgoal as [Hw Hb]. unfold chan_wf, chan_blocks in *.
    rewrite Hv, Hp. split; assumption.
  - inv_ok. exact Hgoal.
Qed.

Lemma fsl_edma_terminate_all_conserved e c c' evs :
  chan_wf c ->
  fsl_edma_terminate_all e c = Ok (c', evs) ->
  (chan_wf c' /\ chan_blocks c' ≡ₚ chan_blocks c) /\
  desc_submitted (vchan c') = [] /\ desc_issued (vchan c') = [] /\
  desc_completed (vchan c') = [] /\ edesc c' = None.
Proof.
  intros (Hs & Hi & Hc) H. unfold fsl_edma_terminate_all in H.
  cbn [vchan_get_all_descriptors] in H. inv_ok.
  cbn in Ha.
  destruct (vchan_dma_desc_free_list_wf
              (desc_submitted (vchan c) ++ desc_issued (vchan c) ++
               desc_completed (vchan c))
              ltac:(repeat (apply Forall_app; split); assumption)
              (tcd_pool c)) as (pool' & Hf & Hp).
  rewrite Hf in Ha. injection Ha as <-.
  split; [|cbn; repeat split]. split.
  - unfold chan_wf. cbn. repeat split; constructor.
  - unfold chan_blocks. cbn. rewrite app_nil_r, Hp, !queue_blocks_app.
    solve_Permutation.
Qed.

Lemma vchan_complete_conserved c c' :
  chan_wf c ->
  vchan_complete c = Ok c' ->
  chan_wf c' /\ chan_blocks c' ≡ₚ chan_blocks c.
Proof.
  intros (Hs & Hi & Hc) H. unfold vchan_complete in H. inv_ok.
  destruct (vchan_dma_desc_free_list_wf _ Hc (tcd_pool c)) as (pool' & Hf & Hp).
  rewrite Hf in Ha. injection Ha as <-. split.
  - unfold chan_wf. cbn. repeat split; try assumption. constructor.
  - unfold chan_blocks. cbn. rewrite Hp. solve_Permutation.
Qed.

Lemma tx_complete_conserved cpu_be b e c c' evs :
  chan_inv c -> chan_wf c ->
  tx_complete cpu_be b e c = Ok (c', evs) ->
  chan_wf c' /\ chan_blocks c' ≡ₚ chan_blocks c.
Proof.
  intros Hinv (Hs & Hi & Hc) H. unfold tx_complete in H. inv_ok.
  destruct (Hinv a Ha) as [Hh _].
  destruct (desc_issued (vchan c)) as [|d rest] eqn:Hiss; [discriminate|].
  injection Hh as ->.
  destruct (iscyclic a) eqn:Ec; cbn [negb] in H.
  - cbn [set_vchan edesc] in H. rewrite Ha in H. inv_ok.
    apply fields_conserved; try reflexivity.
    unfold chan_wf. rewrite Hiss. repeat split; assumption.
  - set (v := vchan_cookie_complete (list_del (vchan c) a) a) in H.
    assert (Hv : desc_submitted v = desc_submitted (vchan c) /\
                 desc_issued v = rest /\
                 desc_completed v = desc_completed (vchan c) ++ [a]).
    { unfold v, vchan_cookie_complete, list_del, set_desc_issued. cbn.
      rewrite Hiss. cbn [remove_first]. rewrite Z.eqb_refl. repeat split. }
    destruct Hv as (Hvs & Hvi & Hvc).
    assert (Hx : exists c1, vchan c1 = v /\ tcd_pool c1 = tcd_pool c /\
                   edesc c1 = None /\
                   fsl_edma_xfer_desc cpu_be e c1 = Ok (c', evs)).
    { destruct b; eexists; (split; [|split; [|split; [|exact H]]]);
        reflexivity. }
    destruct Hx as (c1 & H1 & H2 & _ & Hx).
    apply fsl_edma_xfer_desc_vchan in Hx. destruct Hx as [Hxv Hxp].
    apply Forall_cons in Hi. destruct Hi as [Hda Hrest].
    unfold chan_wf, chan_blocks. rewrite Hxv, Hxp, H1, H2, Hvs, Hvi, Hvc.
    split.
    + repeat split; try assumption. apply Forall_app. split; [exact Hc|].
      constructor; [exact Hda | constructor].
    + rewrite Hiss, queue_blocks_app. cbn [queue_blocks]. solve_Permutation.
Qed.

Lemma same_blocks_refl e : same_blocks e e.
Proof.
  unfold same_blocks. apply Forall2_same_length_lookup. split; [reflexivity|].
  intros i x y Hx Hy. rewrite Hx in Hy. injection Hy as <-. reflexivity.
Qed.

Lemma conserved_refl e : engine_inv e -> engine_wf e -> conserved e e.
Proof. intros Hi Hw. repeat split; try assumption. apply same_blocks_refl. Qed.

Lemma conserved_emit e0 e evs : conserved e0 e -> conserved e0 (emit e evs).
Proof. intros H. exact H. Qed.

Lemma conserved_lookup e0 e ch c :
  conserved e0 e -> chans e !! ch = Some c -> chan_inv c /\ chan_wf c.
Proof.
  intros (Hi & Hw & _) Hc. split.
  - eapply engine_inv_lookup; eassumption.
  - unfold engine_wf in Hw. rewrite Forall_lookup in Hw. exact (Hw ch c Hc).
Qed.

Lemma conserved_set e0 e evs ch c c' :
  conserved e0 e ->
  chans e !! ch = Some c ->
  chan_inv c' -> chan_wf c' -> chan_blocks c' ≡ₚ chan_blocks c ->
  conserved e0 (set_chan (emit e evs) ch c').
Proof.
  intros (Hi & Hw & Hb) Hc Hi' Hw' Hb'. split; [|split].
  - apply engine_inv_set_chan; [apply engine_inv_emit; exact Hi | exact Hi'].
  - unfold engine_wf. cbn. apply Forall_insert; assumption.
  - unfold same_blocks in *. cbn [set_chan emit chans].
    apply Forall2_same_length_lookup in Hb. destruct Hb as [Hl Hb].
    apply Forall2_same_length_lookup. split.
    + rewrite length_insert. exact Hl.
    + intros i x y Hx Hy. destruct (Nat.eq_dec i ch) as [->|Hne].
      * rewrite list_lookup_insert_eq in Hy
          by (eapply lookup_lt_Some; exact Hc).
        injection Hy as <-. rewrite Hb'. exact (Hb ch x c Hx Hc).
      * rewrite list_lookup_insert_ne in Hy by congruence.
        exact (Hb i x y Hx Hy).
Qed.

Lemma on_chan_conserved e0 e ch f e' :
  conserved e0 e ->
  (forall c c' evs, chan_inv c -> chan_wf c -> f c = Ok (c', evs) ->
     chan_inv c' /\ chan_wf c' /\ chan_blocks c' ≡ₚ chan_blocks c) ->
  on_chan e ch f = Ok e' ->
  conserved e0 e'.
Proof.
  intros He Hf H. unfold on_chan in H. inv_ok. destruct a0 as [c' evs]. inv_ok.
  destruct (conserved_lookup _ _ _ _ He Ha) as [Hi Hw].
  destruct (Hf _ _ _ Hi Hw Ha0) as (Hi' & Hw' & Hb').
  eapply conserved_set; eassumption.
Qed.

Lemma tx_handler_body_conserved cpu_be e0 intr k e e' :
  conserved e0 e -> tx_handler_body cpu_be intr k e = Ok e' -> conserved e0 e'.
Proof.
  intros He. unfold tx_handler_body.
  destruct (Z.land intr _ =? 0); intros H; inv_ok; [exact He|].
  destruct a0 as [c' evs]. inv_ok. rewrite chans_emit in Ha.
  destruct (conserved_lookup _ _ _ _ He Ha) as [Hi Hw].
  destruct (tx_complete_conserved _ _ _ _ _ _ Hi Hw Ha0) as [Hw' Hb'].
  apply (conserved_set e0 _ evs k a c'); try assumption.
  eapply tx_complete_inv; eassumption.
Qed.

Lemma tx3_handler_body_conserved cpu_be hw e0 k e h e' :
  conserved e0 e -> tx3_handler_body cpu_be hw k e = Ok (h, e') ->
  conserved e0 e'.
Proof.
  intros He. unfold tx3_handler_body. cbv zeta.
  destruct (Z.land _ _ =? 0); intros H; inv_ok; [exact He|].
  destruct a0 as [c' evs]. inv_ok. rewrite chans_emit in Ha.
  destruct (conserved_lookup _ _ _ _ He Ha) as [Hi Hw].
  destruct (tx_complete_conserved _ _ _ _ _ _ Hi Hw Ha0) as [Hw' Hb'].
  apply (conserved_set e0 _ evs k a c'); try assumption.
  eapply tx_complete_inv; eassumption.
Qed.

Lemma tx3_loop_conserved cpu_be hw e0 :
  forall n k h e h' e',
    conserved e0 e -> tx3_loop cpu_be hw n k h e = Ok (h', e') ->
    conserved e0 e'.
Proof.
  induction n as [|n IH]; intros k h e h' e' He H; cbn in H; inv_ok.
  - exact He.
  - destruct a as [h1 e1]. eapply IH; [|exact H].
    eapply tx3_handler_body_conserved; eassumption.
Qed.

Lemma err_handler_body_conserved e0 err k e e' :
  conserved e0 e -> err_handler_body err k e = Ok e' -> conserved e0 e'.
Proof.
  intros He. unfold err_handler_body.
  destruct (Z.land err _ =? 0); intros H; inv_ok; [exact He|].
  destruct (conserved_lookup _ _ _ _ He Ha) as [Hi Hw].
  apply (conserved_set e0 _ _ k a _ He Ha);
    [apply (chan_inv_error a true); exact Hi | exact Hw | reflexivity].
Qed.

Lemma err3_handler_body_conserved hw e0 k e e' :
  conserved e0 e -> err3_handler_body hw k e = Ok e' -> conserved e0 e'.
Proof.
  intros He. unfold err3_handler_body. cbv zeta.
  destruct (Z.land _ _ =? 0); intros H; inv_ok; [exact He|].
  destruct (conserved_lookup _ _ _ _ He Ha) as [Hi Hw].
  apply (conserved_set e0 _ _ k a _ He Ha);
    [apply (chan_inv_error a false); exact Hi | exact Hw | reflexivity].
Qed.

Lemma fsl_edma_tx_handler_conserved cpu_be hw e0 e r e' :
  conserved e0 e -> fsl_edma_tx_handler cpu_be hw e = Ok (r, e') ->
  conserved e0 e'.
Proof.
  intros He. unfold fsl_edma_tx_handler. cbv zeta.
  destruct (_ =? 0); intros H; inv_ok; [exact He|].
  eapply (for_loop_pres (conserved e0)); [|exact He|exact Ha].
  intros k e1 e2. apply tx_handler_body_conserved.
Qed.

Lemma fsl_edma_err_handler_conserved hw e0 e r e' :
  conserved e0 e -> fsl_edma_err_handler hw e = Ok (r, e') -> conserved e0 e'.
Proof.
  intros He. unfold fsl_edma_err_handler. cbv zeta.
  destruct (_ =? 0); intros H; inv_ok; [exact He|].
  eapply (for_loop_pres (conserved e0)); [|exact He|exact Ha].
  intros k e1 e2. apply err_handler_body_conserved.
Qed.

Lemma fsl_edma3_tx_handler_conserved cpu_be hw e0 e r e' :
  conserved e0 e -> fsl_edma3_tx_handler cpu_be hw e = Ok (r, e') ->
  conserved e0 e'.
Proof.
  intros He. unfold fsl_edma3_tx_handler. intros H. inv_ok.
  destruct a as [h e1]. inv_ok.
  eapply tx3_loop_conserved; eassumption.
Qed.

Lemma fsl_edma3_err_handler_conserved hw e0 e r e' :
  conserved e0 e -> fsl_edma3_err_handler hw e = Ok (r, e') -> conserved e0 e'.
Proof.
  intros He. unfold fsl_edma3_err_handler. cbv zeta.
  destruct (_ =? 0); intros H; inv_ok; [exact He|].
  eapply (for_loop_pres (conserved e0)); [|exact He|exact Ha].
  intros k e1 e2. apply err3_handler_body_conserved.
Qed.

Lemma suspend_late_body_conserved e0 k e e' :
  conserved e0 e -> suspend_late_body k e = Ok e' -> conserved e0 e'.
Proof.
  intros He. unfold suspend_late_body. intros H. inv_ok.
  destruct (conserved_lookup _ _ _ _ He Ha) as [Hi Hw].
  apply (conserved_set e0 _ _ k a _ He Ha);
    [apply (chan_inv_same_core a); [repeat split | exact Hi]
    | exact Hw | reflexivity].
Qed.

Lemma resume_early_body_conserved e0 k e e' :
  conserved e0 e -> resume_early_body k e = Ok e' -> conserved e0 e'.
Proof.
  intros He. unfold resume_early_body. cbv zeta. intros H. inv_ok.
  destruct (conserved_lookup _ _ _ _ He Ha) as [Hi Hw].
  apply (conserved_set e0 _ _ k a _ He Ha);
    [apply (chan_inv_same_core a); [repeat split | exact Hi]
    | exact Hw | reflexivity].
Qed.

Lemma step_conserved cpu_be e a e' :
  engine_inv e -> engine_wf e -> call_ok a -> keeps_pool a = true ->
  step cpu_be e a = Ok e' ->
  conserved e e'.
Proof.
  intros Hi Hw Hok Hk. pose proof (conserved_refl e Hi Hw) as He.
  destruct a; cbn [keeps_pool] in Hk; try discriminate; cbn [step call_ok] in *;
    intros H.
  - eapply on_chan_conserved; [exact He| |exact H].
    intros c c' evs Hc Hcw Hf. cbv beta in Hf. inv_ok.
    split; [apply fsl_edma_slave_config_inv; exact Hc|].
    assert (Hv : vchan (fsl_edma_slave_config c cfg).1 = vchan c /\
                 tcd_pool (fsl_edma_slave_config c cfg).1 = tcd_pool c).
    { unfold fsl_edma_slave_config.
      destruct (dir_eqb _ _); [split; reflexivity|].
      destruct (dir_eqb _ _); split; reflexivity. }
    destruct Hv as [Hv Hp].
    exact (fields_conserved c _ Hv Hp Hcw).
  - eapply on_chan_conserved; [exact He| |exact H].
    intros c c' evs Hc Hcw Hf. cbv beta in Hf. split.
    + eapply submit_inv; [|exact Hc|exact Hf].
      intros od c1. apply fsl_edma_prep_slave_sg_core.
    + eapply submit_conserved; [|exact Hcw|exact Hf].
      intros od c1. apply fsl_edma_prep_slave_sg_blocks. exact Hok.
  - eapply on_chan_conserved; [exact He| |exact H].
    intros c c' evs Hc Hcw Hf. cbv beta in Hf. split.
    + eapply submit_inv; [|exact Hc|exact Hf].
      intros od c1. apply fsl_edma_prep_dma_cyclic_core.
    + eapply submit_conserved; [|exact Hcw|exact Hf].
      intros od c1. apply fsl_edma_prep_dma_cyclic_blocks. exact Hok.
  - eapply on_chan_conserved; [exact He| |exact H].
    intros c c' evs Hc Hcw Hf. split.
    + eapply fsl_edma_issue_pending_inv; eassumption.
    + eapply fsl_edma_issue_pending_conserved; eassumption.
  - eapply on_chan_conserved; [exact He| |exact H].
    intros c c' evs Hc Hcw Hf. cbv beta in Hf. inv_ok. split.
    + replace c' with (fst (fsl_edma_pause e c)) by (rewrite Hf; reflexivity).
      apply fsl_edma_pause_inv. exact Hc.
    + unfold fsl_edma_pause in Hf. destruct (edesc c); injection Hf as <- <-;
        apply (fields_conserved c); try reflexivity; exact Hcw.
  - eapply on_chan_conserved; [exact He| |exact H].
    intros c c' evs Hc Hcw Hf. cbv beta in Hf. inv_ok. split.
    + replace c' with (fst (fsl_edma_resume e c)) by (rewrite Hf; reflexivity).
      apply fsl_edma_resume_inv. exact Hc.
    + unfold fsl_edma_resume in Hf. destruct (edesc c); injection Hf as <- <-;
        apply (fields_conserved c); try reflexivity; exact Hcw.
  - eapply on_chan_conserved; [exact He| |exact H].
    intros c c' evs Hc Hcw Hf. split.
    + eapply fsl_edma_terminate_all_inv; eassumption.
    + eapply fsl_edma_terminate_all_conserved; eassumption.
  - eapply on_chan_conserved; [exact He| |exact H].
    intros c c' evs Hc Hcw Hf. cbv beta in Hf. inv_ok. split.
    + eapply vchan_complete_inv; eassumption.
    + eapply vchan_complete_conserved; eassumption.
  - inv_ok. destruct a as [r e1].
    eapply fsl_edma_tx_handler_conserved; eassumption.
  - inv_ok. destruct a as [r e1].
    eapply fsl_edma_err_handler_conserved; eassumption.
  - inv_ok. destruct a as [r e1]. unfold fsl_edma_irq_handler in Ha. inv_ok.
    destruct a as [r0 e0]. destruct r0; inv_ok.
    + eapply fsl_edma_err_handler_conserved; [|exact Ha].
      eapply fsl_edma_tx_handler_conserved; eassumption.
    + eapply fsl_edma_tx_handler_conserved; eassumption.
  - inv_ok. destruct a as [r e1].
    eapply fsl_edma3_tx_handler_conserved; eassumption.
  - inv_ok. destruct a as [r e1].
    eapply fsl_edma3_err_handler_conserved; eassumption.
  - inv_ok. destruct a as [r e1]. unfold fsl_edma3_irq_handler in Ha. inv_ok.
    destruct a as [r0 e0]. destruct r0; inv_ok.
    + eapply fsl_edma3_err_handler_conserved; [|exact Ha].
      eapply fsl_edma3_tx_handler_conserved; eassumption.
    + eapply fsl_edma3_tx_handler_conserved; eassumption.
  - unfold fsl_edma_suspend_late in H.
    eapply (for_loop_pres (conserved e)); [|exact He|exact H].
    intros k e1 e2. apply suspend_late_body_conserved.
  - unfold fsl_edma_resume_early in H. inv_ok.
    apply conserved_emit.
    eapply (for_loop_pres (conserved e)); [|exact He|exact Ha].
    intros k e1 e2. apply resume_early_body_conserved.
Qed.

Lemma on_chan_wf e ch f e' :
  engine_wf e ->
  (forall c c' evs, chan_wf c -> f c = Ok (c', evs) -> chan_wf c') ->
  on_chan e ch f = Ok e' ->
  engine_wf e'.
Proof.
  intros Hw Hf H. unfold on_chan in H. inv_ok. destruct a0 as [c' evs]. inv_ok.
  unfold engine_wf in *. cbn. apply Forall_insert; [exact Hw|].
  eapply Hf; [|exact Ha0]. rewrite Forall_lookup in Hw. exact (Hw ch a Ha).
Qed.

Lemma step_wf cpu_be e a e' :
  engine_inv e -> engine_wf e -> call_ok a ->
  step cpu_be e a = Ok e' ->
  engine_wf e'.
Proof.
  intros Hi Hw Hok H. destruct (keeps_pool a) eqn:Hk.
  - apply (step_conserved cpu_be e a e' Hi Hw Hok Hk H).
  - destruct a; try discriminate; cbn [step] in H.
    + eapply on_chan_wf; [exact Hw| |exact H].
      intros c c' evs Hc Hf. cbv beta in Hf. inv_ok. exact Hc.
    + eapply on_chan_wf; [exact Hw| |exact H].
      intros c c' evs Hc Hf. unfold fsl_edma_free_chan_resources in Hf.
      inv_ok. cbn [vchan_get_all_descriptors] in Hf. inv_ok.
      unfold chan_wf. cbn. repeat split; constructor.
Qed.

Lemma probe_body_wf k e e' :
  engine_wf e -> probe_body k e = Ok e' -> engine_wf e'.
Proof.
  intros He. unfold probe_body. cbv zeta. intros H. inv_ok.
  unfold engine_wf. cbn. apply Forall_app. split; [exact He|].
  constructor; [|constructor]. repeat split; constructor.
Qed.

Lemma engine_wf_register e :
  engine_wf e -> engine_wf (dma_async_device_register e).
Proof.
  unfold engine_wf, dma_async_device_register. cbn [chans].
  rewrite !Forall_lookup. intros He i c Hc.
  rewrite list_lookup_imap in Hc.
  destruct (chans e !! i) as [c0|] eqn:E; cbn in Hc; [|discriminate].
  injection Hc as <-. exact (He i c0 E).
Qed.

Lemma fsl_edma_probe_wf mb mx n be sd e :
  fsl_edma_probe mb mx n be sd = Ok e -> engine_wf e.
Proof.
  unfold fsl_edma_probe. cbv zeta. intros H. inv_ok.
  apply engine_wf_register.
  assert (Ha1 : engine_wf a).
  { refine (for_loop_pres engine_wf probe_body probe_body_wf _ _ _ _ _ Ha).
    unfold engine_wf; cbn; constructor. }
  destruct sd; inv_ok; try exact Ha1.
  eapply (for_loop_pres engine_wf); [|exact Ha1|exact Ha0].
  intros k e1 e2 He1 Hb. unfold clear_int_body in Hb. inv_ok. exact He1.
Qed.

Lemma run_consistent cpu_be l :
  forall e e',
    engine_inv e -> engine_wf e -> Forall call_ok l ->
    run cpu_be e l = Ok e' ->
    engine_inv e' /\ engine_wf e'.
Proof.
  induction l as [|a l IH]; intros e e' Hi Hw Hok H; cbn in H; inv_ok.
  - split; assumption.
  - apply Forall_cons in Hok. destruct Hok as [Hoka Hokl].
    eapply IH; [| |exact Hokl|exact H].
    + eapply step_inv; eassumption.
    + eapply step_wf; eassumption.
Qed.

(** X21: no block is lost and none is invented.  In a state reached
    from a probed engine by calls whose arguments are values of their C
    types, every call other than the creation and the destruction of a
    channel's pool leaves every channel with the same blocks: the bus
    addresses found in its pool and in the descriptors of its three queues
    are the same before and after, up to their order. *)
Theorem step_keeps_blocks (cpu_be : bool) (mb : Z) (mx : list Z) (n : Z)
    (be : bool) (sd : fsl_edma_soc_data) (e0 e e' : fsl_edma_engine)
    (l : list edma_call) (a : edma_call) :
  fsl_edma_probe mb mx n be sd = Ok e0 ->
  Forall call_ok l ->
  run cpu_be e0 l = Ok e ->
  call_ok a ->
  keeps_pool a = true ->
  step cpu_be e a = Ok e' ->
  same_blocks e e'.
Proof.
  intros Hp Hl Hr Ha Hk Hs.
  destruct (run_consistent cpu_be l e0 e (fsl_edma_probe_inv _ _ _ _ _ _ Hp)
              (fsl_edma_probe_wf _ _ _ _ _ _ Hp) Hl Hr) as [Hi Hw].
  apply (step_conserved cpu_be e a e' Hi Hw Ha Hk Hs).
Qed.

Lemma ex_calls_active_ok : Forall call_ok ex_calls_active.
Proof. repeat constructor; cbn; lia. Qed.

Lemma step_keeps_blocks_witness :
  exists e',
    step false ex_engine_active (irq_tx (ex_hw EDMA_INTR 1)) = Ok e' /\
    same_blocks ex_engine_active e'.
Proof.
  destruct (step false ex_engine_active (irq_tx (ex_hw EDMA_INTR 1)))
    as [e'|] eqn:E; [|vm_compute in E; discriminate E].
  exists e'. split; [reflexivity|].
  refine (step_keeps_blocks false 0 [0x100000; 0x200000] 4 false
            fsl_edma_vf610_data (engine_of ex_probe) ex_engine_active e'
            ex_calls_active (irq_tx (ex_hw EDMA_INTR 1)) _
            ex_calls_active_ok _ I eq_refl E).
  - vm_compute. reflexivity.
  - vm_compute. reflexivity.
Defined.

(** X22: in a state reached from a probed engine by calls whose
    arguments are values of their C types, [fsl_edma_terminate_all] never
    traps: it empties the three queues, drops the active descriptor, and
    every block of a queued descriptor is back in the pool, which then
    holds exactly the blocks the channel held. *)
Theorem fsl_edma_terminate_all_frees (cpu_be : bool) (mb : Z) (mx : list Z)
    (n : Z) (be : bool) (sd : fsl_edma_soc_data) (e0 e : fsl_edma_engine)
    (l : list edma_call) (ch : nat) (c : fsl_edma_chan) :
  fsl_edma_probe mb mx n be sd = Ok e0 ->
  Forall call_ok l ->
  run cpu_be e0 l = Ok e ->
  chans e !! ch = Some c ->
  exists c' evs,
    fsl_edma_terminate_all e c = Ok (c', evs) /\
    desc_submitted (vchan c') = [] /\ desc_issued (vchan c') = [] /\
    desc_completed (vchan c') = [] /\ edesc c' = None /\
    ptcd <$> tcd_pool c' ≡ₚ chan_blocks c.
Proof.
  intros Hp Hl Hr Hc.
  destruct (run_consistent cpu_be l e0 e (fsl_edma_probe_inv _ _ _ _ _ _ Hp)
              (fsl_edma_probe_wf _ _ _ _ _ _ Hp) Hl Hr) as [Hi Hw].
  unfold engine_wf in Hw. rewrite Forall_lookup in Hw.
  pose proof (Hw ch c Hc) as Hcw.
  assert (Htot : exists c' evs, fsl_edma_terminate_all e c = Ok (c', evs)).
  { destruct Hcw as (Hs & Hii & Hcc).
    unfold fsl_edma_terminate_all. cbn [vchan_get_all_descriptors].
    destruct (vchan_dma_desc_free_list_wf
                (desc_submitted (vchan c) ++ desc_issued (vchan c) ++
                 desc_completed (vchan c))
                ltac:(repeat (apply Forall_app; split); assumption)
                (tcd_pool c)) as (pool' & Hf & _).
    cbn. rewrite Hf. cbn. eauto. }
  destruct Htot as (c' & evs & Ht). exists c', evs. split; [exact Ht|].
  destruct (fsl_edma_terminate_all_conserved e c c' evs Hcw Ht)
    as ((_ & Hb) & Hs & Hii & Hcc & Hed).
  repeat (split; [assumption|]).
  unfold chan_blocks in Hb at 1. rewrite Hs, Hii, Hcc in Hb.
  cbn [queue_blocks] in Hb. rewrite !app_nil_r in Hb. exact Hb.
Qed.

Lemma fsl_edma_terminate_all_frees_witness :
  exists c' evs,
    fsl_edma_terminate_all ex_engine_two (chan0_of ex_engine_two) =
      Ok (c', evs) /\
    desc_submitted (vchan c') = [] /\ desc_issued (vchan c') = [] /\
    desc_completed (vchan c') = [] /\ edesc c' = None /\
    ptcd <$> tcd_pool c' ≡ₚ chan_blocks (chan0_of ex_engine_two).
Proof.
  refine (fsl_edma_terminate_all_frees false 0 [0x100000; 0x200000] 4 false
            fsl_edma_vf610_data (engine_of ex_probe) ex_engine_two
            ex_calls_two 0 (chan0_of ex_engine_two) _ _ _ eq_refl).
  - vm_compute. reflexivity.
  - repeat constructor; cbn; lia.
  - vm_compute. reflexivity.
Defined.

(** ** Probe *)




Lemma xlate_scan_spec core e spec cpm :
  forall l pre ch r e',
    chans e = pre ++ l ->
    length pre = ch ->
    xlate_scan core e spec cpm l ch = Ok (r, e') ->
    match r with
    | None => e' = e
    | Some k =>
        exists c mux,
          chans e !! k = Some c /\
          (ch <= k)%nat /\
          client_count core k = 0 /\
          cpm <> 0 /\
          chan_id (vchan c) / cpm = u32 (args0 spec) /\
          dma_get_slave_channel core k = true /\
          fsl_edma_chan_mux e (set_slave_id c (u32 (args1 spec)))
            (u32 (args1 spec)) true = Ok mux /\
          e' = set_chan (emit e mux) k (set_slave_id c (u32 (args1 spec))) /\
          forall j cj,
            (ch <= j < k)%nat -> chans e !! j = Some cj ->
            client_count core j <> 0 \/
            chan_id (vchan cj) / cpm <> u32 (args0 spec) \/
            dma_get_slave_channel core j = false
    end.
Proof.
  induction l as [|c rest IH]; intros pre ch r e' Hpre Hlen H; cbn in H.
  - inv_ok. reflexivity.
  - assert (Hc : chans e !! ch = Some c).
    { rewrite Hpre, lookup_app_r by lia.
      replace (ch - length pre)%nat with 0%nat by lia. reflexivity. }
    assert (Hnext : chans e = (pre ++ [c]) ++ rest)
      by (rewrite <- app_assoc; exact Hpre).
    assert (Hlen' : length (pre ++ [c]) = S ch)
      by (rewrite length_app; cbn; lia).
    assert (Hskip :
      (client_count core ch <> 0 \/
       (cpm <> 0 /\
        (chan_id (vchan c) / cpm <> u32 (args0 spec) \/
         dma_get_slave_channel core ch = false))) ->
      xlate_scan core e spec cpm rest (S ch) = Ok (r, e') ->
      match r with
      | None => e' = e
      | Some k =>
          exists c0 mux,
            chans e !! k = Some c0 /\
            (ch <= k)%nat /\
            client_count core k = 0 /\
            cpm <> 0 /\
            chan_id (vchan c0) / cpm = u32 (args0 spec) /\
            dma_get_slave_channel core k = true /\
            fsl_edma_chan_mux e (set_slave_id c0 (u32 (args1 spec)))
              (u32 (args1 spec)) true = Ok mux /\
            e' = set_chan (emit e mux) k (set_slave_id c0 (u32 (args1 spec))) /\
            forall j cj,
              (ch <= j < k)%nat -> chans e !! j = Some cj ->
              client_count core j <> 0 \/
              chan_id (vchan cj) / cpm <> u32 (args0 spec) \/
              dma_get_slave_channel core j = false
      end).
    { intros Hwhy Hrec. specialize (IH _ _ _ _ Hnext Hlen' Hrec).
      destruct r as [k|]; [|exact IH].
      destruct IH as (c0 & mux & H1 & H2 & H3 & H4 & H5 & H6 & H7 & H8 & H9).
      exists c0, mux. repeat (split; [assumption || lia|]).
      intros j cj Hj Hcj. destruct (Nat.eq_dec j ch) as [Heq|Hne].
      - rewrite Heq, Hc in Hcj. injection Hcj as <-. rewrite Heq. tauto.
      - apply (H9 j cj); [lia | exact Hcj]. }
    destruct (Z.eqb_spec (client_count core ch) 0) as [Hcc|Hcc];
      cbn [negb] in H; [|apply Hskip; [left; exact Hcc | exact H]].
    apply bind_Ok in H. destruct H as (bank & Hu & H).
    apply udiv_Ok in Hu. destruct Hu as [Hnz ->].
    destruct (Z.eqb_spec (chan_id (vchan c) / cpm) (u32 (args0 spec)))
      as [Hb|Hb]; cbn [andb] in H;
      [|apply Hskip; [right; split; [exact Hnz | left; exact Hb] | exact H]].
    destruct (dma_get_slave_channel core ch) eqn:Hg;
      [|apply Hskip; [right; split; [exact Hnz | right; reflexivity] | exact H]].
    apply bind_Ok in H. destruct H as (mux & Hmux & H).
    injection H as <- <-. exists c, mux. cbn [set_slave_id slave_id] in Hmux.
    repeat (split; [assumption || lia || reflexivity|]).
    intros j cj Hj. lia.
Qed.

(** X24: [fsl_edma_xlate] hands out the first channel of the list that
    has no client, lies in the mux bank named by the first cell of the
    specifier and that the DMA core grants; it stores the second cell as
    the channel's slave id, routes the channel's mux slot to that source
    with the enable bit, and changes nothing else.  With a specifier that
    does not have exactly two cells, or without such a channel, it
    returns NULL and the engine is untouched. *)
Theorem fsl_edma_xlate_first_free (core : dma_core) (e e' : fsl_edma_engine)
    (spec : of_phandle_args) (r : option nat) :
  fsl_edma_xlate core e spec = Ok (r, e') ->
  match r with
  | None => e' = e
  | Some k =>
      args_count spec = 2 /\
      exists c mux,
        chans e !! k = Some c /\
        client_count core k = 0 /\
        chan_id (vchan c) / (n_chans e / DMAMUX_NR) = u32 (args0 spec) /\
        dma_get_slave_channel core k = true /\
        fsl_edma_chan_mux e (set_slave_id c (u32 (args1 spec)))
          (u32 (args1 spec)) true = Ok mux /\
        e' = set_chan (emit e mux) k (set_slave_id c (u32 (args1 spec))) /\
        forall j cj,
          (j < k)%nat -> chans e !! j = Some cj ->
          client_count core j <> 0 \/
          chan_id (vchan cj) / (n_chans e / DMAMUX_NR) <> u32 (args0 spec) \/
          dma_get_slave_channel core j = false
  end.
Proof.
  unfold fsl_edma_xlate. cbv zeta.
  destruct (Z.eqb_spec (args_count spec) 2) as [Hc|Hc]; cbn [negb];
    intros H; [|inv_ok; reflexivity].
  pose proof (xlate_scan_spec core e spec _ (chans e) [] 0 r e' eq_refl
                eq_refl H) as Hs.
  destruct r as [k|]; [|exact Hs].
  destruct Hs as (c & mux & H1 & _ & H3 & _ & H5 & H6 & H7 & H8 & H9).
  split; [exact Hc|]. exists c, mux.
  repeat (split; [assumption|]).
  intros j cj Hj. apply H9. lia.
Qed.

Lemma fsl_edma_xlate_first_free_witness :
  exists e',
    fsl_edma_xlate ex_core (engine_of ex_probe) (mk_spec 2 0 9) =
      Ok (Some 1%nat, e') /\
    chans e' !! 1%nat = Some (set_slave_id (probe_chan 1) 9) /\
    mmio_trace e' =
      mmio_trace (engine_of ex_probe) ++ [Iowrite8 0x89 0x100001].
Proof.
  destruct (fsl_edma_xlate ex_core (engine_of ex_probe) (mk_spec 2 0 9))
    as [[r e']|] eqn:E; [|vm_compute in E; discriminate E].
  pose proof (fsl_edma_xlate_first_free _ _ _ _ _ E) as H.
  assert (Hr : r = Some 1%nat) by (vm_compute in E; congruence).
  subst r. exists e'. split; [reflexivity|].
  destruct H as (_ & c & mux & Hc & _ & _ & _ & Hm & -> & _).
  vm_compute in Hc. injection Hc as <-.
  vm_compute in Hm. injection Hm as <-.
  split; reflexivity.
Defined.

Lemma first_same_none l x :
  forall j0, ~ (first_same l x j0 < j0 + length l)%nat -> x ∉ irqno <$> l.
Proof.
  induction l as [|r l IH]; intros j0 H; cbn [fmap list_fmap].
  - apply not_elem_of_nil.
  - cbn [first_same length] in H.
    destruct (Z.eqb_spec (irqno r) x) as [E|E]; [exfalso; apply H; lia|].
    apply not_elem_of_cons. split; [congruence|].
    apply (IH (S j0)). intros Hlt. apply H. lia.
Qed.

Lemma nums_insert_name (tbl : list fsl_edma_irq) (j : nat) rj s :
  tbl !! j = Some rj ->
  irqno <$> <[j := mk_irq s (irqhandler rj) (irqno rj)]> tbl = irqno <$> tbl.
Proof.
  intros H. rewrite list_fmap_insert. cbn [irqno].
  apply list_insert_id. rewrite list_lookup_fmap, H. reflexivity.
Qed.

(** What a round of the first loop does to the lines of the table. *)
Lemma irq_lookup_body_nums vf610 p i tbl early tbl' :
  irq_lookup_body vf610 p i tbl = Ok (early, tbl') ->
  exists r x,
    tbl !! i = Some r /\
    irqno <$> tbl' = <[i := x]> (irqno <$> tbl) /\
    drop (S i) tbl' = drop (S i) tbl /\
    match early with
    | Some ret => ret = int (platform_get_irq_byname p (name r)) /\ ret < 0 /\
                  x = ret
    | None =>
        0 <= int (platform_get_irq_byname p (name r)) /\
        (x = int (platform_get_irq_byname p (name r)) \/ x = -1) /\
        (vf610 = true -> 0 <= x -> x ∉ take i (irqno <$> tbl))
    end.
Proof.
  unfold irq_lookup_body. intros H.
  apply bind_Ok in H. destruct H as (r & Hr & H). apply deref_Ok in Hr.
  cbv zeta in H. exists r.
  set (no := int (platform_get_irq_byname p (name r))) in *.
  pose proof (lookup_lt_Some _ _ _ Hr) as Hi.
  destruct (Z.ltb_spec no 0) as [Hneg|Hpos].
  - injection H as <- <-. exists no. split; [exact Hr|].
    split; [rewrite list_fmap_insert; reflexivity|].
    split; [apply drop_insert_lt; lia|]. repeat split. exact Hneg.
  - set (j := first_same _ no 0) in H.
    destruct (vf610 && (j <? i)%nat) eqn:Ev.
    + apply andb_true_iff in Ev. destruct Ev as [-> Hj].
      apply Nat.ltb_lt in Hj.
      apply bind_Ok in H. destruct H as (rj & Hrj & H). apply deref_Ok in Hrj.
      injection H as <- <-. exists (-1). split; [exact Hr|].
      split.
      { rewrite (nums_insert_name _ j rj) by exact Hrj.
        rewrite list_insert_insert_eq, list_fmap_insert. reflexivity. }
      split.
      { rewrite drop_insert_lt by lia. rewrite list_insert_insert_eq.
        apply drop_insert_lt. lia. }
      split; [exact Hpos|]. split; [right; reflexivity|]. intros _ Hx. lia.
    + injection H as <- <-. exists no. split; [exact Hr|].
      split; [rewrite list_fmap_insert; reflexivity|].
      split; [apply drop_insert_lt; lia|].
      split; [exact Hpos|]. split; [left; reflexivity|].
      intros -> _. cbn [andb] in Ev. apply Nat.ltb_ge in Ev.
      unfold j in Ev. rewrite take_insert_ge in Ev by lia.
      rewrite <- fmap_take. apply (first_same_none _ _ 0).
      rewrite length_take. lia.
Qed.

Lemma irq_lookup_loop_early vf610 p :
  forall n i tbl ret tbl',
    irq_lookup_loop vf610 p n i tbl = Ok (Some ret, tbl') -> ret < 0.
Proof.
  induction n as [|n IH]; intros i tbl ret tbl' H; cbn in H; [discriminate|].
  apply bind_Ok in H. destruct H as ([early t1] & Hb & H).
  destruct early as [r0|].
  - injection H as <- <-. apply irq_lookup_body_nums in Hb.
    destruct Hb as (r & x & _ & _ & _ & _ & Hneg & _). exact Hneg.
  - eapply IH. exact H.
Qed.

Lemma NoDup_lines_snoc (l : list Z) (i : nat) (x : Z) :
  (i < length l)%nat ->
  NoDup (filter (fun y => 0 <= y) (take i l)) ->
  (0 <= x -> x ∉ take i l) ->
  NoDup (filter (fun y => 0 <= y) (take (S i) (<[i := x]> l))).
Proof.
  intros Hi Hnd Hx.
  rewrite (take_S_r _ i x) by (apply list_lookup_insert_eq; exact Hi).
  rewrite take_insert_ge by lia. rewrite filter_app.
  destruct (decide (0 <= x)) as [Hp|Hn].
  - rewrite (filter_cons_True _ x []) by exact Hp. rewrite filter_nil.
    apply NoDup_app. split; [exact Hnd|]. split; [|apply NoDup_singleton].
    intros y Hy Hy1. apply list_elem_of_singleton in Hy1. subst y.
    apply list_elem_of_filter in Hy. destruct Hy as [_ Hy].
    exact (Hx Hp Hy).
  - rewrite (filter_cons_False _ x []) by exact Hn. rewrite filter_nil.
    rewrite app_nil_r. exact Hnd.
Qed.

Lemma irq_lookup_loop_lines p :
  forall n i tbl tbl',
    (i + n = length tbl)%nat ->
    NoDup (filter (fun y => 0 <= y) (take i (irqno <$> tbl))) ->
    irq_lookup_loop true p n i tbl = Ok (None, tbl') ->
    NoDup (filter (fun y => 0 <= y) (irqno <$> tbl')).
Proof.
  induction n as [|n IH]; intros i tbl tbl' Hn Hnd H; cbn in H.
  - injection H as <-. rewrite firstn_all2 in Hnd
      by (rewrite length_fmap; lia). exact Hnd.
  - apply bind_Ok in H. destruct H as ([early t1] & Hb & H).
    destruct early as [r0|]; [discriminate|].
    apply irq_lookup_body_nums in Hb.
    destruct Hb as (r & x & Hr & Hnums & _ & _ & _ & Hx).
    pose proof (lookup_lt_Some _ _ _ Hr) as Hi.
    assert (Hlen : length t1 = length tbl).
    { apply (f_equal length) in Hnums.
      rewrite length_insert, !length_fmap in Hnums. exact Hnums. }
    apply (IH (S i) t1 tbl'); [lia| |exact H].
    rewrite Hnums. apply NoDup_lines_snoc;
      [rewrite length_fmap; exact Hi | exact Hnd | apply Hx; reflexivity].
Qed.

Lemma irq_request_loop_spec p :
  forall l reqs ret reqs',
    irq_request_loop p l reqs = (ret, reqs') ->
    exists done,
      reqs' = reqs ++ done /\
      done `prefix_of` filter (fun r => 0 <= irqno r) l /\
      (ret = 0 -> done = filter (fun r => 0 <= irqno r) l).
Proof.
  induction l as [|r l IH]; intros reqs ret reqs' H; cbn in H.
  - injection H as <- <-. exists []. rewrite app_nil_r.
    repeat split; reflexivity.
  - destruct (Z.leb_spec 0 (irqno r)) as [Hp|Hn].
    + rewrite (filter_cons_True _ r l) by exact Hp.
      destruct (Z.eqb_spec (int (devm_request_irq p (irqno r) (name r))) 0)
        as [E|E].
      * apply IH in H. destruct H as (done & -> & Hpre & Hall).
        exists (r :: done). rewrite <- app_assoc. split; [reflexivity|].
        split; [apply prefix_cons; exact Hpre|].
        intros H0. rewrite (Hall H0). reflexivity.
      * injection H as <- <-. exists []. rewrite app_nil_r.
        split; [reflexivity|]. split; [apply prefix_nil|].
        intros H0. contradiction.
    + rewrite (filter_cons_False _ r l) by lia.
      apply IH in H. exact H.
Qed.

Lemma filter_irqno_fmap (l : list fsl_edma_irq) :
  irqno <$> filter (fun r => 0 <= irqno r) l =
  filter (fun y => 0 <= y) (irqno <$> l).
Proof.
  induction l as [|r l IH]; [reflexivity|].
  cbn [fmap list_fmap]. destruct (decide (0 <= irqno r)) as [Hp|Hn].
  - rewrite (filter_cons_True _ r l), (filter_cons_True _ (irqno r))
      by exact Hp.
    cbn [fmap list_fmap]. f_equal. exact IH.
  - rewrite (filter_cons_False _ r l), (filter_cons_False _ (irqno r))
      by exact Hn.
    exact IH.
Qed.

(** X25: when [fsl_edma_irq_init] returns 0 it has registered exactly
    the table entries that have a line, in table order, and
    [fsl_edma_irq_exit] on the table it leaves frees exactly the lines that
    were registered. *)
Theorem fsl_edma_irq_init_exit (p : platform) (e : fsl_edma_engine)
    (tbl tbl' reqs : list fsl_edma_irq) :
  fsl_edma_irq_init p e tbl = Ok (0, tbl', reqs) ->
  reqs = filter (fun r => 0 <= irqno r) tbl' /\
  fsl_edma_irq_exit tbl' = irqno <$> reqs.
Proof.
  unfold fsl_edma_irq_init. intros H.
  apply bind_Ok in H. destruct H as ([early t1] & Hl & H).
  destruct early as [ret|].
  - injection H as -> <- <-. apply irq_lookup_loop_early in Hl. lia.
  - destruct (irq_request_loop p t1 []) as [ret rq] eqn:Er.
    injection H as -> <- <-.
    apply irq_request_loop_spec in Er.
    destruct Er as (done & -> & _ & Hall). cbn [app].
    rewrite (Hall eq_refl). split; reflexivity.
Qed.

(** X26: on Vybrid, where one line may serve both the error and the
    completion interrupt, [fsl_edma_irq_init] never registers the same line
    twice: the lines of the entries it registers are pairwise distinct,
    and none of them is negative. *)
Theorem fsl_edma_irq_init_once (p : platform) (e : fsl_edma_engine)
    (tbl tbl' reqs : list fsl_edma_irq) (ret : Z) :
  is_vf610_edma e = true ->
  fsl_edma_irq_init p e tbl = Ok (ret, tbl', reqs) ->
  NoDup (irqno <$> reqs) /\ Forall (fun r => 0 <= irqno r) reqs.
Proof.
  intros Hvf. unfold fsl_edma_irq_init. rewrite Hvf. intros H.
  apply bind_Ok in H. destruct H as ([early t1] & Hl & H).
  destruct early as [r0|].
  - injection H as _ _ <-. split; constructor.
  - destruct (irq_request_loop p t1 []) as [ret1 rq] eqn:Er.
    injection H as _ <- <-.
    apply irq_request_loop_spec in Er.
    destruct Er as (done & -> & [k Hk] & _). cbn [app].
    apply irq_lookup_loop_lines in Hl;
      [|reflexivity | rewrite take_0; constructor].
    rewrite <- filter_irqno_fmap, Hk, fmap_app in Hl.
    apply NoDup_app in Hl. split; [apply Hl|].
    assert (Hf : Forall (fun r => 0 <= irqno r)
                   (filter (fun r => 0 <= irqno r) t1)).
    { apply Forall_forall. intros r Hr.
      apply list_elem_of_filter in Hr. apply Hr. }
    rewrite Hk in Hf. apply Forall_app in Hf. apply Hf.
Qed.

Lemma fsl_edma_irq_init_once_witness :
  exists tbl' r,
    fsl_edma_irq_init ex_platform_shared ex_engine_active vf610_edma_irqs =
      Ok (0, tbl', [r]) /\
    irqno r = 40 /\ name r = "eDma"%string /\
    NoDup (irqno <$> [r]).
Proof.
  eexists _, _. split; [reflexivity|]. split; [reflexivity|].
  split; [reflexivity|].
  eapply (fsl_edma_irq_init_once ex_platform_shared ex_engine_active
            vf610_edma_irqs _ _ 0 eq_refl).
  reflexivity.
Defined.

Lemma fsl_edma_irq_init_exit_witness :
  exists tbl' reqs,
    fsl_edma_irq_init ex_platform_split ex_engine_active vf610_edma_irqs =
      Ok (0, tbl', reqs) /\
    irqno <$> reqs = [40; 41] /\
    fsl_edma_irq_exit tbl' = [40; 41].
Proof.
  eexists _, _. split; [reflexivity|]. split; [reflexivity|].
  destruct (fsl_edma_irq_init_exit ex_platform_split ex_engine_active
              vf610_edma_irqs _ _ eq_refl) as [_ H].
  exact H.
Defined.

Lemma irq_lookup_body_total vf610 p i tbl r :
  tbl !! i = Some r ->
  exists early tbl', irq_lookup_body vf610 p i tbl = Ok (early, tbl').
Proof.
  intros Hr. unfold irq_lookup_body. rewrite Hr.
  cbn [deref mbind result_bind]. cbv zeta.
  pose proof (lookup_lt_Some _ _ _ Hr) as Hi.
  destruct (_ <? 0); [eauto|].
  destruct (vf610 && _) eqn:Ev; [|eauto].
  apply andb_true_iff in Ev. destruct Ev as [_ Hj]. apply Nat.ltb_lt in Hj.
  match goal with
  | |- context [deref (?t !! ?j)] =>
      destruct (lookup_lt_is_Some_2 t j) as [rj Hrj];
        [rewrite !length_insert; lia | rewrite Hrj]
  end.
  cbn [deref mbind result_bind]. eauto.
Qed.

Lemma irq_lookup_loop_missing vf610 p tbl i r :
  tbl !! i = Some r ->
  int (platform_get_irq_byname p (name r)) < 0 ->
  (forall j rj, (j < i)%nat -> tbl !! j = Some rj ->
                0 <= int (platform_get_irq_byname p (name rj))) ->
  forall n k tk,
    (k <= i < k + n)%nat ->
    drop k tk = drop k tbl ->
    exists tbl',
      irq_lookup_loop vf610 p n k tk =
        Ok (Some (int (platform_get_irq_byname p (name r))), tbl').
Proof.
  intros Hr Hneg Hbefore.
  induction n as [|n IH]; intros k tk Hk Hd; [lia|].
  assert (Hlk : forall m, (k <= m)%nat -> tk !! m = tbl !! m).
  { intros m Hm. replace m with (k + (m - k))%nat by lia.
    rewrite <- !lookup_drop, Hd. reflexivity. }
  cbn [irq_lookup_loop].
  destruct (tbl !! k) as [rk|] eqn:Hrk.
  2:{ apply lookup_ge_None in Hrk. apply lookup_lt_Some in Hr. lia. }
  assert (Htk : tk !! k = Some rk) by (rewrite Hlk by lia; exact Hrk).
  destruct (irq_lookup_body_total vf610 p k tk rk Htk) as (early & t1 & Hb).
  rewrite Hb. cbn [mbind result_bind].
  apply irq_lookup_body_nums in Hb.
  destruct Hb as (r1 & x & Hr1 & _ & Hdrop & Hm).
  rewrite Htk in Hr1. injection Hr1 as <-.
  destruct (Nat.eq_dec k i) as [Heq|Hne].
  - rewrite Heq, Hr in Hrk. injection Hrk as <-.
    destruct early as [ret|].
    + destruct Hm as (-> & _). eauto.
    + destruct Hm as (Hpos & _). lia.
  - destruct early as [ret|].
    + destruct Hm as (-> & Hlt & _).
      pose proof (Hbefore k rk ltac:(lia) Hrk). lia.
    + apply IH; [lia|].
      rewrite Hdrop. replace (S k) with (k + 1)%nat by lia.
      rewrite <- !drop_drop, Hd. reflexivity.
Qed.

(** X27: when the platform has no line for the name of a table entry,
    and has one for every entry before it, [fsl_edma_irq_init] returns the
    platform's error for that name and registers no interrupt at all. *)
Theorem fsl_edma_irq_init_missing (p : platform) (e : fsl_edma_engine)
    (tbl : list fsl_edma_irq) (i : nat) (r : fsl_edma_irq) :
  tbl !! i = Some r ->
  int (platform_get_irq_byname p (name r)) < 0 ->
  (forall j rj, (j < i)%nat -> tbl !! j = Some rj ->
                0 <= int (platform_get_irq_byname p (name rj))) ->
  exists tbl',
    fsl_edma_irq_init p e tbl =
      Ok (int (platform_get_irq_byname p (name r)), tbl', []).
Proof.
  intros Hr Hneg Hbefore. unfold fsl_edma_irq_init.
  pose proof (lookup_lt_Some _ _ _ Hr) as Hi.
  destruct (irq_lookup_loop_missing (is_vf610_edma e) p tbl i r Hr Hneg
              Hbefore (length tbl) 0 tbl ltac:(lia) eq_refl) as (tbl' & Hl).
  rewrite Hl. cbn [mbind result_bind]. eauto.
Qed.

Lemma fsl_edma_irq_init_missing_witness :
  exists tbl',
    fsl_edma_irq_init ex_platform_missing ex_engine_active vf610_edma_irqs =
      Ok (-6, tbl', []).
Proof.
  refine (fsl_edma_irq_init_missing ex_platform_missing ex_engine_active
            vf610_edma_irqs 1 (mk_irq "edma-tx"%string fsl_edma_tx_handler 0)
            eq_refl _ _).
  - vm_compute. reflexivity.
  - intros j rj Hj Hrj. assert (j = 0%nat) as -> by lia.
    injection Hrj as <-. vm_compute. discriminate.
Defined.

(** X28: on Vybrid with the error and the completion interrupt on one
    line, [fsl_edma_irq_init] registers the line once, for the combined
    handler under the name [eDma], and leaves the table with its first
    entry renamed and its second entry without a line.  A later call on
    that table asks the platform for a line named [eDma], and fails with
    the platform's error when there is none. *)
Theorem fsl_edma_irq_init_shared (p : platform) (e : fsl_edma_engine) (n : Z) :
  is_vf610_edma e = true ->
  0 <= n < 2 ^ 31 ->
  platform_get_irq_byname p "edma-err"%string = n ->
  platform_get_irq_byname p "edma-tx"%string = n ->
  int (devm_request_irq p n "eDma"%string) = 0 ->
  let tbl' := [mk_irq "eDma"%string fsl_edma_irq_handler n;
               mk_irq "edma-tx"%string fsl_edma_tx_handler (-1)] in
  fsl_edma_irq_init p e vf610_edma_irqs =
    Ok (0, tbl', [mk_irq "eDma"%string fsl_edma_irq_handler n]) /\
  (int (platform_get_irq_byname p "eDma"%string) < 0 ->
   exists tbl'',
     fsl_edma_irq_init p e tbl' =
       Ok (int (platform_get_irq_byname p "eDma"%string), tbl'', [])).
Proof.
  intros Hvf Hn Herr Htx Hreq tbl'. split.
  - unfold fsl_edma_irq_init, vf610_edma_irqs. rewrite Hvf.
    cbn [length irq_lookup_loop]. unfold irq_lookup_body.
    cbn [lookup list_lookup deref mbind result_bind name irqhandler irqno].
    rewrite Herr, (int_small n) by lia.
    destruct (Z.ltb_spec n 0) as [Hlt|_]; [lia|].
    cbn [list_insert insert take first_same Nat.ltb Nat.leb andb mbind
           result_bind mret result_ret lookup list_lookup deref name
           irqhandler irqno].
    rewrite Htx, (int_small n) by lia.
    destruct (Z.ltb_spec n 0) as [Hlt|_]; [lia|].
    cbn [list_insert insert take first_same irqno].
    rewrite Z.eqb_refl.
    cbn [Nat.ltb Nat.leb andb mbind result_bind mret result_ret lookup
           list_lookup deref name irqhandler irqno list_insert insert].
    cbn [irq_request_loop irqno name].
    destruct (Z.leb_spec 0 n) as [_|Hlt]; [|lia].
    rewrite Hreq. cbn [Z.eqb Z.leb Z.compare app]. reflexivity.
  - intros Hneg. unfold fsl_edma_irq_init.
    destruct (irq_lookup_loop_missing (is_vf610_edma e) p tbl' 0
                (mk_irq "eDma"%string fsl_edma_irq_handler n) eq_refl Hneg
                ltac:(intros j rj Hj; lia) (length tbl') 0 tbl'
                ltac:(cbn; lia) eq_refl) as (tbl'' & Hl).
    rewrite Hl. cbn [mbind result_bind]. eauto.
Qed.

Lemma fsl_edma_irq_init_shared_witness :
  fsl_edma_irq_init ex_platform_shared ex_engine_active vf610_edma_irqs =
    Ok (0,
        [mk_irq "eDma"%string fsl_edma_irq_handler 40;
         mk_irq "edma-tx"%string fsl_edma_tx_handler (-1)],
        [mk_irq "eDma"%string fsl_edma_irq_handler 40]) /\
  exists tbl'',
    fsl_edma_irq_init ex_platform_shared ex_engine_active
      [mk_irq "eDma"%string fsl_edma_irq_handler 40;
       mk_irq "edma-tx"%string fsl_edma_tx_handler (-1)] =
      Ok (-6, tbl'', []).
Proof.
  destruct (fsl_edma_irq_init_shared ex_platform_shared ex_engine_active 40
              eq_refl ltac:(lia) eq_refl eq_refl eq_refl) as [H1 H2].
  split; [exact H1|]. apply H2. vm_compute. reflexivity.
Defined.

(** ** Completion interrupts without an active descriptor, on the other
    handlers *)

(** X29: the eDMA3 completion handler and both combined handlers read
    the active descriptor of a channel whose completion interrupt is
    asserted without testing it: when such a channel has no active
    descriptor they trap. *)
Theorem fsl_edma_irq_handlers_no_edesc (cpu_be : bool) (hw : mmio)
    (e : fsl_edma_engine) (ch : nat) (c : fsl_edma_chan) :
  Z.of_nat ch < n_chans e ->
  chans e !! ch = Some c ->
  edesc c = None ->
  (Z.land (edma_readl hw e (membase e + EDMA3_CHn_INT (Z.of_nat ch)))
     EDMA3_CHn_INT_INT <> 0 ->
   fsl_edma3_tx_handler cpu_be hw e = Fault /\
   fsl_edma3_irq_handler cpu_be hw e = Fault) /\
  (Z.land (edma_readl hw e (membase e + EDMA_INTR))
     (u32 (Z.shiftl 0x1 (Z.of_nat ch))) <> 0 ->
   fsl_edma_irq_handler cpu_be hw e = Fault).
Proof.
  intros Hch Hc Hd. split.
  - intros Hbit.
    pose proof (fsl_edma3_tx_handler_no_edesc cpu_be hw e ch c Hch Hc Hd Hbit)
      as H3.
    split; [exact H3|]. unfold fsl_edma3_irq_handler. rewrite H3. reflexivity.
  - intros Hbit. unfold fsl_edma_irq_handler, fsl_edma_tx_handler.
    destruct (Z.eqb_spec (edma_readl hw e (membase e + EDMA_INTR)) 0) as [E|_].
    + rewrite E, Z.land_0_l in Hbit. contradiction.
    + rewrite (tx_loop_no_edesc cpu_be _ ch c Hbit Hd);
        [reflexivity | lia | exact Hc].
Qed.

Lemma fsl_edma_irq_handlers_no_edesc_witness :
  fsl_edma3_tx_handler false (ex_hw 0x5008 1) ex_engine_s32g = Fault /\
  fsl_edma3_irq_handler false (ex_hw 0x5008 1) ex_engine_s32g = Fault.
Proof.
  destruct (fsl_edma_irq_handlers_no_edesc false (ex_hw 0x5008 1)
              ex_engine_s32g 1 (probe_chan 1) eq_refl eq_refl eq_refl)
    as [H _].
  apply H. vm_compute. discriminate.
Defined.
